(** * CineSync watch-party relay: playback synchronisation and room state

    A shallow embedding of the two server variants and of the browser client:

    - [Push]   : the Socket.IO server (server.js; the serverless socket
                 handler repeats its join, player, sync, chat and
                 disconnect handlers);
    - [Http]   : the polling server (the Express routes of index.js);
    - [Client] : the reconciler of the browser front end (app.js).

    JavaScript numbers are modelled by [JS.number]: exact rationals for the
    finite values, together with NaN and the two infinities.  Rounding and the
    sign of zero are not modelled.  Strings are sequences of characters, a
    character being one UTF-16 code unit below 256.
    [Date.now()] is an input of every handler, an integer number of
    milliseconds, and so are the values [Math.random()] returns.  The
    conversion of a string to a number and [String.prototype.trim] are
    parameters of the socket server: what is proved of it holds for any
    such functions. *)

From Stdlib Require Import ZArith QArith Qcanon Qround String Ascii List Lia.
From stdpp Require Import base gmap strings list pretty.

Local Open Scope string_scope.

(* ===================================================================== *)
(** ** JavaScript values                                                  *)
(* ===================================================================== *)

Module JS.

Inductive number : Type :=
  | NaN
  | PInf
  | NInf
  | Fin (q : Qc).

#[global] Instance number_eq_dec : EqDecision number.
Proof. solve_decision. Defined.

Definition of_Z (z : Z) : number := Fin (Q2Qc (inject_Z z)).

(** Sign bookkeeping for the infinite cases. *)
Definition cmul (a b : comparison) : comparison :=
  match a, b with
  | Eq, _ | _, Eq => Eq
  | Gt, Gt | Lt, Lt => Gt
  | Gt, Lt | Lt, Gt => Lt
  end.

Definition nsign (x : number) : comparison :=
  match x with
  | NaN => Eq
  | PInf => Gt
  | NInf => Lt
  | Fin q => (q ?= 0)%Qc
  end.

Definition inf_of (c : comparison) : number :=
  match c with Gt => PInf | Lt => NInf | Eq => NaN end.

Definition nneg (x : number) : number :=
  match x with
  | NaN => NaN
  | PInf => NInf
  | NInf => PInf
  | Fin q => Fin (- q)%Qc
  end.

(** [x + y] *)
Definition nadd (x y : number) : number :=
  match x, y with
  | NaN, _ | _, NaN => NaN
  | Fin a, Fin b => Fin (a + b)%Qc
  | PInf, NInf | NInf, PInf => NaN
  | PInf, _ | _, PInf => PInf
  | NInf, _ | _, NInf => NInf
  end.

(** [x - y] *)
Definition nsub (x y : number) : number := nadd x (nneg y).

(** [x * y] *)
Definition nmul (x y : number) : number :=
  match x, y with
  | NaN, _ | _, NaN => NaN
  | Fin a, Fin b => Fin (a * b)%Qc
  | _, _ => inf_of (cmul (nsign x) (nsign y))
  end.

(** [x / y]; a zero divisor counts as positive zero. *)
Definition ndiv (x y : number) : number :=
  match x, y with
  | NaN, _ | _, NaN => NaN
  | Fin a, Fin b =>
      if bool_decide (b = 0%Qc) then inf_of (a ?= 0)%Qc else Fin (a / b)%Qc
  | Fin _, _ => Fin 0%Qc
  | _, Fin b =>
      inf_of (cmul (nsign x) (if bool_decide (b = 0%Qc) then Gt else (b ?= 0)%Qc))
  | _, _ => NaN
  end.

(** [Math.abs(x)] *)
Definition nabs (x : number) : number :=
  match x with
  | NaN => NaN
  | PInf | NInf => PInf
  | Fin q => Fin (if bool_decide (q < 0)%Qc then (- q)%Qc else q)
  end.

(** [x > y]; every comparison with NaN is false. *)
Definition ngt (x y : number) : bool :=
  match x, y with
  | NaN, _ | _, NaN => false
  | Fin a, Fin b => bool_decide (b < a)%Qc
  | PInf, PInf => false
  | PInf, _ => true
  | _, NInf => match x with NInf => false | _ => true end
  | _, _ => false
  end.

(** Truthiness of a number: [0] and [NaN] are falsy. *)
Definition num_truthy (x : number) : bool :=
  match x with
  | NaN => false
  | Fin q => bool_decide (q ≠ 0%Qc)
  | _ => true
  end.

(** [x || d] on numbers. *)
Definition nor (x d : number) : number := if num_truthy x then x else d.

(** The values a JSON payload field can hold.  An object or array is carried
    with the string its conversion to a primitive yields. *)
Inductive value : Type :=
  | JUndefined
  | JNull
  | JBool (b : bool)
  | JNum (n : number)
  | JStr (s : string)
  | JObj (prim : string).

#[global] Instance value_eq_dec : EqDecision value.
Proof. solve_decision. Defined.

Definition truthy (v : value) : bool :=
  match v with
  | JUndefined | JNull => false
  | JBool b => b
  | JNum n => num_truthy n
  | JStr s => negb (bool_decide (s = ""))
  | JObj _ => true
  end.

(** [v || d] *)
Definition vor (v d : value) : value := if truthy v then v else d.

Section ToNumber.
(** The language's conversion of a string to a number (the grammar of
    numeric literals) is taken as given. *)
Variable StringToNumber : string → number.

(** [Number(v)] *)
Definition Number (v : value) : number :=
  match v with
  | JUndefined => NaN
  | JNull => Fin 0%Qc
  | JBool true => Fin 1%Qc
  | JBool false => Fin 0%Qc
  | JNum n => n
  | JStr s => StringToNumber s
  | JObj s => StringToNumber s
  end.

(** [Number(v) || d] *)
Definition Number_or (v : value) (d : number) : number := nor (Number v) d.
End ToNumber.

(** Strings: [s || d] and [s.slice(0, n)].  A character of a string is one
    UTF-16 code unit below 256. *)
Definition sor (s : option string) (d : string) : string :=
  match s with
  | Some t => if bool_decide (t = "") then d else t
  | None => d
  end.

(** Truthiness of a string that may be [null] or [undefined]. *)
Definition str_truthy (s : option string) : bool :=
  match s with
  | Some t => negb (bool_decide (t = ""))
  | None => false
  end.

Definition slice0 (n : nat) (s : string) : string := String.substring 0 n s.

(** [s.trim()] removes white space and line terminators from both ends.  Of
    these, the code units below 256 are U+0009 to U+000D, U+0020 and U+00A0;
    the others (U+1680, U+2000 to U+200A, U+2028, U+2029, U+202F, U+205F,
    U+3000 and U+FEFF) are not characters of the strings modelled here. *)
Definition is_space (c : ascii) : bool :=
  let n := nat_of_ascii c in
  bool_decide (n = 32 ∨ (9 ≤ n ∧ n ≤ 13) ∨ n = 160)%nat.

Fixpoint trim_start (s : string) : string :=
  match s with
  | String c r => if is_space c then trim_start r else s
  | EmptyString => EmptyString
  end.

Definition trim (s : string) : string :=
  String.rev (trim_start (String.rev (trim_start s))).

End JS.

Import JS.

(** [Map]: keys are kept in insertion order; setting a key that is present
    replaces its value in place. *)
Module JsMap.
Section Map.
Context {V : Type}.

Fixpoint set (k : string) (v : V) (m : list (string * V)) : list (string * V) :=
  match m with
  | [] => [(k, v)]
  | (k', v') :: r =>
      if bool_decide (k' = k) then (k, v) :: r else (k', v') :: set k v r
  end.

Definition delete (k : string) (m : list (string * V)) : list (string * V) :=
  List.filter (λ e, negb (bool_decide (e.1 = k))) m.

Definition get (k : string) (m : list (string * V)) : option V :=
  snd <$> List.find (λ e, bool_decide (e.1 = k)) m.

Definition keys (m : list (string * V)) : list string := fst <$> m.
Definition values (m : list (string * V)) : list V := snd <$> m.

(** [m.keys().next()]: the first key in insertion order, if any. *)
Definition first_key (m : list (string * V)) : option string := head (keys m).
End Map.
End JsMap.

(* ===================================================================== *)
(** ** Data model shared by the socket server and the client              *)
(* ===================================================================== *)

Inductive Status : Type := paused | playing.

#[global] Instance Status_eq_dec : EqDecision Status.
Proof. solve_decision. Defined.

(** [{ status, at, rate, ts }] *)
Record Playback : Type := mkPlayback {
  status : Status;
  at_ : number;
  rate : number;
  ts : number
}.

#[global] Instance Playback_eq_dec : EqDecision Playback.
Proof. solve_decision. Defined.

(** [{ type, url, videoId }] *)
Record Source : Type := mkSource {
  type : string;
  url : string;
  videoId : option string
}.

#[global] Instance Source_eq_dec : EqDecision Source.
Proof. solve_decision. Defined.

(** Milliseconds per second, as a number. *)
Definition thousand : number := of_Z 1000.

(** [effectiveTime(playback)], with the reading of [Date.now()] made explicit. *)
Definition effectiveTime (now : Z) (playback : Playback) : number :=
  match status playback with
  | playing =>
      let dt := ndiv (nsub (of_Z now) (ts playback)) thousand in
      nadd (at_ playback) (nmul dt (nor (rate playback) (Fin 1%Qc)))
  | paused => at_ playback
  end.

(* ===================================================================== *)
(** ** The client reconciler (app.js)                                     *)
(* ===================================================================== *)

Module Client.

(** Calls made on the unified player, in the order they are made. *)
Inductive call : Type :=
  | setRate (r : number)
  | seek (t : number)
  | play
  | pause.

#[global] Instance call_eq_dec : EqDecision call.
Proof. solve_decision. Defined.

Definition one : number := Fin 1%Qc.
(** The drift thresholds [0.5] and [0.35]. *)
Definition threshold_apply : number := Fin (Q2Qc (1 # 2)).
Definition threshold_sync : number := Fin (Q2Qc (35 # 100)).

(** [at + (nowMs() - ts) / 1000] *)
Definition compensated (now : Z) (at0 ts0 : number) : number :=
  nadd at0 (ndiv (nsub (of_Z now) ts0) thousand).

(** [applyPlayback(pb)]; [cur] is what [player.getTime()] returns.  The
    calls are made inside [suppress]. *)
Definition applyPlayback (now : Z) (cur : number) (has_player : bool)
    (pb : option Playback) : list call :=
  match has_player, pb with
  | true, Some pb =>
      let target :=
        match status pb with
        | playing => compensated now (at_ pb) (ts pb)
        | paused => at_ pb
        end in
      [setRate (nor (rate pb) one)]
      ++ (if ngt (nabs (nsub cur target)) threshold_apply then [seek target] else [])
      ++ [match status pb with playing => play | paused => pause end]
  | _, _ => []
  end.

(** The [player:play] and [player:seek] listeners. *)
Definition on_player_play (now : Z) (cur : number) (has_player : bool)
    (at0 rate0 ts0 : number) : list call :=
  if has_player then
    let target := compensated now at0 ts0 in
    [setRate (nor rate0 one)]
    ++ (if ngt (nabs (nsub cur target)) threshold_apply then [seek target] else [])
    ++ [play]
  else [].

Definition on_player_seek (now : Z) (has_player : bool) (to ts0 : number) : list call :=
  if has_player then [seek (compensated now to ts0)] else [].

(** What the [sync:state] listener does. *)
Inductive reaction : Type :=
  | Ignored
  | Reload (s : Source) (pb : Playback)
  | Calls (l : list call).

(** The [sync:state] listener: drift correction for non-hosts.  Two sources
    are compared through their JSON renderings, that is, field by field. *)
Definition on_sync_state (now : Z) (cur : number) (isHost has_player : bool)
    (current_source : option Source) (source : option Source) (pb : Playback) : reaction :=
  if isHost || negb has_player then Ignored
  else
    let apply :=
      match status pb with
      | playing =>
          let target := compensated now (at_ pb) (ts pb) in
          Calls ((if ngt (nabs (nsub cur target)) threshold_sync
                  then [seek target; play] else [play])
                 ++ [setRate (nor (rate pb) one)])
      | paused => Calls [pause; seek (at_ pb)]
      end in
    match source with
    | Some s =>
        if bool_decide (current_source = Some s) then apply else Reload s pb
    | None => apply
    end.

(** The target as the specification words it: the latency scaled by the rate. *)
Definition spec_target (now : Z) (pb : Playback) : number :=
  nadd (at_ pb) (nmul (ndiv (nsub (of_Z now) (ts pb)) thousand) (rate pb)).

End Client.

(* ===================================================================== *)
(** ** Room ids (the same function in every server file)                  *)
(* ===================================================================== *)

Definition alphabet : string := "ABCDEFGHJKLMNPQRSTUVWXYZ23456789".

(** [s[i]] for an integral index: [undefined] outside the string. *)
Definition char_at (s : string) (i : Z) : option ascii :=
  if (i <? 0)%Z then None else String.get (Z.to_nat i) s.

(** [alphabet[Math.floor(r * alphabet.length)]], as the text appended to the
    id; [r] is the value [Math.random()] returned. *)
Definition pick (r : Qc) : string :=
  let len := Q2Qc (inject_Z (Z.of_nat (String.length alphabet))) in
  match char_at alphabet (Qfloor (r * len)%Qc) with
  | Some c => String c EmptyString
  | None => "undefined"
  end.

Fixpoint makeRoomId_loop (n i : nat) (random : nat → Qc) (id : string) : string :=
  match n with
  | O => id
  | S n' => makeRoomId_loop n' (S i) random (String.append id (pick (random i)))
  end.

(** [makeRoomId()]; [random i] is the value of the [i]-th call of
    [Math.random()]. *)
Definition makeRoomId (random : nat → Qc) : string :=
  makeRoomId_loop 6 0 random "".

(** [s || makeRoomId()] *)
Definition or_makeRoomId (s : option string) (random : nat → Qc) : string :=
  if str_truthy s then default "" s else makeRoomId random.

(** The characters of the restricted alphabet, as the specification lists
    them: A-H, J-N, P-Z and 2-9. *)
Definition in_alphabet (c : ascii) : bool :=
  let n := nat_of_ascii c in
  bool_decide ((65 ≤ n ∧ n ≤ 72) ∨ (74 ≤ n ∧ n ≤ 78) ∨ (80 ≤ n ∧ n ≤ 90)
               ∨ (50 ≤ n ∧ n ≤ 57))%nat.

Definition is_room_code (s : string) : bool :=
  bool_decide (String.length s = 6%nat) && forallb in_alphabet (list_ascii_of_string s).

(* ===================================================================== *)
(** ** The Socket.IO server (server.js)                                   *)
(* ===================================================================== *)

Module Push.

(** [{ id, name }] *)
Record Participant : Type := mkParticipant {
  pid : string;
  name : string
}.

Record Room : Type := mkRoom {
  id : string;
  hostId : option string;
  participants : list (string * Participant);
  source : option Source;
  playback : Playback
}.

(** The registry [rooms], and for every open socket the variable
    [joinedRoomId] of its connection closure. *)
Record Server : Type := mkServer {
  rooms : gmap string Room;
  sockets : gmap string (option string)
}.

Definition init : Server := mkServer ∅ ∅.

(** [summarizeRoom(room)] *)
Record Summary : Type := mkSummary {
  s_id : string;
  s_hostId : option string;
  s_source : option Source;
  s_playback : Playback
}.

Definition summarizeRoom (room : Room) : Summary :=
  mkSummary (id room) (hostId room) (source room) (playback room).

(** [listParticipants(room)] *)
Definition listParticipants (room : Room) : list Participant :=
  (λ p, mkParticipant (pid p) (name p)) <$> JsMap.values (participants room).

(** What the server sends. *)
Inductive message : Type :=
  | room_welcome (room : Summary) (ps : list Participant)
  | room_participants (ps : list Participant)
  | room_state (room : Summary)
  | player_set_source (src : Source) (pb : Playback)
  | player_play (at0 rate0 ts0 : number)
  | player_pause (at0 ts0 : number)
  | player_seek (to ts0 : number)
  | player_rate (rate0 ts0 : number)
  | sync_state (st : Status) (at0 rate0 ts0 : number)
      (src : option Source) (host : option string)
  | chat_message (text name0 : string) (at0 : Z) (from : string).

Inductive emit : Type :=
  | to_socket (sid : string) (m : message)
  | to_room (rid : string) (m : message).

(** The payload of [player:set-source]. *)
Record SourcePayload : Type := mkSourcePayload {
  p_type : option string;
  p_url : option string;
  p_videoId : option string
}.

(** What a socket sends; the first argument is [socket.id]. *)
Inductive event : Type :=
  | connection (sid : string)
  | room_join (sid : string) (roomId name0 : option string)
  | room_leave (sid : string)
  | role_become_host (sid : string)
  | set_source (sid : string) (payload : option SourcePayload)
  | ev_play (sid : string) (at0 rate0 ts0 : value)
  | ev_pause (sid : string) (at0 ts0 : value)
  | ev_seek (sid : string) (to ts0 : value)
  | ev_rate (sid : string) (rate0 ts0 : value)
  | sync_request (sid : string)
  | chat (sid : string) (text name0 : option string)
  | disconnect (sid : string).

Definition fresh_playback (now : Z) : Playback :=
  mkPlayback paused (Fin 0%Qc) (Fin 1%Qc) (of_Z now).

(** [getOrCreateRoom(roomId)]: the room, the key it is stored under and the
    registry afterwards. *)
Definition getOrCreateRoom (now : Z) (random : nat → Qc) (roomId : string)
    (rs : gmap string Room) : Room * string * gmap string Room :=
  match rs !! roomId with
  | Some room => (room, roomId, rs)
  | None =>
      let room := mkRoom (or_makeRoomId (Some roomId) random) None [] None
                         (fresh_playback now) in
      (room, id room, <[id room := room]> rs)
  end.

(** Removal of a participant with host reassignment, as [room:leave] and
    [disconnect] both do it. *)
Definition remove_participant (sid : string) (room : Room) : Room :=
  let ps := JsMap.delete sid (participants room) in
  let host :=
    if bool_decide (hostId room = Some sid) then JsMap.first_key ps
    else hostId room in
  mkRoom (id room) host ps (source room) (playback room).

(** The room a handler works on: [rooms.get(joinedRoomId)] after the guard
    [if (!joinedRoomId) return]. *)
Definition joined_room (sid : string) (st : Server) : option (string * Room) :=
  match sockets st !! sid with
  | Some (Some rid) =>
      if bool_decide (rid = "") then None
      else (λ room, (rid, room)) <$> rooms st !! rid
  | _ => None
  end.

(** The same with the host check [room.hostId !== socket.id]. *)
Definition hosted_room (sid : string) (st : Server) : option (string * Room) :=
  match joined_room sid st with
  | Some (rid, room) =>
      if bool_decide (hostId room = Some sid) then Some (rid, room) else None
  | None => None
  end.

Definition with_playback (pb : Playback) (room : Room) : Room :=
  mkRoom (id room) (hostId room) (participants room) (source room) pb.

Definition store (rid : string) (room : Room) (st : Server) : Server :=
  mkServer (<[rid := room]> (rooms st)) (sockets st).

Section Handlers.
Variable StringToNumber : string → number.

(** [roomId.trim()] is taken as given in the same way: the handlers are
    modelled for any function [trim]; [JS.trim] is the one the sample inputs
    are run with. *)
Variable trim : string → string.

Abbreviation Num_or := (Number_or StringToNumber).

(** One handler invocation.  [now] is the reading of [Date.now()] and
    [random] the values of [Math.random()] during it. *)
Definition handle (now : Z) (random : nat → Qc) (ev : event) (st : Server)
    : Server * list emit :=
  match ev with
  | connection sid =>
      match sockets st !! sid with
      | Some _ => (st, [])
      | None => (mkServer (rooms st) (<[sid := None]> (sockets st)), [])
      end
  | room_join sid roomId name0 =>
      match sockets st !! sid with
      | None => (st, [])
      | Some _ =>
          let given := trim <$> (if str_truthy roomId then roomId else None) in
          let rid := or_makeRoomId given random in
          let random' := if str_truthy given then random else λ i, random (6 + i)%nat in
          let '(room, key, rs) := getOrCreateRoom now random' rid (rooms st) in
          let ps := JsMap.set sid (mkParticipant sid (sor name0 "Guest"))
                              (participants room) in
          let host := if str_truthy (hostId room) then hostId room else Some sid in
          let room' := mkRoom (id room) host ps (source room) (playback room) in
          (mkServer (<[key := room']> rs) (<[sid := Some (id room)]> (sockets st)),
           [ to_socket sid (room_welcome (summarizeRoom room') (listParticipants room'));
             to_room (id room') (room_participants (listParticipants room'));
             to_room (id room') (room_state (summarizeRoom room')) ])
      end
  | room_leave sid =>
      match joined_room sid st with
      | None => (st, [])
      | Some (rid, room) =>
          let room' := remove_participant sid room in
          (mkServer (<[rid := room']> (rooms st)) (<[sid := None]> (sockets st)),
           [ to_room (id room') (room_participants (listParticipants room'));
             to_room (id room') (room_state (summarizeRoom room')) ])
      end
  | role_become_host sid =>
      match joined_room sid st with
      | None => (st, [])
      | Some (rid, room) =>
          if str_truthy (hostId room) then (st, [])
          else
            let room' := mkRoom (id room) (Some sid) (participants room)
                                (source room) (playback room) in
            (store rid room' st, [to_room (id room') (room_state (summarizeRoom room'))])
      end
  | set_source sid payload =>
      match hosted_room sid st, payload with
      | Some (rid, room), Some p =>
          if str_truthy (p_type p) && str_truthy (p_url p) then
            let src := mkSource (default "" (p_type p)) (default "" (p_url p))
                                (if str_truthy (p_videoId p) then p_videoId p else None) in
            let pb := fresh_playback now in
            let room' := mkRoom (id room) (hostId room) (participants room) (Some src) pb in
            (store rid room' st, [to_room (id room') (player_set_source src pb)])
          else (st, [])
      | _, _ => (st, [])
      end
  | ev_play sid at0 rate0 ts0 =>
      match hosted_room sid st with
      | None => (st, [])
      | Some (rid, room) =>
          let pb := mkPlayback playing (Num_or at0 (Fin 0%Qc)) (Num_or rate0 (Fin 1%Qc))
                               (Num_or ts0 (of_Z now)) in
          (store rid (with_playback pb room) st,
           [to_room (id room) (player_play (at_ pb) (rate pb) (ts pb))])
      end
  | ev_pause sid at0 ts0 =>
      match hosted_room sid st with
      | None => (st, [])
      | Some (rid, room) =>
          let pb := mkPlayback paused (Num_or at0 (Fin 0%Qc)) (rate (playback room))
                               (Num_or ts0 (of_Z now)) in
          (store rid (with_playback pb room) st,
           [to_room (id room) (player_pause (at_ pb) (ts pb))])
      end
  | ev_seek sid to ts0 =>
      match hosted_room sid st with
      | None => (st, [])
      | Some (rid, room) =>
          let pb := mkPlayback (status (playback room)) (Num_or to (Fin 0%Qc))
                               (rate (playback room)) (Num_or ts0 (of_Z now)) in
          (store rid (with_playback pb room) st,
           [to_room (id room) (player_seek (at_ pb) (ts pb))])
      end
  | ev_rate sid rate0 ts0 =>
      match hosted_room sid st with
      | None => (st, [])
      | Some (rid, room) =>
          let pb := mkPlayback (status (playback room)) (at_ (playback room))
                               (Num_or rate0 (Fin 1%Qc)) (Num_or ts0 (of_Z now)) in
          (store rid (with_playback pb room) st,
           [to_room (id room) (player_rate (rate pb) (ts pb))])
      end
  | sync_request sid =>
      match joined_room sid st with
      | None => (st, [])
      | Some (rid, room) =>
          (st, [to_socket sid
                  (sync_state (status (playback room)) (effectiveTime now (playback room))
                              (rate (playback room)) (of_Z now) (source room)
                              (hostId room))])
      end
  | chat sid text name0 =>
      match sockets st !! sid with
      | Some joined =>
          if str_truthy joined && str_truthy text then
            (st, [to_room (default "" joined)
                    (chat_message (slice0 1000 (default "" text)) (sor name0 "Anon")
                                  now sid)])
          else (st, [])
      | None => (st, [])
      end
  | disconnect sid =>
      match sockets st !! sid with
      | None => (st, [])
      | Some _ =>
          match joined_room sid st with
          | None => (mkServer (rooms st) (base.delete sid (sockets st)), [])
          | Some (rid, room) =>
              let room' := remove_participant sid room in
              (mkServer (<[rid := room']> (rooms st)) (base.delete sid (sockets st)),
               [ to_room (id room') (room_participants (listParticipants room'));
                 to_room (id room') (room_state (summarizeRoom room')) ])
          end
      end
  end.

(** One input of the server: an event with the clock and the random values
    its handler reads. *)
Record input : Type := mkInput {
  i_now : Z;
  i_random : nat → Qc;
  i_event : event
}.

Definition step (st : Server) (i : input) : Server :=
  (handle (i_now i) (i_random i) (i_event i) st).1.

(** The state after a sequence of inputs, from the empty registry. *)
Definition run (tr : list input) : Server := fold_left step tr init.

End Handlers.

End Push.

(* ===================================================================== *)
(** ** The polling server (the Express routes of index.js)                *)
(* ===================================================================== *)

Module Http.

(** [{ id, name, lastSeen }] *)
Record Participant : Type := mkParticipant {
  pid : string;
  name : string;
  lastSeen : Z
}.

(** The playback object of this server: [at] and [rate] are stored as the
    request body gives them. *)
Record Playback : Type := mkPlayback {
  status : Status;
  at_ : value;
  rate : value;
  ts : Z
}.

(** [{ id, text, name, userId, timestamp }] *)
Record Message : Type := mkMessage {
  m_id : string;
  text : string;
  m_name : string;
  userId : string;
  timestamp : Z
}.

Record Room : Type := mkRoom {
  id : string;
  hostId : option string;
  participants : list (string * Participant);
  source : option Source;
  playback : Playback;
  messages : list Message
}.

Record Summary : Type := mkSummary {
  s_id : string;
  s_hostId : option string;
  s_source : option Source;
  s_playback : Playback
}.

Definition summary (room : Room) : Summary :=
  mkSummary (id room) (hostId room) (source room) (playback room).

Inductive request : Type :=
  | post_join (roomId name0 : option string) (uid : string)
  | get_room (roomId : string)
  | post_source (roomId uid : string) (src : option Source)
  | post_playback (roomId uid action : string) (d_at d_to d_rate : value)
  | post_chat (roomId uid text0 : string) (name0 : option string).

Inductive response : Type :=
  | joined (room : Summary) (ps : list Participant)
  | room_view (room : Summary) (ps : list Participant) (msgs : list Message)
  | success
  | status_404
  | status_403.

Definition fresh_playback (now : Z) : Playback :=
  mkPlayback paused (JNum (Fin 0%Qc)) (JNum (Fin 1%Qc)) now.

(** [a.slice(-n)] *)
Definition slice_last {A : Type} (n : nat) (l : list A) : list A :=
  drop (length l - n) l.

(** [getOrCreateRoom(roomId)]: the room, its key and the registry afterwards. *)
Definition getOrCreateRoom (now : Z) (random : nat → Qc) (roomId : option string)
    (rs : gmap string Room) : Room * string * gmap string Room :=
  let rid := or_makeRoomId roomId random in
  match rs !! rid with
  | Some room => (room, rid, rs)
  | None =>
      let room := mkRoom rid None [] None (fresh_playback now) [] in
      (room, rid, <[rid := room]> rs)
  end.

Definition with_playback (pb : Playback) (room : Room) : Room :=
  mkRoom (id room) (hostId room) (participants room) (source room) pb (messages room).

(** The [switch (action)] of the playback route. *)
Definition apply_action (now : Z) (action : string) (d_at d_to d_rate : value)
    (room : Room) : Room :=
  let pb := playback room in
  if bool_decide (action = "play") then
    with_playback (mkPlayback playing d_at (vor d_rate (JNum (Fin 1%Qc))) now) room
  else if bool_decide (action = "pause") then
    with_playback (mkPlayback paused d_at (rate pb) now) room
  else if bool_decide (action = "seek") then
    with_playback (mkPlayback (status pb) d_to (rate pb) now) room
  else if bool_decide (action = "rate") then
    with_playback (mkPlayback (status pb) (at_ pb) d_rate now) room
  else room.

(** [room.messages.push(message)] followed by the retention rule. *)
Definition push_message (m : Message) (room : Room) : Room :=
  let ms := (messages room ++ [m])%list in
  let ms' := if bool_decide (100 < length ms)%nat then slice_last 50 ms else ms in
  mkRoom (id room) (hostId room) (participants room) (source room) (playback room) ms'.

(** One request.  [now] is the reading of [Date.now()] and [random] the
    values of [Math.random()] during it. *)
Definition handle (now : Z) (random : nat → Qc) (req : request)
    (rs : gmap string Room) : gmap string Room * response :=
  match req with
  | post_join roomId name0 uid =>
      let '(room, key, rs1) := getOrCreateRoom now random roomId rs in
      let ps := JsMap.set uid (mkParticipant uid (sor name0 "Guest") now)
                          (participants room) in
      let host := if str_truthy (hostId room) then hostId room else Some uid in
      let room' := mkRoom (id room) host ps (source room) (playback room)
                          (messages room) in
      (<[key := room']> rs1, joined (summary room') (JsMap.values ps))
  | get_room roomId =>
      match rs !! roomId with
      | None => (rs, status_404)
      | Some room =>
          (rs, room_view (summary room) (JsMap.values (participants room))
                         (slice_last 20 (messages room)))
      end
  | post_source roomId uid src =>
      match rs !! roomId with
      | None => (rs, status_404)
      | Some room =>
          if bool_decide (hostId room ≠ Some uid) then (rs, status_403)
          else
            let room' := mkRoom (id room) (hostId room) (participants room) src
                                (fresh_playback now) (messages room) in
            (<[roomId := room']> rs, success)
      end
  | post_playback roomId uid action d_at d_to d_rate =>
      match rs !! roomId with
      | None => (rs, status_404)
      | Some room =>
          if bool_decide (hostId room ≠ Some uid) then (rs, status_403)
          else (<[roomId := apply_action now action d_at d_to d_rate room]> rs, success)
      end
  | post_chat roomId uid text0 name0 =>
      match rs !! roomId with
      | None => (rs, status_404)
      | Some room =>
          let m := mkMessage (pretty now) (slice0 1000 text0) (sor name0 "Anon") uid now in
          (<[roomId := push_message m room]> rs, success)
      end
  end.

Record input : Type := mkInput {
  i_now : Z;
  i_random : nat → Qc;
  i_request : request
}.

Definition step (rs : gmap string Room) (i : input) : gmap string Room :=
  (handle (i_now i) (i_random i) (i_request i) rs).1.

(** The registry after a sequence of requests, from the empty one. *)
Definition run (tr : list input) : gmap string Room := fold_left step tr ∅.

End Http.

(** ** Predicates and sample inputs of the statements *)

(** An integer as a finite rational. *)
Definition ms (z : Z) : Qc := Q2Qc (inject_Z z).

(** Closed decidable facts are settled by evaluation. *)
Ltac by_eval := apply (bool_decide_unpack _); vm_compute; exact I.

(** The host, when there is one, is a key of [participants]. *)
Definition host_ok (room : Push.Room) : Prop :=
  ∀ h, Push.hostId room = Some h → h ∈ JsMap.keys (Push.participants room).

(** Every room is stored under its own id. *)
Definition keyed (rs : gmap string Push.Room) : Prop :=
  ∀ k room, rs !! k = Some room → Push.id room = k.

(** A socket whose [joinedRoomId] names a room is a participant of it. *)
Definition joined_ok (st : Push.Server) : Prop :=
  ∀ sid rid,
    Push.sockets st !! sid = Some (Some rid) →
    ∃ room, Push.rooms st !! rid = Some room
            ∧ sid ∈ JsMap.keys (Push.participants room).

(** The invariant of the socket server. *)
Definition sys_inv (st : Push.Server) : Prop :=
  keyed (Push.rooms st)
  ∧ map_Forall (λ _ room, host_ok room) (Push.rooms st)
  ∧ joined_ok st.

(** The stored rate is neither [0] nor [NaN]. *)
Definition rate_ok (room : Push.Room) : Prop :=
  rate (Push.playback room) ≠ NaN ∧ rate (Push.playback room) ≠ Fin 0%Qc.

(** A string-to-number conversion to run the handlers with: the unsigned
    decimal integers, every other string being [NaN]. *)
Fixpoint digits_value (acc : Z) (s : string) : option Z :=
  match s with
  | EmptyString => Some acc
  | String c r =>
      let n := nat_of_ascii c in
      if bool_decide (48 ≤ n ∧ n ≤ 57)%nat
      then digits_value (10 * acc + Z.of_nat (n - 48)) r
      else None
  end.

Definition digits_to_number (s : string) : number :=
  match digits_value 0 s with
  | Some z => of_Z z
  | None => NaN
  end.

(** The retention cap of the chat history. *)
Definition history_cap : nat := 100.

Definition history_ok (room : Http.Room) : Prop :=
  (length (Http.messages room) ≤ history_cap)%nat.

(** Concrete inputs: two sockets, then two users, in a room named by the
    caller. *)
Definition sample_random : nat → Qc := λ i, Q2Qc (Z.of_nat i # 7).

Definition push_input (e : Push.event) : Push.input :=
  Push.mkInput 5000 sample_random e.

Definition sample_push : Push.Server :=
  Push.run digits_to_number trim
    [ push_input (Push.connection "s1");
      push_input (Push.room_join "s1" (Some "X") None);
      push_input (Push.connection "s2");
      push_input (Push.room_join "s2" (Some " X ") (Some "bob")) ].

Definition sample_push_room : Push.Room :=
  Push.mkRoom "X" (Some "s1")
    [ ("s1", Push.mkParticipant "s1" "Guest"); ("s2", Push.mkParticipant "s2" "bob") ]
    None (Push.fresh_playback 5000).

Definition http_input (r : Http.request) : Http.input :=
  Http.mkInput 5000 sample_random r.

Definition sample_http : gmap string Http.Room :=
  Http.run
    [ http_input (Http.post_join (Some "X") None "u1");
      http_input (Http.post_join (Some "X") (Some "bob") "u2") ].

Definition sample_http_room : Http.Room :=
  Http.mkRoom "X" (Some "u1")
    [ ("u1", Http.mkParticipant "u1" "Guest" 5000);
      ("u2", Http.mkParticipant "u2" "bob" 5000) ]
    None (Http.fresh_playback 5000) [].

(** A text of 1001 characters. *)
Definition long_text : string := string_of_list_ascii (repeat "a"%char 1001).

(** The host invariant in the polling server. *)
Definition http_host_ok (room : Http.Room) : Prop :=
  ∀ h, Http.hostId room = Some h → h ∈ JsMap.keys (Http.participants room).

(* ===================================================================== *)
(** ** Further code of the same files                                     *)
(* ===================================================================== *)

(** [Math.floor], [Math.round], [Math.max], [Math.min] and [%] on numbers,
    and [String(x)] on the integral values the code renders. *)
Module JSMath.

Definition floor (x : number) : number :=
  match x with
  | Fin q => of_Z (Qfloor q)
  | _ => x
  end.

(** [Math.round(x)]: the integer nearest to [x], halves going up. *)
Definition round (x : number) : number := floor (nadd x (Fin (Q2Qc (1 # 2)))).

Definition max (x y : number) : number :=
  match x, y with
  | NaN, _ | _, NaN => NaN
  | _, _ => if ngt y x then y else x
  end.

Definition min (x y : number) : number :=
  match x, y with
  | NaN, _ | _, NaN => NaN
  | _, _ => if ngt x y then y else x
  end.

(** Rounding towards zero. *)
Definition truncate (q : Qc) : Z :=
  if bool_decide (q < 0)%Qc then Qceiling q else Qfloor q.

(** [x % y]: the remainder has the sign of the dividend. *)
Definition rem (x y : number) : number :=
  match x, y with
  | NaN, _ | _, NaN => NaN
  | PInf, _ | NInf, _ => NaN
  | Fin a, Fin b =>
      if bool_decide (b = 0%Qc) then NaN
      else Fin (a - b * Q2Qc (inject_Z (truncate (a / b))))%Qc
  | Fin a, _ => Fin a
  end.

(** [String(x)]; a finite [x] is rendered as the integer it is. *)
Definition toString (x : number) : string :=
  match x with
  | NaN => "NaN"
  | PInf => "Infinity"
  | NInf => "-Infinity"
  | Fin q => pretty (Qfloor q)
  end.

(** [s.padStart(2, '0')] *)
Definition padStart2 (s : string) : string :=
  String.append (string_of_list_ascii (repeat "0"%char (2 - String.length s))) s.

End JSMath.

(** Utilities of the front end (app.js). *)
Module Ui.

(** [fmtTime(s)] *)
Definition fmtTime (s : number) : string :=
  let s1 := JSMath.max (Fin 0%Qc) (JSMath.floor (nor s (Fin 0%Qc))) in
  let h := JSMath.floor (ndiv s1 (of_Z 3600)) in
  let m := JSMath.floor (ndiv (JSMath.rem s1 (of_Z 3600)) (of_Z 60)) in
  let sec := JSMath.rem s1 (of_Z 60) in
  if ngt h (Fin 0%Qc) then
    String.append (JSMath.toString h)
      (String.append ":"
         (String.append (JSMath.padStart2 (JSMath.toString m))
            (String.append ":" (JSMath.padStart2 (JSMath.toString sec)))))
  else
    String.append (JSMath.toString m)
      (String.append ":" (JSMath.padStart2 (JSMath.toString sec))).

(** The five characters [escapeHtml] replaces; the fourth is the double
    quote. *)
Definition amp : ascii := "&"%char.
Definition lt : ascii := "<"%char.
Definition gt : ascii := ">"%char.
Definition quot : ascii := "034"%char.
Definition apos : ascii := "'"%char.

Definition is_special (c : ascii) : bool :=
  bool_decide (c = amp ∨ c = lt ∨ c = gt ∨ c = quot ∨ c = apos).

Definition entity (c : ascii) : string :=
  if bool_decide (c = amp) then "&amp;"
  else if bool_decide (c = lt) then "&lt;"
  else if bool_decide (c = gt) then "&gt;"
  else if bool_decide (c = quot) then "&quot;"
  else if bool_decide (c = apos) then "&#039;"
  else String c EmptyString.

(** [escapeHtml(str)] on a string. *)
Fixpoint escapeHtml (str : string) : string :=
  match str with
  | EmptyString => EmptyString
  | String c r => String.append (entity c) (escapeHtml r)
  end.

(** The value the progress timer writes to the seek slider; [time] and
    [duration] are what [player.getTime()] and [player.getDuration()]
    return; without a positive duration the slider is set to 0. *)
Definition slider_value (time duration : number) : number :=
  let dur := nor duration (Fin 0%Qc) in
  let cur := nor time (Fin 0%Qc) in
  if ngt dur (Fin 0%Qc) then
    JSMath.max (Fin 0%Qc)
      (JSMath.min (of_Z 1000) (JSMath.floor (nmul (ndiv cur dur) (of_Z 1000))))
  else Fin 0%Qc.

(** The position the host's slider change sends with [player:seek]; [value]
    is [Number(els.seek.value)]. *)
Definition seek_position (duration value : number) : number :=
  let dur := nor duration (Fin 0%Qc) in
  nmul dur (ndiv value (of_Z 1000)).

End Ui.

(** The upload file names of server.js. *)
Module Uploads.

(** The characters the sanitiser keeps: [a-zA-Z0-9_.-]. *)
Definition kept (c : ascii) : bool :=
  let n := nat_of_ascii c in
  bool_decide ((97 ≤ n ∧ n ≤ 122) ∨ (65 ≤ n ∧ n ≤ 90) ∨ (48 ≤ n ∧ n ≤ 57)
               ∨ n = 95 ∨ n = 46 ∨ n = 45)%nat.

(** [originalname.replace(/[^a-zA-Z0-9_.-]/g, '_')] *)
Fixpoint safeName (originalname : string) : string :=
  match originalname with
  | EmptyString => EmptyString
  | String c r => String (if kept c then c else "_"%char) (safeName r)
  end.

(** The name [multer] stores the file under; [r] is the value of
    [Math.random()]. *)
Definition filename (now : Z) (r : Qc) (originalname : string) : string :=
  String.append (pretty now)
    (String.append "_"
       (String.append
          (JSMath.toString (JSMath.round (nmul (Fin r) (of_Z 1000000000))))
          (String.append "_" (safeName originalname)))).

End Uploads.

(** The polling client (the second app.js): what one poll does. *)
Module Poll.

(** [me.id], [me.isHost] and [current]. *)
Record State : Type := mkState {
  me_id : string;
  isHost : bool;
  current_source : option Source;
  current_playback : option Playback
}.

(** The [room] object of a poll response. *)
Record RoomView : Type := mkRoomView {
  hostId : option string;
  source : option Source;
  playback : Playback
}.

Inductive outcome : Type :=
  | Nothing
  | Reloaded (s : Source) (pb : Playback)
  | Unloaded
  | Applied (calls : list Client.call).

(** A number as [JSON.stringify] writes it: [null] unless it is finite. *)
Definition json_number (x : number) : option Qc :=
  match x with
  | Fin q => Some q
  | _ => None
  end.

Definition json_playback (pb : option Playback)
    : option (Status * option Qc * option Qc * option Qc) :=
  (λ p, (status p, json_number (at_ p), json_number (rate p), json_number (ts p))) <$> pb.

(** [updateSource(source, playback, { applyImmediately: true })]: the player
    is destroyed, and one for the type of the source is loaded, to which the
    playback is applied when it is ready. *)
Definition updateSource (src : option Source) (pb : Playback) : outcome :=
  match src with
  | None => Nothing
  | Some s =>
      if bool_decide (type s = "youtube") || bool_decide (type s = "video")
      then Reloaded s pb else Unloaded
  end.

(** [updateRoomState(data)], without the lists it renders. *)
Definition updateRoomState (now : Z) (cur : number) (has_player : bool)
    (st : State) (room : RoomView) : State * outcome :=
  let out :=
    if negb (bool_decide (current_source st = source room)) then
      updateSource (source room) (playback room)
    else if negb (bool_decide (json_playback (current_playback st)
                               = json_playback (Some (playback room)))) then
      Applied (Client.applyPlayback now cur has_player (Some (playback room)))
    else Nothing in
  (mkState (me_id st) (bool_decide (hostId room = Some (me_id st)))
           (source room) (Some (playback room)),
   out).

End Poll.

(** Whose event it is. *)
Definition event_sid (ev : Push.event) : string :=
  match ev with
  | Push.connection sid | Push.room_join sid _ _ | Push.room_leave sid
  | Push.role_become_host sid | Push.set_source sid _ | Push.ev_play sid _ _ _
  | Push.ev_pause sid _ _ | Push.ev_seek sid _ _ | Push.ev_rate sid _ _
  | Push.sync_request sid | Push.chat sid _ _ | Push.disconnect sid => sid
  end.

(** The room a request of the polling server names, if it names one. *)
Definition request_room (req : Http.request) : option string :=
  match req with
  | Http.post_join roomId _ _ => roomId
  | Http.get_room roomId | Http.post_source roomId _ _
  | Http.post_playback roomId _ _ _ _ _ | Http.post_chat roomId _ _ _ => Some roomId
  end.

(** The ways one handler of the socket server changes the room stored under
    [rid]: [old] is the room before ([None] when the handler creates it) and
    the last argument the room after. *)
Inductive push_change (sid : string) (now : Z) (rid : string)
    : option Push.Room → Push.Room → Prop :=
  | change_join (old : option Push.Room) (name0 : string) :
      let room := default (Push.mkRoom rid None [] None (Push.fresh_playback now)) old in
      push_change sid now rid old
        (Push.mkRoom (Push.id room)
           (if str_truthy (Push.hostId room) then Push.hostId room else Some sid)
           (JsMap.set sid (Push.mkParticipant sid name0) (Push.participants room))
           (Push.source room) (Push.playback room))
  | change_remove (room : Push.Room) :
      push_change sid now rid (Some room) (Push.remove_participant sid room)
  | change_host (room : Push.Room) :
      str_truthy (Push.hostId room) = false →
      push_change sid now rid (Some room)
        (Push.mkRoom (Push.id room) (Some sid) (Push.participants room)
           (Push.source room) (Push.playback room))
  | change_command (room : Push.Room) (src : option Source) (pb : Playback) :
      Push.hostId room = Some sid →
      push_change sid now rid (Some room)
        (Push.mkRoom (Push.id room) (Push.hostId room) (Push.participants room) src pb).

(** The same for one request of the polling server made by [uid]. *)
Inductive http_change (uid : string) (now : Z) (rid : string)
    : option Http.Room → Http.Room → Prop :=
  | http_change_join (old : option Http.Room) (name0 : string) :
      let room := default (Http.mkRoom rid None [] None (Http.fresh_playback now) []) old in
      http_change uid now rid old
        (Http.mkRoom (Http.id room)
           (if str_truthy (Http.hostId room) then Http.hostId room else Some uid)
           (JsMap.set uid (Http.mkParticipant uid name0 now) (Http.participants room))
           (Http.source room) (Http.playback room) (Http.messages room))
  | http_change_command (room : Http.Room) (src : option Source) (pb : Http.Playback) :
      Http.hostId room = Some uid →
      http_change uid now rid (Some room)
        (Http.mkRoom (Http.id room) (Http.hostId room) (Http.participants room) src pb
           (Http.messages room))
  | http_change_chat (room : Http.Room) (m : Http.Message) :
      http_change uid now rid (Some room) (Http.push_message m room).

(** Who makes a request. *)
Definition request_uid (req : Http.request) : string :=
  match req with
  | Http.post_join _ _ uid | Http.post_source _ uid _
  | Http.post_playback _ uid _ _ _ _ | Http.post_chat _ uid _ _ => uid
  | Http.get_room _ => ""
  end.

(** The entries of a participants map are well formed: no key occurs twice
    and every entry carries its key as its id. *)
Definition entries_ok {P : Type} (pid : P → string) (ps : list (string * P)) : Prop :=
  NoDup (JsMap.keys ps) ∧ ∀ k p, (k, p) ∈ ps → pid p = k.

(** The socket has no room: it is unknown, or its [joinedRoomId] is [null]
    or empty. *)
Definition not_in_room (sid : string) (st : Push.Server) : Prop :=
  match Push.sockets st !! sid with
  | Some j => str_truthy j = false
  | None => True
  end.

(** The events a handler reads [joinedRoomId] for before doing anything. *)
Definition room_event (ev : Push.event) : bool :=
  match ev with
  | Push.connection _ | Push.room_join _ _ _ | Push.disconnect _ => false
  | _ => true
  end.

(** No participant has the empty id, and a room with a participant has a
    host whose id is not empty. *)
Definition host_present (room : Push.Room) : Prop :=
  ("" ∉ JsMap.keys (Push.participants room))
  ∧ (Push.participants room ≠ [] → str_truthy (Push.hostId room) = true).

(** The stored position and time stamp are numbers. *)
Definition playback_ok (room : Push.Room) : Prop :=
  at_ (Push.playback room) ≠ NaN ∧ ts (Push.playback room) ≠ NaN.

(** A time label computed on integers: [n] whole seconds as [h:mm:ss], or
    as [m:ss] below one hour. *)
Definition two_digits (k : Z) : string := JSMath.padStart2 (pretty k).

Definition clock_label (n : Z) : string :=
  let h := (n / 3600)%Z in
  let m := ((n mod 3600) / 60)%Z in
  let sec := (n mod 60)%Z in
  if bool_decide (0 < h)%Z then
    String.append (pretty h)
      (String.append ":" (String.append (two_digits m) (String.append ":" (two_digits sec))))
  else String.append (pretty m) (String.append ":" (two_digits sec)).

(** The characters of a decimal rendering of an integer. *)
Definition digit_or_dash (c : ascii) : bool :=
  let n := nat_of_ascii c in bool_decide ((48 ≤ n ∧ n ≤ 57) ∨ n = 45)%nat.

(** The events that lead to [sample_push], and a state of the polling
    client. *)
Definition sample_trace : list Push.input :=
  [ push_input (Push.connection "s1");
    push_input (Push.room_join "s1" (Some "X") None);
    push_input (Push.connection "s2");
    push_input (Push.room_join "s2" (Some " X ") (Some "bob")) ].

Definition sample_poll_state : Poll.State :=
  Poll.mkState "u2" false None None.

Definition sample_view : Poll.RoomView :=
  Poll.mkRoomView (Some "u1")
    (Some (mkSource "youtube" "https://www.youtube.com/watch?v=abc123" (Some "abc123")))
    (mkPlayback playing (Fin 0%Qc) (Fin 1%Qc) (of_Z 5000)).

Local Open Scope list_scope.

(* ===================================================================== *)
(** * Properties                                                          *)
(* ===================================================================== *)

(** ** Numbers *)

Lemma ms_1000_nonzero : ms 1000 ≠ 0%Qc.
Proof. by_eval. Qed.

Lemma ndiv_thousand (x : Qc) : ndiv (Fin x) thousand = Fin (x / ms 1000)%Qc.
Proof.
  unfold ndiv, thousand, of_Z. fold (ms 1000).
  rewrite bool_decide_eq_false_2; [reflexivity | apply ms_1000_nonzero].
Qed.

Lemma nor_truthy (x d : number) : num_truthy x = true → nor x d = x.
Proof. unfold nor. intros ->. reflexivity. Qed.

Lemma nor_falsy (x d : number) : num_truthy x = false → nor x d = d.
Proof. unfold nor. intros ->. reflexivity. Qed.

Lemma num_truthy_Fin (q : Qc) : q ≠ 0%Qc → num_truthy (Fin q) = true.
Proof. intros H. simpl. by apply bool_decide_eq_true_2. Qed.

Lemma num_truthy_spec (x : number) :
  num_truthy x = true ↔ x ≠ NaN ∧ x ≠ Fin 0%Qc.
Proof.
  destruct x as [| | |q]; simpl; try (split; [intros; split|]; (done || (intros []; done))).
  rewrite bool_decide_eq_true. split.
  - intros H. split; [done|]. intros [= ->]. done.
  - intros [_ H] ->. done.
Qed.

Lemma nor_default_truthy (x d : number) : num_truthy d = true → num_truthy (nor x d) = true.
Proof. unfold nor. destruct (num_truthy x) eqn:E; auto. Qed.

(** ** The playback clock *)

Lemma compensated_Fin (now : Z) (a t : Qc) :
  Client.compensated now (Fin a) (Fin t) = Fin (a + (ms now - t) / ms 1000)%Qc.
Proof.
  unfold Client.compensated, nsub, of_Z. fold (ms now). cbn [nneg nadd].
  rewrite ndiv_thousand. reflexivity.
Qed.

(** ** The client reconciler *)

Lemma Fin_inj (a b : Qc) : Fin a = Fin b → a = b.
Proof.
  intros H. exact (f_equal (λ x, match x with Fin q => q | _ => a end) H).
Qed.

Lemma spec_target_Fin (now : Z) (a t : Qc) (r : number) :
  Client.spec_target now (mkPlayback playing (Fin a) r (Fin t))
  = nadd (Fin a) (nmul (Fin ((ms now - t) / ms 1000)%Qc) r).
Proof.
  unfold Client.spec_target, nsub, of_Z. fold (ms now).
  cbn [status at_ rate ts nneg nadd]. by rewrite ndiv_thousand.
Qed.

(** Scaling the latency by [q] changes nothing exactly when [q] is 1 or the
    latency is zero. *)
Lemma scaled_latency_eq (n t a q : Qc) :
  (a + (n - t) / ms 1000 * q = a + (n - t) / ms 1000)%Qc ↔ q = 1%Qc ∨ n = t.
Proof.
  split.
  - intros H.
    assert (((n - t) * (q - 1))%Qc = 0%Qc) as H0.
    { transitivity ((a + (n - t) / ms 1000 * q - (a + (n - t) / ms 1000)) * ms 1000)%Qc.
      - field. apply ms_1000_nonzero.
      - rewrite H. ring. }
    apply Qcmult_integral in H0 as [H0|H0].
    + right. rewrite <- (Qcplus_0_l t), <- H0. ring.
    + left. rewrite <- (Qcplus_0_l 1%Qc), <- H0. ring.
  - intros [-> | ->].
    + by rewrite Qcmult_1_r.
    + f_equal. field. apply ms_1000_nonzero.
Qed.

(** C1, as the code has it.  For a playing snapshot the reconciler seeks to
    [at + (now - ts) / 1000]: the latency is added unscaled, whatever the
    rate, when a playback state is applied, on a periodic [sync:state] and
    in the [player:play] and [player:seek] listeners.  This is the
    specification's target, in which the latency is scaled by the rate,
    exactly when the rate is 1, or when the rate is finite and no time has
    passed since [ts]. *)
Theorem reconciler_target_is_unscaled (now : Z) (cur r : number) (a t : Qc)
    (src : option Source) :
  let pb := mkPlayback playing (Fin a) r (Fin t) in
  let target := Fin (a + (ms now - t) / ms 1000)%Qc in
  Client.applyPlayback now cur true (Some pb)
  = ([Client.setRate (nor r Client.one)]
     ++ (if ngt (nabs (nsub cur target)) Client.threshold_apply
         then [Client.seek target] else [])
     ++ [Client.play])
  ∧ Client.on_sync_state now cur false true src src pb
    = Client.Calls ((if ngt (nabs (nsub cur target)) Client.threshold_sync
                     then [Client.seek target; Client.play] else [Client.play])
                    ++ [Client.setRate (nor r Client.one)])
  ∧ Client.on_player_play now cur true (Fin a) r (Fin t)
    = Client.applyPlayback now cur true (Some pb)
  ∧ Client.on_player_seek now true (Fin a) (Fin t) = [Client.seek target]
  ∧ Client.spec_target now (mkPlayback playing (Fin a) (Fin 1%Qc) (Fin t)) = target
  ∧ (∀ r' : number,
        Client.spec_target now (mkPlayback playing (Fin a) r' (Fin t)) = target
        ↔ ∃ q : Qc, r' = Fin q ∧ (q = 1%Qc ∨ ms now = t)).
Proof.
  intros pb target. split; [|split; [|split; [|split; [|split]]]].
  - unfold Client.applyPlayback, pb. cbn [status at_ rate ts].
    rewrite compensated_Fin. reflexivity.
  - unfold Client.on_sync_state, pb. cbn [status at_ rate ts orb negb].
    rewrite compensated_Fin.
    destruct src as [s|]; [rewrite bool_decide_eq_true_2 by reflexivity|]; reflexivity.
  - reflexivity.
  - unfold Client.on_player_seek. by rewrite compensated_Fin.
  - unfold Client.spec_target, target, nsub, of_Z. fold (ms now).
    cbn [status at_ rate ts nneg nadd]. rewrite ndiv_thousand. cbn [nmul nadd].
    rewrite Qcmult_1_r. reflexivity.
  - intros r'. rewrite spec_target_Fin. unfold target.
    destruct r' as [| | |q].
    + split; [done|]. by intros (q & ? & _).
    + split; [|by intros (q & ? & _)].
      cbn [nmul nsign cmul]. by destruct (_ ?= _)%Qc.
    + split; [|by intros (q & ? & _)].
      cbn [nmul nsign cmul]. by destruct (_ ?= _)%Qc.
    + cbn [nmul nadd]. split.
      * intros H. apply Fin_inj in H. exists q. split; [done|].
        by apply scaled_latency_eq in H.
      * intros (q' & Hq & H). apply Fin_inj in Hq. subst q'. f_equal.
        by apply scaled_latency_eq.
Qed.

(** C1, as the specification words it, fails: at twice the normal rate, one
    second after [ts], the reconciler seeks to 1 and not to 2. *)
Lemma reconciler_target_not_rate_scaled :
  let pb := mkPlayback playing (Fin 0%Qc) (Fin (ms 2)) (Fin 0%Qc) in
  Client.applyPlayback 1000 (Fin 0%Qc) true (Some pb)
  = [Client.setRate (Fin (ms 2)); Client.seek (Fin (ms 1)); Client.play]
  ∧ Client.spec_target 1000 pb = Fin (ms 2)
  ∧ Client.seek (Client.spec_target 1000 pb)
    ∉ Client.applyPlayback 1000 (Fin 0%Qc) true (Some pb).
Proof. repeat split; by_eval. Qed.

(** ** Insertion-ordered maps *)

Section JsMapFacts.
Context {V : Type}.
Implicit Types (m : list (string * V)) (k x : string) (v : V).

Lemma keys_set_elem m k v x :
  x ∈ JsMap.keys (JsMap.set k v m) ↔ x = k ∨ x ∈ JsMap.keys m.
Proof.
  unfold JsMap.keys. induction m as [|[k' v'] r IH]; simpl.
  - rewrite list_elem_of_singleton, elem_of_nil. tauto.
  - case_bool_decide as Hk; simpl in *; rewrite !elem_of_cons.
    + subst k'. tauto.
    + rewrite IH. tauto.
Qed.

Lemma keys_set_present m k v :
  k ∈ JsMap.keys m → JsMap.keys (JsMap.set k v m) = JsMap.keys m.
Proof.
  unfold JsMap.keys. induction m as [|[k' v'] r IH]; simpl; intros Hin.
  - by apply elem_of_nil in Hin.
  - case_bool_decide as Hk; simpl in *; [by subst k'|].
    f_equal. apply IH. apply elem_of_cons in Hin as [->|Hin]; done.
Qed.

Lemma length_set_present m k v :
  k ∈ JsMap.keys m → length (JsMap.set k v m) = length m.
Proof.
  unfold JsMap.keys. induction m as [|[k' v'] r IH]; simpl; intros Hin.
  - by apply elem_of_nil in Hin.
  - case_bool_decide as Hk; simpl in *; [done|].
    f_equal. apply IH. apply elem_of_cons in Hin as [->|Hin]; done.
Qed.

Lemma get_set m k v : JsMap.get k (JsMap.set k v m) = Some v.
Proof.
  unfold JsMap.get. induction m as [|[k' v'] r IH]; simpl.
  - by rewrite bool_decide_eq_true_2.
  - case_bool_decide as Hk; simpl in *.
    + by rewrite bool_decide_eq_true_2.
    + by rewrite bool_decide_eq_false_2.
Qed.

Lemma get_set_ne m k v x : x ≠ k → JsMap.get x (JsMap.set k v m) = JsMap.get x m.
Proof.
  intros Hx. unfold JsMap.get. induction m as [|[k' v'] r IH]; simpl.
  - by rewrite bool_decide_eq_false_2.
  - case_bool_decide as Hk; simpl in *.
    + subst k'. by rewrite !bool_decide_eq_false_2.
    + case_bool_decide; [done|]. apply IH.
Qed.

Lemma set_set m k v w : JsMap.set k w (JsMap.set k v m) = JsMap.set k w m.
Proof.
  induction m as [|[k' v'] r IH]; simpl.
  - by rewrite bool_decide_eq_true_2.
  - case_bool_decide as Hk; simpl.
    + by rewrite bool_decide_eq_true_2.
    + rewrite bool_decide_eq_false_2 by done. by rewrite IH.
Qed.

Lemma keys_set_NoDup m k v :
  NoDup (JsMap.keys m) → NoDup (JsMap.keys (JsMap.set k v m)).
Proof.
  unfold JsMap.keys. induction m as [|[k' v'] r IH]; simpl; intros Hnd.
  - apply NoDup_singleton.
  - apply NoDup_cons in Hnd as [Hni Hnd].
    case_bool_decide as Hk; simpl in *; apply NoDup_cons.
    + subst k'. by split.
    + split; [|by apply IH].
      intros Hin. apply (keys_set_elem r k v k') in Hin as [->|Hin]; done.
Qed.

Lemma keys_delete_elem m k x :
  x ∈ JsMap.keys (JsMap.delete k m) ↔ x ≠ k ∧ x ∈ JsMap.keys m.
Proof.
  unfold JsMap.keys, JsMap.delete. induction m as [|[k' v'] r IH]; simpl.
  - rewrite elem_of_nil. tauto.
  - case_bool_decide as Hk; simpl in *; rewrite ?elem_of_cons, IH.
    + subst k'. split; [tauto|]. intros [Hne [->|Hin]]; [done|tauto].
    + split; [|tauto]. intros [->|[Hne Hin]]; [|tauto]. split; [done|by left].
Qed.

Lemma keys_delete_NoDup m k :
  NoDup (JsMap.keys m) → NoDup (JsMap.keys (JsMap.delete k m)).
Proof.
  unfold JsMap.keys, JsMap.delete. induction m as [|[k' v'] r IH]; simpl; intros Hnd.
  - apply NoDup_nil_2.
  - apply NoDup_cons in Hnd as [Hni Hnd].
    case_bool_decide as Hk; simpl in *; [by apply IH|].
    apply NoDup_cons. split; [|by apply IH].
    intros Hin. apply (keys_delete_elem r k k') in Hin as [_ Hin]. done.
Qed.

Lemma first_key_elem m k : JsMap.first_key m = Some k → k ∈ JsMap.keys m.
Proof.
  unfold JsMap.first_key. destruct (JsMap.keys m) eqn:E; simpl; [done|].
  intros [= ->]. by left.
Qed.
End JsMapFacts.

(** ** Room ids *)

Lemma pick_nonempty (r : Qc) : pick r ≠ "".
Proof. unfold pick. by destruct (char_at _ _). Qed.

Lemma makeRoomId_loop_nonempty n i random (acc : string) :
  acc ≠ "" → makeRoomId_loop n i random acc ≠ "".
Proof.
  revert i acc. induction n as [|n IH]; intros i acc Hacc; simpl; [done|].
  apply IH. destruct acc; [done|]. discriminate.
Qed.

Lemma makeRoomId_nonempty random : makeRoomId random ≠ "".
Proof.
  unfold makeRoomId.
  change (makeRoomId_loop 5 1 random (pick (random 0%nat)) ≠ "").
  apply makeRoomId_loop_nonempty, pick_nonempty.
Qed.

Lemma str_truthy_Some (s : string) : str_truthy (Some s) = true ↔ s ≠ "".
Proof. simpl. rewrite negb_true_iff, bool_decide_eq_false. done. Qed.

Lemma or_makeRoomId_nonempty s random : or_makeRoomId s random ≠ "".
Proof.
  unfold or_makeRoomId. destruct (str_truthy s) eqn:E.
  - destruct s as [t|]; [|done]. by apply str_truthy_Some.
  - apply makeRoomId_nonempty.
Qed.

Lemma or_makeRoomId_given (s : string) random :
  s ≠ "" → or_makeRoomId (Some s) random = s.
Proof.
  intros H. unfold or_makeRoomId. apply str_truthy_Some in H. by rewrite H.
Qed.

(** ** The socket server: the invariant *)

Lemma joined_room_Some sid st rid room :
  Push.joined_room sid st = Some (rid, room) →
  Push.sockets st !! sid = Some (Some rid) ∧ Push.rooms st !! rid = Some room.
Proof.
  unfold Push.joined_room. destruct (Push.sockets st !! sid) as [[j|]|]; try done.
  case_bool_decide; [done|].
  destruct (Push.rooms st !! j) eqn:E; simpl; [|done]. by intros [= <- <-].
Qed.

Lemma hosted_room_Some sid st rid room :
  Push.hosted_room sid st = Some (rid, room) →
  Push.joined_room sid st = Some (rid, room) ∧ Push.hostId room = Some sid.
Proof.
  unfold Push.hosted_room. destruct (Push.joined_room sid st) as [[r ro]|]; [|done].
  case_bool_decide; [|done]. by intros [= <- <-].
Qed.

Lemma getOrCreateRoom_cases now random rid rs room key rs' :
  rid ≠ "" →
  Push.getOrCreateRoom now random rid rs = (room, key, rs') →
  key = rid ∧
  ((rs !! rid = Some room ∧ rs' = rs)
   ∨ (rs !! rid = None ∧ rs' = <[rid := room]> rs
      ∧ room = Push.mkRoom rid None [] None (Push.fresh_playback now))).
Proof.
  intros Hrid. unfold Push.getOrCreateRoom.
  destruct (rs !! rid) as [r|] eqn:E.
  - intros [= <- <- <-]. auto.
  - rewrite (or_makeRoomId_given rid random Hrid). simpl.
    intros [= <- <- <-]. auto.
Qed.

Lemma remove_participant_host_ok sid room :
  host_ok room → host_ok (Push.remove_participant sid room).
Proof.
  intros Hok h. unfold Push.remove_participant. simpl.
  case_bool_decide as Hh.
  - apply first_key_elem.
  - intros Hhost. apply keys_delete_elem. split; [congruence|by apply Hok].
Qed.

Section PushInvariant.
Variable StringToNumber : string → number.
Variable trim : string → string.

Lemma sys_inv_init : sys_inv Push.init.
Proof.
  split; [|split].
  - intros k r. simpl. by rewrite lookup_empty.
  - apply map_Forall_empty.
  - intros sid rid. simpl. by rewrite lookup_empty.
Qed.

(** The general step: one room is replaced and the closures change. *)
Lemma sys_inv_replace st rid room' socks :
  sys_inv st →
  Push.id room' = rid → host_ok room' →
  (∀ s r, socks !! s = Some (Some r) →
     (r = rid ∧ s ∈ JsMap.keys (Push.participants room'))
     ∨ (r ≠ rid ∧ Push.sockets st !! s = Some (Some r))) →
  sys_inv (Push.mkServer (<[rid := room']> (Push.rooms st)) socks).
Proof.
  intros (Hk & Hh & Hj) Hid Hok Hs. split; [|split]; simpl.
  - intros k r. rewrite lookup_insert. case_decide; simplify_eq.
    + by intros [= <-].
    + apply Hk.
  - by apply map_Forall_insert_2.
  - intros s r Hso. apply Hs in Hso as [[-> Hin]|[Hne Hso]].
    + exists room'. simpl. by rewrite lookup_insert_eq.
    + simpl. rewrite lookup_insert_ne by done. by apply Hj.
Qed.

(** A room replaced by one with the same id, host and participants. *)
Lemma sys_inv_store st rid room room' :
  sys_inv st → Push.rooms st !! rid = Some room →
  Push.id room' = Push.id room → Push.hostId room' = Push.hostId room →
  Push.participants room' = Push.participants room →
  sys_inv (Push.store rid room' st).
Proof.
  intros Hinv Hr Hid Hhost Hps. pose proof Hinv as (Hk & Hh & Hj).
  apply sys_inv_replace; [done| | |].
  - rewrite Hid. by apply Hk.
  - intros h. rewrite Hhost, Hps. by apply (Hh rid room).
  - intros s r Hs. destruct (decide (r = rid)) as [->|Hne]; [left|by right].
    split; [done|]. destruct (Hj _ _ Hs) as (ro & Hro & Hin).
    rewrite Hps. congruence.
Qed.

Lemma sys_inv_remove st sid rid room socks :
  sys_inv st → Push.rooms st !! rid = Some room →
  (∀ s r, socks !! s = Some (Some r) → s ≠ sid ∧ Push.sockets st !! s = Some (Some r)) →
  sys_inv (Push.mkServer (<[rid := Push.remove_participant sid room]> (Push.rooms st)) socks).
Proof.
  intros Hinv Hr Hs. pose proof Hinv as (Hk & Hh & Hj).
  apply sys_inv_replace; [done| | |].
  - simpl. by apply Hk.
  - apply remove_participant_host_ok. by apply (Hh rid room).
  - intros s r Hso. apply Hs in Hso as [Hne Hso].
    destruct (decide (r = rid)) as [->|Hne']; [left|by right].
    split; [done|]. destruct (Hj _ _ Hso) as (ro & Hro & Hin).
    simpl. apply keys_delete_elem. split; [done|]. congruence.
Qed.

Lemma sys_inv_handle now random ev st :
  sys_inv st → sys_inv (Push.handle StringToNumber trim now random ev st).1.
Proof.
  intros Hinv. pose proof Hinv as (Hk & Hh & Hj).
  destruct ev as [sid|sid roomId name0|sid|sid|sid payload|sid a r t|sid a t
                 |sid a t|sid r t|sid|sid text name0|sid]; simpl.
  - (* connection *)
    destruct (Push.sockets st !! sid) eqn:E; [done|]. simpl.
    split; [|split]; simpl; [done|done|].
    intros s r. simpl. rewrite lookup_insert. case_decide; simplify_eq; [done|]. apply Hj.
  - (* room:join *)
    destruct (Push.sockets st !! sid) eqn:E; [|done].
    set (given := trim <$> _).
    set (rid := or_makeRoomId given random).
    set (random' := if str_truthy given then _ else _).
    destruct (Push.getOrCreateRoom now random' rid (Push.rooms st))
      as [[room key] rs] eqn:G.
    apply getOrCreateRoom_cases in G as [-> Hcase];
      [|apply or_makeRoomId_nonempty].
    simpl.
    assert (Push.id room = rid ∧ host_ok room
            ∧ <[rid := room]> rs = <[rid := room]> (Push.rooms st)
            ∧ (∀ s, Push.sockets st !! s = Some (Some rid) →
                    s ∈ JsMap.keys (Push.participants room)))
      as (Hid & Hok & Hrs & Hmem).
    { destruct Hcase as [[Hr ->]|(Hr & -> & ->)].
      - split; [by apply Hk|]. split; [by apply (Hh rid room)|].
        split; [done|]. intros s Hs.
        destruct (Hj _ _ Hs) as (ro & Hro & Hin). congruence.
      - split; [done|]. split; [by intros h|].
        split; [by rewrite insert_insert_eq|].
        intros s Hs. destruct (Hj _ _ Hs) as (ro & Hro & Hin). congruence. }
    match goal with |- sys_inv (Push.mkServer (<[rid := ?r']> rs) ?so) =>
      set (room' := r'); set (socks := so) end.
    assert (<[rid := room']> rs = <[rid := room']> (Push.rooms st)) as ->.
    { rewrite <- (insert_insert_eq rs rid room' room), Hrs.
      by rewrite insert_insert_eq. }
    apply sys_inv_replace; [done|done| |].
    + intros h. subst room'. simpl. intros Hhost. apply keys_set_elem.
      destruct (str_truthy (Push.hostId room)); [right; by apply Hok|left; congruence].
    + intros s r. subst socks room'. simpl.
      destruct (decide (sid = s)) as [<-|Hsid].
      * rewrite lookup_insert_eq, Hid. intros [= <-]. left.
        split; [done|]. apply keys_set_elem. by left.
      * rewrite lookup_insert_ne by done.
        intros Hs. destruct (decide (r = rid)) as [->|Hne]; [left|by right].
        split; [done|]. apply keys_set_elem. right. by apply Hmem.
  - (* room:leave *)
    destruct (Push.joined_room sid st) as [[rid room]|] eqn:J; [|done]. simpl.
    apply joined_room_Some in J as [Hs Hr].
    apply sys_inv_remove; [done|done|].
    intros s r. rewrite lookup_insert. case_decide; simplify_eq; [done|]. done.
  - (* role:become-host *)
    destruct (Push.joined_room sid st) as [[rid room]|] eqn:J; [|done].
    destruct (str_truthy (Push.hostId room)); [done|]. simpl.
    apply joined_room_Some in J as [Hs Hr].
    apply sys_inv_replace; [done| | |].
    + simpl. by apply Hk.
    + intros h. simpl. intros [= <-].
      destruct (Hj _ _ Hs) as (ro & Hro & Hin). congruence.
    + intros s r Hso. destruct (decide (r = rid)) as [->|Hne]; [left|by right].
      split; [done|]. simpl. destruct (Hj _ _ Hso) as (ro & Hro & Hin). congruence.
  - (* player:set-source *)
    destruct (Push.hosted_room sid st) as [[rid room]|] eqn:J; [|done].
    destruct payload as [p|]; [|done].
    destruct (str_truthy (Push.p_type p) && str_truthy (Push.p_url p)); [|done].
    simpl. apply hosted_room_Some in J as [J _].
    apply joined_room_Some in J as [_ Hr]. by eapply sys_inv_store.
  - destruct (Push.hosted_room sid st) as [[rid room]|] eqn:J; [|done].
    simpl. apply hosted_room_Some in J as [J _].
    apply joined_room_Some in J as [_ Hr]. by eapply sys_inv_store.
  - destruct (Push.hosted_room sid st) as [[rid room]|] eqn:J; [|done].
    simpl. apply hosted_room_Some in J as [J _].
    apply joined_room_Some in J as [_ Hr]. by eapply sys_inv_store.
  - destruct (Push.hosted_room sid st) as [[rid room]|] eqn:J; [|done].
    simpl. apply hosted_room_Some in J as [J _].
    apply joined_room_Some in J as [_ Hr]. by eapply sys_inv_store.
  - destruct (Push.hosted_room sid st) as [[rid room]|] eqn:J; [|done].
    simpl. apply hosted_room_Some in J as [J _].
    apply joined_room_Some in J as [_ Hr]. by eapply sys_inv_store.
  - (* sync:request *)
    by destruct (Push.joined_room sid st) as [[rid room]|].
  - (* chat:message *)
    destruct (Push.sockets st !! sid) as [j|]; [|done].
    by destruct (str_truthy j && str_truthy text).
  - (* disconnect *)
    destruct (Push.sockets st !! sid) as [j|] eqn:E; [|done].
    destruct (Push.joined_room sid st) as [[rid room]|] eqn:J; simpl.
    + apply joined_room_Some in J as [Hs Hr].
      apply sys_inv_remove; [done|done|].
      intros s r. rewrite lookup_delete. case_decide; simplify_eq; done.
    + split; [|split]; simpl; [done|done|].
      intros s r. simpl. rewrite lookup_delete. case_decide; simplify_eq; [done|]. apply Hj.
Qed.

Lemma sys_inv_steps tr st :
  sys_inv st → sys_inv (fold_left (Push.step StringToNumber trim) tr st).
Proof.
  revert st. induction tr as [|i tr IH]; intros st Hinv; simpl; [done|].
  apply IH. by apply sys_inv_handle.
Qed.

Lemma sys_inv_run tr : sys_inv (Push.run StringToNumber trim tr).
Proof. apply sys_inv_steps, sys_inv_init. Qed.

End PushInvariant.

(** ** The socket server: commands *)

Section PushCommands.
Variable StringToNumber : string → number.
Variable trim : string → string.
Abbreviation handle := (Push.handle StringToNumber trim).
Abbreviation run := (Push.run StringToNumber trim).
Abbreviation Num_or := (Number_or StringToNumber).

Lemma hosted_room_None sid st :
  (∀ rid room, Push.joined_room sid st = Some (rid, room) → Push.hostId room ≠ Some sid) →
  Push.hosted_room sid st = None.
Proof.
  intros H. unfold Push.hosted_room.
  destruct (Push.joined_room sid st) as [[rid room]|]; [|done].
  rewrite bool_decide_eq_false_2; [done|]. by eapply H.
Qed.

Lemma rate_ok_iff room : rate_ok room ↔ num_truthy (rate (Push.playback room)) = true.
Proof. unfold rate_ok. by rewrite num_truthy_spec. Qed.

Lemma Number_or_falsy v d :
  Number StringToNumber v = NaN ∨ Number StringToNumber v = Fin 0%Qc → Num_or v d = d.
Proof.
  intros H. unfold Number_or. apply nor_falsy.
  destruct (num_truthy _) eqn:E; [|done].
  apply num_truthy_spec in E as [? ?]. by destruct H.
Qed.

Lemma Number_or_truthy v d :
  Number StringToNumber v ≠ NaN → Number StringToNumber v ≠ Fin 0%Qc →
  Num_or v d = Number StringToNumber v.
Proof.
  intros H1 H2. unfold Number_or. apply nor_truthy. by apply num_truthy_spec.
Qed.

Lemma rate_inv_handle now random ev st :
  map_Forall (λ _ room, rate_ok room) (Push.rooms st) →
  map_Forall (λ _ room, rate_ok room) (Push.rooms (handle now random ev st).1).
Proof.
  intros Hinv.
  assert (∀ sid rid room, Push.hosted_room sid st = Some (rid, room) → rate_ok room)
    as Hhosted.
  { intros sid rid room J. apply hosted_room_Some in J as [J _].
    apply joined_room_Some in J as [_ Hr]. by apply (Hinv rid room). }
  assert (∀ sid rid room, Push.joined_room sid st = Some (rid, room) → rate_ok room)
    as Hjoined.
  { intros sid rid room J. apply joined_room_Some in J as [_ Hr].
    by apply (Hinv rid room). }
  assert (∀ v, num_truthy (Num_or v (Fin 1%Qc)) = true) as Hone.
  { intros v. by apply nor_default_truthy. }
  destruct ev as [sid|sid roomId name0|sid|sid|sid payload|sid a r t|sid a t
                 |sid a t|sid r t|sid|sid text name0|sid]; simpl.
  - by destruct (Push.sockets st !! sid).
  - destruct (Push.sockets st !! sid) eqn:E; [|done].
    set (given := trim <$> _).
    set (rid := or_makeRoomId given random).
    set (random' := if str_truthy given then _ else _).
    destruct (Push.getOrCreateRoom now random' rid (Push.rooms st))
      as [[room key] rs] eqn:G.
    apply getOrCreateRoom_cases in G as [-> Hcase];
      [|apply or_makeRoomId_nonempty].
    simpl. destruct Hcase as [[Hr ->]|(Hr & -> & ->)].
    + apply map_Forall_insert_2; [|done]. by apply (Hinv rid room).
    + rewrite insert_insert_eq. apply map_Forall_insert_2; [|done].
      apply rate_ok_iff. reflexivity.
  - destruct (Push.joined_room sid st) as [[rid room]|] eqn:J; [|done]. simpl.
    apply map_Forall_insert_2; [|done]. exact (Hjoined sid rid room J).
  - destruct (Push.joined_room sid st) as [[rid room]|] eqn:J; [|done].
    destruct (str_truthy (Push.hostId room)); [done|]. simpl.
    apply map_Forall_insert_2; [|done]. exact (Hjoined sid rid room J).
  - destruct (Push.hosted_room sid st) as [[rid room]|] eqn:J; [|done].
    destruct payload as [p|]; [|done].
    destruct (str_truthy (Push.p_type p) && str_truthy (Push.p_url p)); [|done].
    simpl. apply map_Forall_insert_2; [|done]. apply rate_ok_iff. reflexivity.
  - destruct (Push.hosted_room sid st) as [[rid room]|] eqn:J; [|done]. simpl.
    apply map_Forall_insert_2; [|done]. apply rate_ok_iff. simpl. apply Hone.
  - destruct (Push.hosted_room sid st) as [[rid room]|] eqn:J; [|done]. simpl.
    apply map_Forall_insert_2; [|done]. exact (Hhosted sid rid room J).
  - destruct (Push.hosted_room sid st) as [[rid room]|] eqn:J; [|done]. simpl.
    apply map_Forall_insert_2; [|done]. exact (Hhosted sid rid room J).
  - destruct (Push.hosted_room sid st) as [[rid room]|] eqn:J; [|done]. simpl.
    apply map_Forall_insert_2; [|done]. apply rate_ok_iff. simpl. apply Hone.
  - by destruct (Push.joined_room sid st) as [[rid room]|].
  - destruct (Push.sockets st !! sid) as [j|]; [|done].
    by destruct (str_truthy j && str_truthy text).
  - destruct (Push.sockets st !! sid) as [j|] eqn:E; [|done].
    destruct (Push.joined_room sid st) as [[rid room]|] eqn:J; simpl; [|done].
    apply map_Forall_insert_2; [|done]. exact (Hjoined sid rid room J).
Qed.

Lemma rate_inv_run tr : map_Forall (λ _ room, rate_ok room) (Push.rooms (run tr)).
Proof.
  unfold Push.run.
  assert (∀ st, map_Forall (λ _ room, rate_ok room) (Push.rooms st) →
                map_Forall (λ _ room, rate_ok room)
                  (Push.rooms (fold_left (Push.step StringToNumber trim) tr st))) as H.
  { induction tr as [|i tr IH]; intros st Hst; simpl; [done|].
    apply IH. by apply rate_inv_handle. }
  apply H. apply map_Forall_empty.
Qed.

(** What the four playback commands of the host store. *)
Lemma host_command_stored now random st sid rid room :
  Push.hosted_room sid st = Some (rid, room) →
  let old := Push.playback room in
  let stamp t := Num_or t (of_Z now) in
  (∀ a r t, Push.rooms (handle now random (Push.ev_play sid a r t) st).1 !! rid
            = Some (Push.with_playback
                      (mkPlayback playing (Num_or a (Fin 0%Qc)) (Num_or r (Fin 1%Qc))
                                  (stamp t)) room))
  ∧ (∀ a t, Push.rooms (handle now random (Push.ev_pause sid a t) st).1 !! rid
            = Some (Push.with_playback
                      (mkPlayback paused (Num_or a (Fin 0%Qc)) (rate old) (stamp t)) room))
  ∧ (∀ a t, Push.rooms (handle now random (Push.ev_seek sid a t) st).1 !! rid
            = Some (Push.with_playback
                      (mkPlayback (status old) (Num_or a (Fin 0%Qc)) (rate old) (stamp t))
                      room))
  ∧ (∀ r t, Push.rooms (handle now random (Push.ev_rate sid r t) st).1 !! rid
            = Some (Push.with_playback
                      (mkPlayback (status old) (at_ old) (Num_or r (Fin 1%Qc)) (stamp t))
                      room)).
Proof.
  intros H old stamp.
  repeat split; intros; simpl; rewrite H; simpl; by rewrite lookup_insert_eq.
Qed.

End PushCommands.

(** ** Strings and lists *)

Lemma substring_0_length (n : nat) (s : string) :
  String.length (String.substring 0 n s) = Nat.min n (String.length s).
Proof.
  revert s. induction n as [|n IH]; intros [|c s]; simpl; try reflexivity.
  by rewrite IH.
Qed.

Lemma substring_0_prefix (n : nat) (s : string) :
  ∃ rest, s = String.append (String.substring 0 n s) rest.
Proof.
  revert s. induction n as [|n IH]; intros [|c s]; simpl.
  - by exists "".
  - by exists (String c s).
  - by exists "".
  - destruct (IH s) as [rest Hrest]. exists rest.
    change (String c s = String c (String.append (String.substring 0 n s) rest)).
    by rewrite <- Hrest.
Qed.

Lemma slice0_long (n : nat) (s : string) :
  (n < String.length s)%nat →
  String.length (slice0 n s) = n ∧ ∃ rest, s = String.append (slice0 n s) rest.
Proof.
  intros H. unfold slice0. split; [|apply substring_0_prefix].
  rewrite substring_0_length. lia.
Qed.

Lemma slice0_short (n : nat) (s : string) :
  (String.length s ≤ n)%nat → slice0 n s = s.
Proof.
  unfold slice0. revert s. induction n as [|n IH]; intros [|c s]; simpl; intros H;
    try reflexivity; [lia|].
  rewrite IH; [done|lia].
Qed.

Lemma slice_last_length {A} (n : nat) (l : list A) :
  length (Http.slice_last n l) = Nat.min n (length l).
Proof. unfold Http.slice_last. rewrite length_drop. lia. Qed.

Lemma slice_last_snoc {A} (n : nat) (l : list A) (x : A) :
  Http.slice_last (S n) (l ++ [x]) = Http.slice_last n l ++ [x].
Proof.
  unfold Http.slice_last. rewrite length_app. simpl.
  replace (length l + 1 - S n)%nat with (length l - n)%nat by lia.
  rewrite drop_app_le by lia. done.
Qed.

(** ** The polling server *)

Lemma http_getOrCreateRoom_cases now random roomId rs room key rs' :
  Http.getOrCreateRoom now random roomId rs = (room, key, rs') →
  key = or_makeRoomId roomId random ∧
  ((rs !! key = Some room ∧ rs' = rs)
   ∨ (rs !! key = None ∧ rs' = <[key := room]> rs
      ∧ room = Http.mkRoom key None [] None (Http.fresh_playback now) [])).
Proof.
  unfold Http.getOrCreateRoom.
  destruct (rs !! or_makeRoomId roomId random) as [r|] eqn:E.
  - intros [= <- <- <-]. auto.
  - intros [= <- <- <-]. auto.
Qed.

Lemma push_message_history m room :
  history_ok room → history_ok (Http.push_message m room).
Proof.
  unfold history_ok, history_cap, Http.push_message. simpl. intros H.
  case_bool_decide.
  - rewrite slice_last_length. lia.
  - lia.
Qed.

Lemma push_message_last m room :
  last (Http.messages (Http.push_message m room)) = Some m.
Proof.
  unfold Http.push_message. simpl. case_bool_decide.
  - change 50%nat with (S 49). rewrite slice_last_snoc. apply last_snoc.
  - apply last_snoc.
Qed.

Lemma push_message_trimmed m room :
  (history_cap < length (Http.messages room) + 1)%nat →
  Http.messages (Http.push_message m room)
  = Http.slice_last 50 (Http.messages room ++ [m]).
Proof.
  unfold history_cap, Http.push_message. simpl. intros H.
  rewrite bool_decide_eq_true_2; [done|]. rewrite length_app. simpl. lia.
Qed.

Lemma push_message_kept m room :
  (length (Http.messages room) + 1 ≤ history_cap)%nat →
  Http.messages (Http.push_message m room) = Http.messages room ++ [m].
Proof.
  unfold history_cap, Http.push_message. simpl. intros H.
  rewrite bool_decide_eq_false_2; [done|]. rewrite length_app. simpl. lia.
Qed.

Lemma history_handle now random req rs :
  map_Forall (λ _ room, history_ok room) rs →
  map_Forall (λ _ room, history_ok room) (Http.handle now random req rs).1.
Proof.
  intros Hinv.
  destruct req as [roomId name0 uid|roomId|roomId uid src
                  |roomId uid action a to r|roomId uid text0 name0]; simpl.
  - destruct (Http.getOrCreateRoom now random roomId rs) as [[room key] rs1] eqn:G.
    apply http_getOrCreateRoom_cases in G as [_ [[Hr ->]|(Hr & -> & ->)]]; simpl.
    + apply map_Forall_insert_2; [|done]. exact (Hinv key room Hr).
    + rewrite insert_insert_eq. apply map_Forall_insert_2; [|done].
      unfold history_ok, history_cap. simpl. lia.
  - by destruct (rs !! roomId).
  - destruct (rs !! roomId) as [room|] eqn:E; [|done].
    case_bool_decide; simpl; [done|].
    apply map_Forall_insert_2; [|done]. exact (Hinv roomId room E).
  - destruct (rs !! roomId) as [room|] eqn:E; [|done].
    case_bool_decide; simpl; [done|].
    apply map_Forall_insert_2; [|done].
    pose proof (Hinv roomId room E) as H0. unfold Http.apply_action.
    repeat case_bool_decide; exact H0.
  - destruct (rs !! roomId) as [room|] eqn:E; [|done]. simpl.
    apply map_Forall_insert_2; [|done].
    apply push_message_history. exact (Hinv roomId room E).
Qed.

Lemma history_run tr : map_Forall (λ _ room, history_ok room) (Http.run tr).
Proof.
  unfold Http.run.
  assert (∀ rs, map_Forall (λ _ room, history_ok room) rs →
                map_Forall (λ _ room, history_ok room) (fold_left Http.step tr rs)) as H.
  { induction tr as [|i tr IH]; intros rs Hrs; simpl; [done|].
    apply IH. by apply history_handle. }
  apply H, map_Forall_empty.
Qed.

Lemma http_host_handle now random req rs :
  map_Forall (λ _ room, http_host_ok room) rs →
  map_Forall (λ _ room, http_host_ok room) (Http.handle now random req rs).1.
Proof.
  intros Hinv.
  destruct req as [roomId name0 uid|roomId|roomId uid src
                  |roomId uid action a to r|roomId uid text0 name0]; simpl.
  - destruct (Http.getOrCreateRoom now random roomId rs) as [[room key] rs1] eqn:G.
    assert (http_host_ok room ∧ <[key := room]> rs1 = <[key := room]> rs) as [Hok Hrs].
    { apply http_getOrCreateRoom_cases in G as [_ [[Hr ->]|(Hr & -> & ->)]].
      - split; [exact (Hinv key room Hr)|done].
      - split; [by intros h|by rewrite insert_insert_eq]. }
    simpl. match goal with |- map_Forall _ (<[key := ?r']> rs1) => set (room' := r') end.
    assert (<[key := room']> rs1 = <[key := room']> rs) as ->.
    { rewrite <- (insert_insert_eq rs1 key room' room), Hrs.
      by rewrite insert_insert_eq. }
    apply map_Forall_insert_2; [|done].
    intros h. subst room'. simpl. intros Hhost. apply keys_set_elem.
    destruct (str_truthy (Http.hostId room)); [right; by apply Hok|left; congruence].
  - by destruct (rs !! roomId).
  - destruct (rs !! roomId) as [room|] eqn:E; [|done].
    case_bool_decide; simpl; [done|].
    apply map_Forall_insert_2; [|done]. exact (Hinv roomId room E).
  - destruct (rs !! roomId) as [room|] eqn:E; [|done].
    case_bool_decide; simpl; [done|].
    apply map_Forall_insert_2; [|done].
    pose proof (Hinv roomId room E) as H0. unfold Http.apply_action.
    repeat case_bool_decide; exact H0.
  - destruct (rs !! roomId) as [room|] eqn:E; [|done]. simpl.
    apply map_Forall_insert_2; [|done]. exact (Hinv roomId room E).
Qed.

Lemma http_host_run tr : map_Forall (λ _ room, http_host_ok room) (Http.run tr).
Proof.
  unfold Http.run.
  assert (∀ rs, map_Forall (λ _ room, http_host_ok room) rs →
                map_Forall (λ _ room, http_host_ok room) (fold_left Http.step tr rs))
    as H.
  { induction tr as [|i tr IH]; intros rs Hrs; simpl; [done|].
    apply IH. by apply http_host_handle. }
  apply H, map_Forall_empty.
Qed.

(** ** Generated room ids *)

Lemma Qfloor_unit_scaled (r : Qc) :
  (0 ≤ r)%Qc → (r < 1)%Qc →
  (0 ≤ Qfloor (r * Q2Qc (inject_Z 32))%Qc < 32)%Z.
Proof.
  intros H0 H1. unfold Qcle in H0. unfold Qclt in H1. simpl in H0, H1.
  assert ((r * Q2Qc (inject_Z 32))%Qc == this r * inject_Z 32)%Q as E.
  { simpl. rewrite Qred_correct. apply Qmult_comp; [reflexivity|apply Qred_correct]. }
  rewrite E. split.
  - change 0%Z with (Qfloor 0). apply Qfloor_resp_le.
    apply Qmult_le_0_compat; [exact H0|]. by vm_compute.
  - rewrite Zlt_Qlt. eapply Qle_lt_trans; [apply Qfloor_le|].
    apply Qlt_le_trans with (1 * inject_Z 32)%Q.
    + apply Qmult_lt_compat_r; [reflexivity|exact H1].
    + by vm_compute.
Qed.

Lemma char_at_alphabet (z : Z) :
  (0 ≤ z < 32)%Z → ∃ c, char_at alphabet z = Some c ∧ in_alphabet c = true.
Proof.
  intros Hz. unfold char_at. rewrite (proj2 (Z.ltb_ge z 0)) by lia.
  assert (Z.to_nat z < 32)%nat as Hn by lia.
  generalize dependent (Z.to_nat z). intros n Hn.
  do 32 (destruct n as [|n]; [eexists; split; [reflexivity|by vm_compute]|]).
  lia.
Qed.

Lemma pick_char (r : Qc) :
  (0 ≤ r)%Qc → (r < 1)%Qc →
  ∃ c, pick r = String c EmptyString ∧ in_alphabet c = true.
Proof.
  intros H0 H1. unfold pick.
  change (Z.of_nat (String.length alphabet)) with 32%Z.
  destruct (char_at_alphabet _ (Qfloor_unit_scaled r H0 H1)) as (c & -> & Hc).
  by exists c.
Qed.

Lemma makeRoomId_code (random : nat → Qc) :
  (∀ i, (i < 6)%nat → (0 ≤ random i)%Qc ∧ (random i < 1)%Qc) →
  is_room_code (makeRoomId random) = true.
Proof.
  intros H.
  assert (∀ i, (i < 6)%nat →
               ∃ c, pick (random i) = String c EmptyString ∧ in_alphabet c = true) as Hp.
  { intros i Hi. destruct (H i Hi). by apply pick_char. }
  destruct (Hp 0%nat) as (c0 & E0 & I0); [lia|].
  destruct (Hp 1%nat) as (c1 & E1 & I1); [lia|].
  destruct (Hp 2%nat) as (c2 & E2 & I2); [lia|].
  destruct (Hp 3%nat) as (c3 & E3 & I3); [lia|].
  destruct (Hp 4%nat) as (c4 & E4 & I4); [lia|].
  destruct (Hp 5%nat) as (c5 & E5 & I5); [lia|].
  assert (makeRoomId random
          = String c0 (String c1 (String c2 (String c3 (String c4 (String c5 ""))))))
    as ->.
  { unfold makeRoomId. cbn [makeRoomId_loop].
    rewrite E0, E1, E2, E3, E4, E5. reflexivity. }
  unfold is_room_code. apply andb_true_intro. split; [reflexivity|].
  cbn [list_ascii_of_string forallb]. by rewrite I0, I1, I2, I3, I4, I5.
Qed.

Lemma in_alphabet_spec (c : ascii) :
  in_alphabet c = true ↔ c ∈ list_ascii_of_string alphabet.
Proof.
  rewrite <- (bool_decide_spec (c ∈ list_ascii_of_string alphabet)).
  rewrite <- Is_true_true.
  assert (in_alphabet c = bool_decide (c ∈ list_ascii_of_string alphabet)) as ->; [|done].
  destruct c as [[] [] [] [] [] [] [] []]; by vm_compute.
Qed.

(* ===================================================================== *)
(** * Main theorems                                                       *)
(* ===================================================================== *)

(** ** Joins *)

Section Joins.
Variable StringToNumber : string → number.
Variable trim : string → string.
Abbreviation handle := (Push.handle StringToNumber trim).

(** The state after a join: the socket is entered in the room stored under
    the id the join works with, or in a fresh room of that id. *)
Lemma join_state now random st sid roomId n j :
  Push.sockets st !! sid = Some j →
  let rid := or_makeRoomId (trim <$> (if str_truthy roomId then roomId else None))
                           random in
  let room := default (Push.mkRoom rid None [] None (Push.fresh_playback now))
                      (Push.rooms st !! rid) in
  (handle now random (Push.room_join sid roomId n) st).1
  = Push.mkServer
      (<[rid := Push.mkRoom (Push.id room)
                  (if str_truthy (Push.hostId room) then Push.hostId room else Some sid)
                  (JsMap.set sid (Push.mkParticipant sid (sor n "Guest"))
                     (Push.participants room))
                  (Push.source room) (Push.playback room)]> (Push.rooms st))
      (<[sid := Some (Push.id room)]> (Push.sockets st)).
Proof.
  intros Hs rid room. unfold Push.handle. rewrite Hs. fold rid.
  destruct (Push.getOrCreateRoom now _ rid (Push.rooms st)) as [[r key] rs] eqn:G.
  apply getOrCreateRoom_cases in G as [-> [[Hr ->]|(Hr & -> & ->)]];
    [| |apply or_makeRoomId_nonempty]; subst room; rewrite Hr; simpl.
  - done.
  - by rewrite insert_insert_eq.
Qed.

(** The id a join works with. *)
Lemma join_id_named roomId rid random :
  roomId ≠ "" → trim roomId = rid → rid ≠ "" →
  or_makeRoomId (trim <$> (if str_truthy (Some roomId) then Some roomId else None)) random
  = rid.
Proof.
  intros Hne <- Hrid. apply str_truthy_Some in Hne. rewrite Hne. simpl.
  by apply or_makeRoomId_given.
Qed.

Lemma join_id_generated roomId random :
  roomId = None ∨ roomId = Some "" ∨ (∃ s, roomId = Some s ∧ trim s = "") →
  or_makeRoomId (trim <$> (if str_truthy roomId then roomId else None)) random
  = makeRoomId random.
Proof.
  intros [-> | [-> | (s & -> & Hs)]]; try reflexivity.
  destruct (str_truthy (Some s)); simpl; [|reflexivity].
  by rewrite Hs.
Qed.

End Joins.

Lemma http_join_state now random rs uid roomId n :
  let rid := or_makeRoomId roomId random in
  let room := default (Http.mkRoom rid None [] None (Http.fresh_playback now) [])
                      (rs !! rid) in
  (Http.handle now random (Http.post_join roomId n uid) rs).1
  = <[rid := Http.mkRoom (Http.id room)
               (if str_truthy (Http.hostId room) then Http.hostId room else Some uid)
               (JsMap.set uid (Http.mkParticipant uid (sor n "Guest") now)
                  (Http.participants room))
               (Http.source room) (Http.playback room) (Http.messages room)]> rs.
Proof.
  intros rid room. simpl.
  destruct (Http.getOrCreateRoom now random roomId rs) as [[r key] rs'] eqn:G.
  apply http_getOrCreateRoom_cases in G as [-> [[Hr ->]|(Hr & -> & ->)]];
    fold rid in Hr |- *; subst room; rewrite Hr; simpl.
  - done.
  - by rewrite insert_insert_eq.
Qed.

(** A host that is kept or taken by a join is kept by the next join of the
    same id. *)
Lemma join_host_stable (h : option string) (sid : string) :
  let h1 := if str_truthy h then h else Some sid in
  (if str_truthy h1 then h1 else Some sid) = h1.
Proof.
  simpl. destruct (str_truthy h) eqn:E.
  - by rewrite E.
  - by destruct (str_truthy (Some sid)).
Qed.

Section MainTheorems.
Variable StringToNumber : string → number.
Variable trim : string → string.
Abbreviation handle := (Push.handle StringToNumber trim).
Abbreviation run := (Push.run StringToNumber trim).
Abbreviation Num_or := (Number_or StringToNumber).

(** C3.  [effectiveTime] depends on the snapshot and the instant only.  On a
    paused snapshot it returns [at] at every instant.  On a playing snapshot
    with rate [r] it returns [at + Δ * r] when the clock reads [Δ] seconds,
    that is [1000 * Δ] milliseconds, after [ts]: for every rate that is not
    zero, and so for every snapshot a room of the socket server can hold. *)
Theorem effectiveTime_extrapolates :
  (∀ (now : Z) (pb : Playback), status pb = paused → effectiveTime now pb = at_ pb)
  ∧ (∀ (now : Z) (a r t Δ : Qc),
        r ≠ 0%Qc → (0 ≤ Δ)%Qc → ms now = (t + ms 1000 * Δ)%Qc →
        effectiveTime now (mkPlayback playing (Fin a) (Fin r) (Fin t))
        = Fin (a + Δ * r)%Qc)
  ∧ (∀ tr rid room (now : Z) (a r t Δ : Qc),
        Push.rooms (run tr) !! rid = Some room →
        Push.playback room = mkPlayback playing (Fin a) (Fin r) (Fin t) →
        (0 ≤ Δ)%Qc → ms now = (t + ms 1000 * Δ)%Qc →
        effectiveTime now (Push.playback room) = Fin (a + Δ * r)%Qc).
Proof.
  assert (∀ (now : Z) (a r t Δ : Qc),
             r ≠ 0%Qc → ms now = (t + ms 1000 * Δ)%Qc →
             effectiveTime now (mkPlayback playing (Fin a) (Fin r) (Fin t))
             = Fin (a + Δ * r)%Qc) as Hplaying.
  { intros now a r t Δ Hr Hnow. unfold effectiveTime. cbn [status at_ rate ts].
    rewrite (nor_truthy (Fin r)) by (by apply num_truthy_Fin).
    unfold nsub, of_Z. fold (ms now). cbn [nneg nadd].
    rewrite ndiv_thousand. cbn [nmul nadd]. f_equal. rewrite Hnow.
    field. apply ms_1000_nonzero. }
  split; [|split].
  - intros now pb Hp. unfold effectiveTime. rewrite Hp. reflexivity.
  - intros now a r t Δ Hr _ Hnow. by apply Hplaying.
  - intros tr rid room now a r t Δ Hroom Hpb _ Hnow.
    destruct (rate_inv_run StringToNumber trim tr rid room Hroom) as [_ Hrate].
    rewrite Hpb in *. apply Hplaying; [|done].
    intros ->. by apply Hrate.
Qed.

(** C2.  A caller that is not the host of its room cannot change it.  In the
    socket server each of [player:set-source], [player:play],
    [player:pause], [player:seek] and [player:rate] is dropped: the whole
    state is as before and nothing is sent.  In the polling server the
    source and the playback route answer 403 and leave the registry as it
    was. *)
Theorem non_host_commands_rejected :
  (∀ now random st sid,
      (∀ rid room, Push.joined_room sid st = Some (rid, room) →
                   Push.hostId room ≠ Some sid) →
      (∀ payload, handle now random (Push.set_source sid payload) st = (st, []))
      ∧ (∀ a r t, handle now random (Push.ev_play sid a r t) st = (st, []))
      ∧ (∀ a t, handle now random (Push.ev_pause sid a t) st = (st, []))
      ∧ (∀ a t, handle now random (Push.ev_seek sid a t) st = (st, []))
      ∧ (∀ r t, handle now random (Push.ev_rate sid r t) st = (st, [])))
  ∧ (∀ now random rs rid room uid,
      rs !! rid = Some room → Http.hostId room ≠ Some uid →
      (∀ src, Http.handle now random (Http.post_source rid uid src) rs
              = (rs, Http.status_403))
      ∧ (∀ action a to r,
            Http.handle now random (Http.post_playback rid uid action a to r) rs
            = (rs, Http.status_403))).
Proof.
  split.
  - intros now random st sid Hnot.
    pose proof (hosted_room_None sid st Hnot) as Hnone.
    repeat split; intros; simpl; by rewrite Hnone.
  - intros now random rs rid room uid Hr Hnot.
    split; intros; simpl; rewrite Hr; by rewrite bool_decide_eq_true_2.
Qed.

(** C5.  When [room:leave] or [disconnect] removes the participant who is
    host, the participant is gone from the room; if participants remain the
    new host is one of them, and if none remains the host is [null]. *)
Theorem host_reassigned_when_host_leaves :
  ∀ now random st sid rid room ev,
    Push.joined_room sid st = Some (rid, room) →
    Push.hostId room = Some sid →
    ev = Push.room_leave sid ∨ ev = Push.disconnect sid →
    ∃ room',
      Push.rooms (handle now random ev st).1 !! rid = Some room'
      ∧ Push.participants room' = JsMap.delete sid (Push.participants room)
      ∧ (sid ∉ JsMap.keys (Push.participants room'))
      ∧ match Push.participants room' with
        | [] => Push.hostId room' = None
        | _ :: _ => (∃ h, Push.hostId room' = Some h
                          ∧ h ∈ JsMap.keys (Push.participants room'))
        end.
Proof.
  intros now random st sid rid room ev J Hhost Hev.
  exists (Push.remove_participant sid room).
  assert (Push.rooms (handle now random ev st).1 !! rid
          = Some (Push.remove_participant sid room)) as ->.
  { destruct Hev as [-> | ->]; simpl.
    - rewrite J. simpl. by rewrite lookup_insert_eq.
    - destruct (joined_room_Some _ _ _ _ J) as [-> _]. rewrite J. simpl.
      by rewrite lookup_insert_eq. }
  split; [done|]. split; [done|]. split.
  - simpl. rewrite keys_delete_elem. by intros [? _].
  - unfold Push.remove_participant. simpl.
    rewrite bool_decide_eq_true_2 by done.
    destruct (JsMap.delete sid (Push.participants room)) as [|e ps] eqn:E; [done|].
    exists e.1. split; [done|]. by left.
Qed.

(** C6.  "The host, when there is one, is a key of [participants]" is an
    invariant of the socket server: a freshly created room satisfies it, the
    system invariant that contains it holds initially and is preserved by
    every handler, and so it holds of every room of every reachable
    state.  The polling server, which only ever adds participants, keeps it
    as well. *)
Theorem host_is_participant_invariant :
  (∀ now random roomId rs,
      rs !! roomId = None →
      host_ok (Push.getOrCreateRoom now random roomId rs).1.1)
  ∧ sys_inv Push.init
  ∧ (∀ now random ev st, sys_inv st → sys_inv (handle now random ev st).1)
  ∧ (∀ tr rid room h,
        Push.rooms (run tr) !! rid = Some room → Push.hostId room = Some h →
        h ∈ JsMap.keys (Push.participants room))
  ∧ (∀ tr rid room h,
        Http.run tr !! rid = Some room → Http.hostId room = Some h →
        h ∈ JsMap.keys (Http.participants room)).
Proof.
  split; [|split; [|split; [|split]]].
  - intros now random roomId rs Hr. unfold Push.getOrCreateRoom. rewrite Hr.
    by intros h.
  - apply sys_inv_init.
  - intros. by apply sys_inv_handle.
  - intros tr rid room h Hr Hh.
    destruct (sys_inv_run StringToNumber trim tr) as (_ & Hok & _).
    by apply (Hok rid room).
  - intros tr rid room h Hr Hh. by apply (http_host_run tr rid room).
Qed.

(** C7.  A chat text is kept up to its first 1000 characters: a longer text
    is stored (polling server) and broadcast (socket server) cut to exactly
    its first 1000, a shorter one as it is.  The history of a room never
    holds more than 100 messages: a post that makes it longer leaves the
    most recent 50. *)
Theorem chat_truncated_and_history_bounded :
  (∀ now random rs rid room uid text0 name0,
      rs !! rid = Some room →
      ∃ m, let room' := Http.push_message m room in
        Http.handle now random (Http.post_chat rid uid text0 name0) rs
        = (<[rid := room']> rs, Http.success)
        ∧ last (Http.messages room') = Some m
        ∧ Http.text m = slice0 1000 text0
        ∧ ((1000 < String.length text0)%nat →
           String.length (Http.text m) = 1000%nat
           ∧ ∃ rest, text0 = String.append (Http.text m) rest)
        ∧ ((String.length text0 ≤ 1000)%nat → Http.text m = text0)
        ∧ ((length (Http.messages room) ≤ 100)%nat →
           (length (Http.messages room') ≤ 100)%nat)
        ∧ ((100 < length (Http.messages room) + 1)%nat →
           Http.messages room' = Http.slice_last 50 (Http.messages room ++ [m]))
        ∧ ((length (Http.messages room) + 1 ≤ 100)%nat →
           Http.messages room' = Http.messages room ++ [m]))
  ∧ (∀ tr rid room,
        Http.run tr !! rid = Some room → (length (Http.messages room) ≤ 100)%nat)
  ∧ (∀ now random st sid rid text0 name0,
        Push.sockets st !! sid = Some (Some rid) → rid ≠ "" → text0 ≠ "" →
        handle now random (Push.chat sid (Some text0) name0) st
        = (st, [Push.to_room rid
                  (Push.chat_message (slice0 1000 text0) (sor name0 "Anon") now sid)])
        ∧ ((1000 < String.length text0)%nat →
           String.length (slice0 1000 text0) = 1000%nat)).
Proof.
  split; [|split].
  - intros now random rs rid room uid text0 name0 Hr.
    exists (Http.mkMessage (pretty now) (slice0 1000 text0) (sor name0 "Anon") uid now).
    cbv zeta. split; [|split; [|split; [|split; [|split; [|split; [|split]]]]]].
    + simpl. by rewrite Hr.
    + apply push_message_last.
    + done.
    + intros Hlen. by apply slice0_long.
    + intros Hlen. by apply slice0_short.
    + apply push_message_history.
    + apply push_message_trimmed.
    + apply push_message_kept.
  - intros tr rid room Hr. exact (history_run tr rid room Hr).
  - intros now random st sid rid text0 name0 Hs Hrid Ht. split.
    + simpl. rewrite Hs. simpl.
      rewrite !bool_decide_eq_false_2 by done. done.
    + intros Hlen. by apply slice0_long.
Qed.

(** C8, as the code has it.  A playback command of the host replaces the
    snapshot and keeps the fields it does not name: [pause] keeps the rate,
    [seek] keeps the status and the rate, [rate] keeps the status and the
    position.  The polling server stamps the snapshot with its own clock.
    The socket server stamps it with the [ts] the command carries and uses
    its own clock only when that is missing, zero or not a number. *)
Theorem host_commands_keep_unnamed_fields :
  (∀ now random st sid rid room,
      Push.hosted_room sid st = Some (rid, room) →
      let old := Push.playback room in
      let stamp t := Num_or t (of_Z now) in
      (∀ a r t, Push.rooms (handle now random (Push.ev_play sid a r t) st).1 !! rid
                = Some (Push.with_playback
                          (mkPlayback playing (Num_or a (Fin 0%Qc))
                                      (Num_or r (Fin 1%Qc)) (stamp t)) room))
      ∧ (∀ a t, Push.rooms (handle now random (Push.ev_pause sid a t) st).1 !! rid
                = Some (Push.with_playback
                          (mkPlayback paused (Num_or a (Fin 0%Qc)) (rate old) (stamp t))
                          room))
      ∧ (∀ a t, Push.rooms (handle now random (Push.ev_seek sid a t) st).1 !! rid
                = Some (Push.with_playback
                          (mkPlayback (status old) (Num_or a (Fin 0%Qc)) (rate old)
                                      (stamp t)) room))
      ∧ (∀ r t, Push.rooms (handle now random (Push.ev_rate sid r t) st).1 !! rid
                = Some (Push.with_playback
                          (mkPlayback (status old) (at_ old) (Num_or r (Fin 1%Qc))
                                      (stamp t)) room)))
  ∧ (∀ (now : Z) t,
        (Number StringToNumber t = NaN ∨ Number StringToNumber t = Fin 0%Qc →
         Num_or t (of_Z now) = of_Z now)
        ∧ (Number StringToNumber t ≠ NaN → Number StringToNumber t ≠ Fin 0%Qc →
           Num_or t (of_Z now) = Number StringToNumber t))
  ∧ (∀ now random rs rid room uid a to r,
        rs !! rid = Some room → Http.hostId room = Some uid →
        let old := Http.playback room in
        let result action pb :=
          Http.handle now random (Http.post_playback rid uid action a to r) rs
          = (<[rid := Http.with_playback pb room]> rs, Http.success) in
        result "play" (Http.mkPlayback playing a (vor r (JNum (Fin 1%Qc))) now)
        ∧ result "pause" (Http.mkPlayback paused a (Http.rate old) now)
        ∧ result "seek" (Http.mkPlayback (Http.status old) to (Http.rate old) now)
        ∧ result "rate" (Http.mkPlayback (Http.status old) (Http.at_ old) r now)).
Proof.
  split; [|split].
  - intros now random st sid rid room H. by apply host_command_stored.
  - intros now t. split.
    + apply Number_or_falsy.
    + apply Number_or_truthy.
  - intros now random rs rid room uid a to r Hr Hhost old result.
    unfold result. simpl. rewrite Hr.
    rewrite bool_decide_eq_false_2 by (intros H; by apply H).
    repeat split.
Qed.

(** C9.  Joining is idempotent per participant id.  After a second join of
    the same id to the same room the keys of [participants] are those after
    the first (no entry is added), the entry of that id holds the name (and
    time) of the second join, every other entry is as after the first join,
    and the host, the rest of the room and every other room are unchanged.
    A second join under the same name (and, in the polling server, at the
    same time) changes nothing at all. *)
Theorem join_idempotent_per_participant :
  (∀ now1 now2 random1 random2 st sid roomId rid n1 n2,
      is_Some (Push.sockets st !! sid) →
      roomId ≠ "" → trim roomId = rid → rid ≠ "" →
      let st1 := (handle now1 random1 (Push.room_join sid (Some roomId) n1) st).1 in
      let st2 := (handle now2 random2 (Push.room_join sid (Some roomId) n2) st1).1 in
      ∃ room1 room2,
        Push.rooms st1 !! rid = Some room1 ∧ Push.rooms st2 !! rid = Some room2
        ∧ JsMap.keys (Push.participants room2) = JsMap.keys (Push.participants room1)
        ∧ length (Push.participants room2) = length (Push.participants room1)
        ∧ JsMap.get sid (Push.participants room2)
          = Some (Push.mkParticipant sid (sor n2 "Guest"))
        ∧ (∀ k, k ≠ sid →
                JsMap.get k (Push.participants room2)
                = JsMap.get k (Push.participants room1))
        ∧ Push.hostId room2 = Push.hostId room1
        ∧ Push.id room2 = Push.id room1
        ∧ Push.source room2 = Push.source room1
        ∧ Push.playback room2 = Push.playback room1
        ∧ (∀ k, k ≠ rid → Push.rooms st2 !! k = Push.rooms st1 !! k)
        ∧ (sor n2 "Guest" = sor n1 "Guest" → st2 = st1))
  ∧ (∀ now1 now2 random1 random2 rs uid rid n1 n2,
      rid ≠ "" →
      let rs1 := (Http.handle now1 random1 (Http.post_join (Some rid) n1 uid) rs).1 in
      let rs2 := (Http.handle now2 random2 (Http.post_join (Some rid) n2 uid) rs1).1 in
      ∃ room1 room2,
        rs1 !! rid = Some room1 ∧ rs2 !! rid = Some room2
        ∧ JsMap.keys (Http.participants room2) = JsMap.keys (Http.participants room1)
        ∧ length (Http.participants room2) = length (Http.participants room1)
        ∧ JsMap.get uid (Http.participants room2)
          = Some (Http.mkParticipant uid (sor n2 "Guest") now2)
        ∧ (∀ k, k ≠ uid →
                JsMap.get k (Http.participants room2)
                = JsMap.get k (Http.participants room1))
        ∧ Http.hostId room2 = Http.hostId room1
        ∧ Http.id room2 = Http.id room1
        ∧ Http.source room2 = Http.source room1
        ∧ Http.playback room2 = Http.playback room1
        ∧ Http.messages room2 = Http.messages room1
        ∧ (∀ k, k ≠ rid → rs2 !! k = rs1 !! k)
        ∧ (sor n2 "Guest" = sor n1 "Guest" → now2 = now1 → rs2 = rs1)).
Proof.
  split.
  - intros now1 now2 random1 random2 st sid roomId rid n1 n2 [j Hs] Hne Htrim Hrid st1 st2.
    pose proof (join_state StringToNumber trim now1 random1 st sid (Some roomId) n1 j Hs)
      as H1.
    rewrite (join_id_named trim roomId rid random1 Hne Htrim Hrid) in H1.
    cbv zeta in H1. fold st1 in H1.
    set (room0 := default _ (Push.rooms st !! rid)) in H1.
    set (room1 := Push.mkRoom _ _ _ _ _) in H1.
    assert (Push.rooms st1 !! rid = Some room1) as Hr1.
    { rewrite H1. simpl. apply lookup_insert_eq. }
    assert (Push.sockets st1 !! sid = Some (Some (Push.id room0))) as Hs1.
    { rewrite H1. simpl. apply lookup_insert_eq. }
    pose proof (join_state StringToNumber trim now2 random2 st1 sid (Some roomId) n2 _ Hs1)
      as H2.
    rewrite (join_id_named trim roomId rid random2 Hne Htrim Hrid) in H2.
    cbv zeta in H2. fold st2 in H2. rewrite Hr1 in H2. simpl in H2.
    rewrite (join_host_stable (Push.hostId room0) sid) in H2.
    assert (sid ∈ JsMap.keys (Push.participants room1)) as Hin.
    { apply keys_set_elem. by left. }
    exists room1. eexists.
    split; [exact Hr1|]. split; [rewrite H2; simpl; apply lookup_insert_eq|].
    simpl.
    split; [by apply keys_set_present|]. split; [by apply length_set_present|].
    split; [apply get_set|]. split; [intros k Hk; by apply get_set_ne|].
    do 4 (split; [reflexivity|]). split.
    + intros k Hk. rewrite H2. simpl. by rewrite lookup_insert_ne.
    + intros Hname. rewrite H2, H1. simpl. rewrite Hname, set_set.
      by rewrite !insert_insert_eq.
  - intros now1 now2 random1 random2 rs uid rid n1 n2 Hrid rs1 rs2.
    pose proof (http_join_state now1 random1 rs uid (Some rid) n1) as H1.
    rewrite (or_makeRoomId_given rid random1 Hrid) in H1.
    cbv zeta in H1. fold rs1 in H1.
    set (room0 := default _ (rs !! rid)) in H1.
    set (room1 := Http.mkRoom _ _ _ _ _ _) in H1.
    assert (rs1 !! rid = Some room1) as Hr1.
    { rewrite H1. apply lookup_insert_eq. }
    pose proof (http_join_state now2 random2 rs1 uid (Some rid) n2) as H2.
    rewrite (or_makeRoomId_given rid random2 Hrid) in H2.
    cbv zeta in H2. fold rs2 in H2. rewrite Hr1 in H2. simpl in H2.
    rewrite (join_host_stable (Http.hostId room0) uid) in H2.
    assert (uid ∈ JsMap.keys (Http.participants room1)) as Hin.
    { apply keys_set_elem. by left. }
    exists room1. eexists.
    split; [exact Hr1|]. split; [rewrite H2; apply lookup_insert_eq|].
    simpl.
    split; [by apply keys_set_present|]. split; [by apply length_set_present|].
    split; [apply get_set|]. split; [intros k Hk; by apply get_set_ne|].
    do 5 (split; [reflexivity|]). split.
    + intros k Hk. rewrite H2. by rewrite lookup_insert_ne.
    + intros Hname ->. rewrite H2, H1. rewrite Hname, set_set.
      by rewrite !insert_insert_eq.
Qed.

(** C10.  In the socket server the stored rate is never [0] and never [NaN]:
    this holds of every room of every reachable state.  A [rate] argument of
    the host that is missing, zero or not a number is stored as [1], and an
    [at] or [to] argument that is missing or not a number is stored as
    [0]. *)
Theorem stored_rate_never_zero_nor_NaN :
  (∀ tr rid room,
      Push.rooms (run tr) !! rid = Some room →
      rate (Push.playback room) ≠ NaN ∧ rate (Push.playback room) ≠ Fin 0%Qc)
  ∧ (∀ now random st sid rid room,
        Push.hosted_room sid st = Some (rid, room) →
        (∀ a r t,
            r = JUndefined ∨ Number StringToNumber r = Fin 0%Qc
            ∨ Number StringToNumber r = NaN →
            ∃ room', Push.rooms (handle now random (Push.ev_play sid a r t) st).1 !! rid
                     = Some room'
                     ∧ rate (Push.playback room') = Fin 1%Qc)
        ∧ (∀ r t,
            r = JUndefined ∨ Number StringToNumber r = Fin 0%Qc
            ∨ Number StringToNumber r = NaN →
            ∃ room', Push.rooms (handle now random (Push.ev_rate sid r t) st).1 !! rid
                     = Some room'
                     ∧ rate (Push.playback room') = Fin 1%Qc)
        ∧ (∀ a r t,
            a = JUndefined ∨ Number StringToNumber a = NaN →
            ∃ p q s,
              Push.rooms (handle now random (Push.ev_play sid a r t) st).1 !! rid = Some p
              ∧ Push.rooms (handle now random (Push.ev_pause sid a t) st).1 !! rid = Some q
              ∧ Push.rooms (handle now random (Push.ev_seek sid a t) st).1 !! rid = Some s
              ∧ at_ (Push.playback p) = Fin 0%Qc
              ∧ at_ (Push.playback q) = Fin 0%Qc
              ∧ at_ (Push.playback s) = Fin 0%Qc)).
Proof.
  split.
  - intros tr rid room Hr. exact (rate_inv_run StringToNumber trim tr rid room Hr).
  - intros now random st sid rid room H.
    destruct (host_command_stored StringToNumber trim now random st sid rid room H)
      as (Hplay & Hpause & Hseek & Hrate).
    assert (∀ r, r = JUndefined ∨ Number StringToNumber r = Fin 0%Qc
                 ∨ Number StringToNumber r = NaN →
                 Number StringToNumber r = NaN ∨ Number StringToNumber r = Fin 0%Qc)
      as Hfalsy.
    { intros r [-> | [? | ?]]; auto. }
    split; [|split].
    + intros a r t Hr. eexists. split; [apply Hplay|]. simpl.
      by apply Number_or_falsy, Hfalsy.
    + intros r t Hr. eexists. split; [apply Hrate|]. simpl.
      by apply Number_or_falsy, Hfalsy.
    + intros a r t Ha. do 3 eexists.
      split; [apply Hplay|]. split; [apply Hpause|]. split; [apply Hseek|].
      assert (Num_or a (Fin 0%Qc) = Fin 0%Qc) as Hz.
      { apply Number_or_falsy. destruct Ha as [-> | ?]; auto. }
      simpl. by rewrite Hz.
Qed.

(** C4, as the code has it.  The alphabet is the set A-H, J-N, P-Z, 2-9 and
    has 32 symbols.  An id made by [makeRoomId] has exactly 6 characters,
    all of the alphabet.  It is the id of the room created by a join whose
    room id is missing or empty or, in the socket server, blank (empty once
    trimmed).  A room created by a join that names an unknown room takes the
    name it is given (trimmed, in the socket server) as its id, provided the
    name is not empty (nor empty once trimmed). *)
Theorem generated_room_ids_are_codes :
  String.length alphabet = 32%nat
  ∧ (∀ c, in_alphabet c = true ↔ c ∈ list_ascii_of_string alphabet)
  ∧ (∀ random,
        (∀ i, (i < 6)%nat → (0 ≤ random i)%Qc ∧ (random i < 1)%Qc) →
        is_room_code (makeRoomId random) = true)
  ∧ (∀ now random st sid roomId n,
        is_Some (Push.sockets st !! sid) →
        roomId = None ∨ roomId = Some "" ∨ (∃ s, roomId = Some s ∧ trim s = "") →
        (∀ i, (i < 6)%nat → (0 ≤ random i)%Qc ∧ (random i < 1)%Qc) →
        Push.rooms st !! makeRoomId random = None →
        let st' := (handle now random (Push.room_join sid roomId n) st).1 in
        ∃ room,
          Push.rooms st' !! makeRoomId random = Some room
          ∧ Push.id room = makeRoomId random
          ∧ is_room_code (Push.id room) = true
          ∧ Push.sockets st' !! sid = Some (Some (Push.id room)))
  ∧ (∀ now random rs uid roomId n,
        roomId = None ∨ roomId = Some "" →
        (∀ i, (i < 6)%nat → (0 ≤ random i)%Qc ∧ (random i < 1)%Qc) →
        rs !! makeRoomId random = None →
        ∃ room,
          (Http.handle now random (Http.post_join roomId n uid) rs).1
            !! makeRoomId random = Some room
          ∧ Http.id room = makeRoomId random
          ∧ is_room_code (Http.id room) = true
          ∧ ∃ ps, (Http.handle now random (Http.post_join roomId n uid) rs).2
                  = Http.joined (Http.summary room) ps)
  ∧ (∀ now random st sid roomId rid n,
        is_Some (Push.sockets st !! sid) →
        roomId ≠ "" → trim roomId = rid → rid ≠ "" →
        Push.rooms st !! rid = None →
        let st' := (handle now random (Push.room_join sid (Some roomId) n) st).1 in
        ∃ room,
          Push.rooms st' !! rid = Some room
          ∧ Push.id room = rid
          ∧ Push.sockets st' !! sid = Some (Some rid))
  ∧ (∀ now random rs uid rid n,
        rid ≠ "" → rs !! rid = None →
        ∃ room,
          (Http.handle now random (Http.post_join (Some rid) n uid) rs).1 !! rid
          = Some room
          ∧ Http.id room = rid).
Proof.
  split; [reflexivity|]. split; [apply in_alphabet_spec|].
  split; [apply makeRoomId_code|]. split; [|split; [|split]].
  - intros now random st sid roomId n [j Hs] Hblank Hrandom Hnone st'.
    pose proof (join_state StringToNumber trim now random st sid roomId n j Hs) as H.
    rewrite (join_id_generated trim roomId random Hblank) in H.
    cbv zeta in H. fold st' in H. rewrite Hnone in H. simpl in H.
    eexists. rewrite H. simpl. rewrite !lookup_insert_eq.
    split; [reflexivity|]. simpl. split; [reflexivity|].
    split; [by apply makeRoomId_code|reflexivity].
  - intros now random rs uid roomId n Hmissing Hrandom Hnone.
    assert (or_makeRoomId roomId random = makeRoomId random) as Hid.
    { by destruct Hmissing as [-> | ->]. }
    pose proof (http_join_state now random rs uid roomId n) as H.
    rewrite Hid in H. cbv zeta in H. rewrite Hnone in H.
    cbn [default Http.id Http.hostId Http.participants Http.source Http.playback
         Http.messages str_truthy] in H.
    eexists. rewrite H, lookup_insert_eq.
    split; [reflexivity|]. split; [reflexivity|].
    split; [by apply makeRoomId_code|].
    unfold Http.handle, Http.getOrCreateRoom. rewrite Hid, Hnone. simpl.
    by eexists.
  - intros now random st sid roomId rid n [j Hs] Hne Htrim Hrid Hnone st'.
    pose proof (join_state StringToNumber trim now random st sid (Some roomId) n j Hs)
      as H.
    rewrite (join_id_named trim roomId rid random Hne Htrim Hrid) in H.
    cbv zeta in H. fold st' in H. rewrite Hnone in H. simpl in H.
    eexists. rewrite H. simpl. rewrite !lookup_insert_eq. by repeat split.
  - intros now random rs uid rid n Hrid Hnone.
    pose proof (http_join_state now random rs uid (Some rid) n) as H.
    rewrite (or_makeRoomId_given rid random Hrid) in H.
    cbv zeta in H. rewrite Hnone in H.
    cbn [default Http.id Http.hostId Http.participants Http.source Http.playback
         Http.messages str_truthy] in H.
    eexists. rewrite H, lookup_insert_eq. by split.
Qed.

End MainTheorems.

(* ===================================================================== *)
(** * The theorems on concrete inputs                                     *)
(* ===================================================================== *)

Lemma sample_push_lookup : Push.rooms sample_push !! "X" = Some sample_push_room.
Proof. by vm_compute. Qed.

Lemma sample_push_joined (sid : string) :
  sid = "s1" ∨ sid = "s2" →
  Push.joined_room sid sample_push = Some ("X", sample_push_room).
Proof. intros [-> | ->]; by vm_compute. Qed.

Lemma sample_http_lookup : sample_http !! "X" = Some sample_http_room.
Proof. by vm_compute. Qed.

(** Five seconds after a play at position 0 and rate 1 the position is 5. *)
Lemma effectiveTime_extrapolates_witness :
  effectiveTime 5000 (mkPlayback playing (Fin 0%Qc) (Fin 1%Qc) (Fin 0%Qc))
  = Fin (0 + ms 5 * 1)%Qc.
Proof.
  apply (proj1 (proj2 (effectiveTime_extrapolates digits_to_number trim))
           5000%Z 0%Qc 1%Qc 0%Qc (ms 5)).
  - by_eval.
  - by_eval.
  - by_eval.
Defined.

(** The guest [s2] of the sample room cannot start playback, and the user
    [u2] cannot set the source. *)
Lemma non_host_commands_rejected_witness :
  Push.handle digits_to_number trim 6000 sample_random
    (Push.ev_play "s2" (JNum (Fin 0%Qc)) (JNum (Fin 1%Qc)) JUndefined) sample_push
  = (sample_push, [])
  ∧ Http.handle 6000 sample_random (Http.post_source "X" "u2" None) sample_http
    = (sample_http, Http.status_403).
Proof.
  split.
  - apply (proj1 (non_host_commands_rejected digits_to_number trim) 6000%Z sample_random
             sample_push "s2").
    intros rid room. rewrite sample_push_joined by (by right).
    intros [= <- <-]. by vm_compute.
  - apply (proj2 (non_host_commands_rejected digits_to_number trim) 6000%Z sample_random
             sample_http "X" sample_http_room "u2").
    + by vm_compute.
    + by vm_compute.
Defined.

(** A join with a blank room id: the room created has a six-letter code
    made of six draws in the unit interval. *)
Lemma generated_room_ids_are_codes_witness :
  let st' := (Push.handle digits_to_number trim 6000 sample_random
                (Push.room_join "s2" (Some "  ") None) sample_push).1 in
  ∃ room,
    Push.rooms st' !! makeRoomId sample_random = Some room
    ∧ Push.id room = makeRoomId sample_random
    ∧ is_room_code (Push.id room) = true
    ∧ Push.sockets st' !! "s2" = Some (Some (Push.id room)).
Proof.
  apply (proj1 (proj2 (proj2 (proj2 (generated_room_ids_are_codes digits_to_number trim))))
           6000%Z sample_random sample_push "s2" (Some "  ") None).
  - by_eval.
  - right. right. exists "  ". split; [reflexivity|by vm_compute].
  - intros i Hi. do 6 (destruct i as [|i]; [split; by_eval|]). lia.
  - by vm_compute.
Defined.

(** C4, as the specification words it, fails: the alphabet has 32 symbols,
    not 33, and a room created by joining with the unknown id "X" is
    registered with the id "X", which is no six-letter code. *)
Lemma room_id_taken_from_caller :
  String.length alphabet ≠ 33%nat
  ∧ ∃ room,
      Push.rooms (Push.run digits_to_number trim
                    [ push_input (Push.connection "s1");
                      push_input (Push.room_join "s1" (Some "X") None) ]) !! "X"
      = Some room
      ∧ Push.id room = "X"
      ∧ String.length (Push.id room) ≠ 6%nat
      ∧ is_room_code (Push.id room) = false.
Proof.
  split; [by vm_compute|]. eexists. split; [by vm_compute|]. by vm_compute.
Qed.

(** The host [s1] leaves the sample room: [s2] remains and becomes host. *)
Lemma host_reassigned_when_host_leaves_witness :
  ∃ room',
    Push.rooms (Push.handle digits_to_number trim 6000 sample_random
                  (Push.disconnect "s1") sample_push).1 !! "X" = Some room'
    ∧ Push.participants room' = JsMap.delete "s1" (Push.participants sample_push_room)
    ∧ ("s1" ∉ JsMap.keys (Push.participants room'))
    ∧ match Push.participants room' with
      | [] => Push.hostId room' = None
      | _ :: _ => (∃ h, Push.hostId room' = Some h
                        ∧ h ∈ JsMap.keys (Push.participants room'))
      end.
Proof.
  apply (host_reassigned_when_host_leaves digits_to_number trim 6000%Z sample_random
           sample_push "s1" "X" sample_push_room (Push.disconnect "s1")).
  - by vm_compute.
  - by vm_compute.
  - by right.
Defined.

(** The host of the sample room is one of its participants. *)
Lemma host_is_participant_invariant_witness :
  "s1" ∈ JsMap.keys (Push.participants sample_push_room).
Proof.
  apply (proj1 (proj2 (proj2 (proj2 (host_is_participant_invariant digits_to_number trim))))
           [ push_input (Push.connection "s1");
             push_input (Push.room_join "s1" (Some "X") None);
             push_input (Push.connection "s2");
             push_input (Push.room_join "s2" (Some " X ") (Some "bob")) ]
           "X" sample_push_room "s1").
  - by vm_compute.
  - by vm_compute.
Defined.

(** A text of 1001 characters is stored with 1000. *)
Lemma chat_truncated_and_history_bounded_witness :
  ∃ m, Http.text m = slice0 1000 long_text ∧ String.length (Http.text m) = 1000%nat.
Proof.
  destruct (proj1 (chat_truncated_and_history_bounded digits_to_number trim) 6000%Z
              sample_random sample_http "X" sample_http_room "u2" long_text None)
    as (m & _ & _ & Htext & Hlong & _).
  - by vm_compute.
  - exists m. split; [exact Htext|]. apply Hlong. by_eval.
Defined.

(** The host pauses the sample room without a time stamp: the rate is kept
    and the stamp is the server clock. *)
Lemma host_commands_keep_unnamed_fields_witness :
  Push.rooms (Push.handle digits_to_number trim 6000 sample_random
                (Push.ev_pause "s1" (JNum (Fin 1%Qc)) JUndefined) sample_push).1 !! "X"
  = Some (Push.with_playback
            (mkPlayback paused (Fin 1%Qc) (Fin 1%Qc) (of_Z 6000)) sample_push_room).
Proof.
  pose proof (proj1 (host_commands_keep_unnamed_fields digits_to_number trim) 6000%Z
                sample_random sample_push "s1" "X" sample_push_room) as H.
  destruct H as (_ & Hpause & _).
  - by vm_compute.
  - rewrite Hpause. vm_compute. reflexivity.
Defined.

(** C8, as the specification words it, fails in the socket server: a pause
    of the host that carries the stamp 3000 is stored with the stamp 3000
    when the server clock reads 6000. *)
Lemma pause_stamp_taken_from_command :
  ∃ room',
    Push.hosted_room "s1" sample_push = Some ("X", sample_push_room)
    ∧ Push.rooms (Push.handle digits_to_number trim 6000 sample_random
                    (Push.ev_pause "s1" (JNum (Fin 1%Qc)) (JNum (of_Z 3000)))
                    sample_push).1 !! "X" = Some room'
    ∧ ts (Push.playback room') = of_Z 3000
    ∧ ts (Push.playback room') ≠ of_Z 6000.
Proof.
  eexists. split; [by vm_compute|]. split; [by vm_compute|]. split; by_eval.
Qed.

(** The guest [s2] joins the sample room again under another name: the
    entry of the host [s1] is as it was. *)
Lemma join_idempotent_per_participant_witness :
  ∃ room2,
    Push.rooms (Push.handle digits_to_number trim 7000 sample_random
                  (Push.room_join "s2" (Some "X") (Some "rob")) sample_push).1 !! "X"
    = Some room2
    ∧ JsMap.keys (Push.participants room2) = ["s1"; "s2"]
    ∧ JsMap.get "s1" (Push.participants room2) = Some (Push.mkParticipant "s1" "Guest")
    ∧ Push.hostId room2 = Some "s1".
Proof.
  destruct (proj1 (join_idempotent_per_participant digits_to_number trim) 5000%Z 7000%Z
              sample_random sample_random
              (Push.run digits_to_number trim
                 [ push_input (Push.connection "s1");
                   push_input (Push.room_join "s1" (Some "X") None);
                   push_input (Push.connection "s2") ])
              "s2" "X" "X" (Some "bob") (Some "rob"))
    as (room1 & room2 & H1 & H2 & Hkeys & _ & _ & Hothers & Hhost & _).
  - by_eval.
  - by vm_compute.
  - by vm_compute.
  - by vm_compute.
  - exists room2. split; [exact H2|].
    assert (room1 = sample_push_room) as ->.
    { apply (inj Some). rewrite <- H1. by vm_compute. }
    split; [exact Hkeys|]. split; [|exact Hhost].
    apply (Hothers "s1"). by vm_compute.
Defined.

(** The host of the sample room sends [player:rate] with the rate 0: the
    stored rate is 1. *)
Lemma stored_rate_never_zero_nor_NaN_witness :
  ∃ room',
    Push.rooms (Push.handle digits_to_number trim 6000 sample_random
                  (Push.ev_rate "s1" (JNum (Fin 0%Qc)) JUndefined) sample_push).1 !! "X"
    = Some room'
    ∧ rate (Push.playback room') = Fin 1%Qc.
Proof.
  apply (proj2 (stored_rate_never_zero_nor_NaN digits_to_number trim) 6000%Z sample_random
           sample_push "s1" "X" sample_push_room).
  - by vm_compute.
  - right. left. reflexivity.
Defined.

(* ===================================================================== *)
(** * Further properties of the code                                      *)
(* ===================================================================== *)

(** ** How a handler changes the registry *)

Section PushSteps.
Variable StringToNumber : string → number.
Variable trim : string → string.
Abbreviation handle := (Push.handle StringToNumber trim).
Abbreviation run := (Push.run StringToNumber trim).
Abbreviation Num_or := (Number_or StringToNumber).

(** A handler leaves the registry as it is or replaces the room under one
    key, in one of the four ways of [push_change]. *)
Lemma handle_change now random ev st :
  Push.rooms (handle now random ev st).1 = Push.rooms st
  ∨ ∃ rid new,
      Push.rooms (handle now random ev st).1 = <[rid := new]> (Push.rooms st)
      ∧ push_change (event_sid ev) now rid (Push.rooms st !! rid) new.
Proof.
  destruct ev as [sid|sid roomId name0|sid|sid|sid payload|sid a r t|sid a t
                 |sid a t|sid r t|sid|sid text name0|sid]; simpl.
  - left. by destruct (Push.sockets st !! sid).
  - destruct (Push.sockets st !! sid) eqn:E; [|by left]. right.
    set (given := trim <$> _).
    set (rid := or_makeRoomId given random).
    set (random' := if str_truthy given then _ else _).
    destruct (Push.getOrCreateRoom now random' rid (Push.rooms st))
      as [[room key] rs] eqn:G.
    apply getOrCreateRoom_cases in G as [-> Hcase];
      [|apply or_makeRoomId_nonempty].
    exists rid. eexists. simpl. split.
    + destruct Hcase as [[Hr ->]|(Hr & -> & ->)]; [done|].
      by rewrite insert_insert_eq.
    + destruct Hcase as [[Hr ->]|(Hr & -> & ->)]; rewrite Hr.
      * apply (change_join sid now rid (Some room)).
      * apply (change_join sid now rid None).
  - destruct (Push.joined_room sid st) as [[rid room]|] eqn:J; [|by left]. right.
    apply joined_room_Some in J as [_ Hr].
    exists rid. eexists. simpl. split; [done|]. rewrite Hr. constructor.
  - destruct (Push.joined_room sid st) as [[rid room]|] eqn:J; [|by left].
    destruct (str_truthy (Push.hostId room)) eqn:Hh; [by left|]. right.
    apply joined_room_Some in J as [_ Hr].
    exists rid. eexists. simpl. split; [done|]. rewrite Hr. by constructor.
  - destruct (Push.hosted_room sid st) as [[rid room]|] eqn:J; [|by left].
    destruct payload as [p|]; [|by left].
    destruct (str_truthy (Push.p_type p) && str_truthy (Push.p_url p)); [|by left].
    right. apply hosted_room_Some in J as [J Hh].
    apply joined_room_Some in J as [_ Hr].
    exists rid. eexists. simpl. split; [done|]. rewrite Hr. by constructor.
  - destruct (Push.hosted_room sid st) as [[rid room]|] eqn:J; [|by left].
    right. apply hosted_room_Some in J as [J Hh].
    apply joined_room_Some in J as [_ Hr].
    exists rid. eexists. simpl. split; [done|]. rewrite Hr.
    by apply change_command.
  - destruct (Push.hosted_room sid st) as [[rid room]|] eqn:J; [|by left].
    right. apply hosted_room_Some in J as [J Hh].
    apply joined_room_Some in J as [_ Hr].
    exists rid. eexists. simpl. split; [done|]. rewrite Hr.
    by apply change_command.
  - destruct (Push.hosted_room sid st) as [[rid room]|] eqn:J; [|by left].
    right. apply hosted_room_Some in J as [J Hh].
    apply joined_room_Some in J as [_ Hr].
    exists rid. eexists. simpl. split; [done|]. rewrite Hr.
    by apply change_command.
  - destruct (Push.hosted_room sid st) as [[rid room]|] eqn:J; [|by left].
    right. apply hosted_room_Some in J as [J Hh].
    apply joined_room_Some in J as [_ Hr].
    exists rid. eexists. simpl. split; [done|]. rewrite Hr.
    by apply change_command.
  - left. by destruct (Push.joined_room sid st) as [[rid room]|].
  - left. destruct (Push.sockets st !! sid) as [j|]; [|done].
    by destruct (str_truthy j && str_truthy text).
  - destruct (Push.sockets st !! sid) as [j|] eqn:E; [|by left].
    destruct (Push.joined_room sid st) as [[rid room]|] eqn:J; [|by left]. right.
    apply joined_room_Some in J as [_ Hr].
    exists rid. eexists. simpl. split; [done|]. rewrite Hr. constructor.
Qed.


(** A property of the rooms that every change establishes holds in every
    state reached by events whose socket ids satisfy [S]. *)
Lemma push_invariant (S : string → Prop) (P : string → Push.Room → Prop) :
  (∀ sid now rid old new,
      S sid → push_change sid now rid old new →
      (∀ room, old = Some room → P rid room) → P rid new) →
  ∀ tr, Forall (λ i, S (event_sid (Push.i_event i))) tr →
        map_Forall P (Push.rooms (run tr)).
Proof.
  intros Hstep tr. unfold Push.run.
  assert (∀ st, map_Forall P (Push.rooms st) →
                Forall (λ i, S (event_sid (Push.i_event i))) tr →
                map_Forall P (Push.rooms (fold_left (Push.step StringToNumber trim) tr st)))
    as H.
  { induction tr as [|i tr IH]; intros st Hst Hall; simpl; [done|].
    apply Forall_cons in Hall as [Hi Hall]. apply IH; [|done].
    unfold Push.step.
    destruct (handle_change (Push.i_now i) (Push.i_random i) (Push.i_event i) st)
      as [-> | (rid & new & -> & Hch)]; [done|].
    apply map_Forall_insert_2; [|done].
    eapply Hstep; [done|done|]. intros room Hr. by apply (Hst rid room). }
  intros Hall. apply H; [apply map_Forall_empty|done].
Qed.

Lemma Forall_True_sids (tr : list Push.input) :
  Forall (λ i, (λ _ : string, True) (event_sid (Push.i_event i))) tr.
Proof. by apply Forall_forall. Qed.

End PushSteps.

(** The polling server: a request leaves the registry as it is or replaces
    the room it names, in one of the three ways of [http_change]. *)
Lemma http_handle_change now random req rs :
  (Http.handle now random req rs).1 = rs
  ∨ ∃ rid new,
      (Http.handle now random req rs).1 = <[rid := new]> rs
      ∧ http_change (request_uid req) now rid (rs !! rid) new.
Proof.
  destruct req as [roomId name0 uid|roomId|roomId uid src
                  |roomId uid action a to r|roomId uid text0 name0]; simpl.
  - right.
    destruct (Http.getOrCreateRoom now random roomId rs) as [[room key] rs1] eqn:G.
    apply http_getOrCreateRoom_cases in G as [_ Hcase].
    exists key. eexists. simpl. split.
    + destruct Hcase as [[Hr ->]|(Hr & -> & ->)]; [done|].
      by rewrite insert_insert_eq.
    + destruct Hcase as [[Hr ->]|(Hr & -> & ->)]; rewrite Hr.
      * apply (http_change_join uid now key (Some room)).
      * apply (http_change_join uid now key None).
  - left. by destruct (rs !! roomId).
  - destruct (rs !! roomId) as [room|] eqn:E; [|by left].
    case_bool_decide as Hh; simpl; [by left|]. right.
    assert (Http.hostId room = Some uid) as Hhost.
    { destruct (decide (Http.hostId room = Some uid)); [done|by destruct Hh]. }
    exists roomId. eexists. split; [done|]. rewrite E.
    by apply http_change_command.
  - destruct (rs !! roomId) as [room|] eqn:E; [|by left].
    case_bool_decide as Hh; simpl; [by left|]. right.
    assert (Http.hostId room = Some uid) as Hhost.
    { destruct (decide (Http.hostId room = Some uid)); [done|by destruct Hh]. }
    exists roomId. eexists. split; [done|]. rewrite E.
    unfold Http.apply_action.
    repeat case_bool_decide; try by apply http_change_command.
    destruct room. by apply http_change_command.
  - destruct (rs !! roomId) as [room|] eqn:E; [|by left]. right.
    exists roomId. eexists. simpl. split; [done|]. rewrite E. constructor.
Qed.

Lemma http_invariant (P : string → Http.Room → Prop) :
  (∀ uid now rid old new,
      http_change uid now rid old new →
      (∀ room, old = Some room → P rid room) → P rid new) →
  ∀ tr, map_Forall P (Http.run tr).
Proof.
  intros Hstep tr. unfold Http.run.
  assert (∀ rs, map_Forall P rs → map_Forall P (fold_left Http.step tr rs)) as H.
  { induction tr as [|i tr IH]; intros rs Hrs; simpl; [done|].
    apply IH. unfold Http.step.
    destruct (http_handle_change (Http.i_now i) (Http.i_random i) (Http.i_request i) rs)
      as [-> | (rid & new & -> & Hch)]; [done|].
    apply map_Forall_insert_2; [|done].
    eapply Hstep; [done|]. intros room Hr. by apply (Hrs rid room). }
  apply H, map_Forall_empty.
Qed.

(** ** Maps: entries *)

Section JsMapEntries.
Context {V : Type}.
Implicit Types (m : list (string * V)) (k x : string) (v w : V).

Lemma set_entry m k v x w :
  (x, w) ∈ JsMap.set k v m → (x = k ∧ w = v) ∨ (x, w) ∈ m.
Proof.
  induction m as [|[k' v'] r IH]; simpl.
  - rewrite list_elem_of_singleton. intros [= -> ->]. by left.
  - case_bool_decide as Hk; rewrite !elem_of_cons.
    + intros [[= -> ->]|Hin]; [by left|right; by right].
    + intros [Heq|Hin]; [right; by left|].
      destruct (IH Hin) as [?|?]; [by left|right; by right].
Qed.

Lemma delete_entry m k x w : (x, w) ∈ JsMap.delete k m → (x, w) ∈ m.
Proof.
  unfold JsMap.delete. rewrite !list_elem_of_In, filter_In. by intros [? _].
Qed.

Lemma keys_nil m : JsMap.keys m = [] ↔ m = [].
Proof. unfold JsMap.keys. by destruct m. Qed.

Lemma first_key_Some m : m ≠ [] → ∃ k, JsMap.first_key m = Some k ∧ k ∈ JsMap.keys m.
Proof.
  destruct m as [|[k v] r]; [done|]. intros _. exists k. split; [done|]. by left.
Qed.

Lemma entries_ok_set (pid : V → string) m k v :
  pid v = k → entries_ok pid m → entries_ok pid (JsMap.set k v m).
Proof.
  intros Hv [Hnd Hid]. split; [by apply keys_set_NoDup|].
  intros x w Hin. apply set_entry in Hin as [[-> ->]|Hin]; [done|by apply Hid].
Qed.

Lemma entries_ok_delete (pid : V → string) m k :
  entries_ok pid m → entries_ok pid (JsMap.delete k m).
Proof.
  intros [Hnd Hid]. split; [by apply keys_delete_NoDup|].
  intros x w Hin. by apply Hid, (delete_entry m k).
Qed.
End JsMapEntries.

(** ** The registry and the participants of both servers *)

Lemma push_change_id sid now rid old new :
  push_change sid now rid old new →
  ∀ room, old = Some room → Push.id new = Push.id room.
Proof. intros [o n|room|room Hh|room src pb Hh] r; intros [= ->]; done. Qed.

Lemma http_change_id uid now rid old new :
  http_change uid now rid old new →
  ∀ room, old = Some room → Http.id new = Http.id room.
Proof. intros [o n|room src pb Hh|room m] r; intros [= ->]; done. Qed.

Lemma push_change_keys sid now rid old new :
  push_change sid now rid old new →
  ∀ room p, old = Some room → p ≠ sid →
            p ∈ JsMap.keys (Push.participants room) →
            p ∈ JsMap.keys (Push.participants new).
Proof.
  intros [o n|room|room Hh|room src pb Hh] r p; intros [= ->] Hne Hin; simpl; try done.
  - apply keys_set_elem. by right.
  - by apply keys_delete_elem.
Qed.

Lemma http_change_keys uid now rid old new :
  http_change uid now rid old new →
  ∀ room p, old = Some room →
            p ∈ JsMap.keys (Http.participants room) →
            p ∈ JsMap.keys (Http.participants new).
Proof.
  intros [o n|room src pb Hh|room m] r p; intros [= ->] Hin; simpl; try done.
  apply keys_set_elem. by right.
Qed.

Lemma push_change_playback sid now rid old new :
  push_change sid now rid old new →
  ∀ room, old = Some room → Push.hostId room ≠ Some sid →
          Push.playback new = Push.playback room ∧ Push.source new = Push.source room.
Proof. intros [o n|room|room Hh|room src pb Hh] r; intros [= ->] Hne; done. Qed.

Lemma push_change_host sid now rid old new :
  push_change sid now rid old new →
  ∀ room h, old = Some room → Push.hostId room = Some h → h ≠ "" → h ≠ sid →
            Push.hostId new = Some h.
Proof.
  intros [o n|room|room Hh|room src pb Hh] r h; intros [= ->] Hhost Hh1 Hh2; simpl.
  - subst room. simpl. rewrite Hhost. by rewrite (proj2 (str_truthy_Some h) Hh1).
  - rewrite bool_decide_eq_false_2; [done|]. rewrite Hhost. congruence.
  - rewrite Hhost in Hh. by rewrite (proj2 (str_truthy_Some h) Hh1) in Hh.
  - done.
Qed.

Lemma http_change_host uid now rid old new :
  http_change uid now rid old new →
  ∀ room h, old = Some room → Http.hostId room = Some h → h ≠ "" →
            Http.hostId new = Some h
            ∧ (h ≠ uid → Http.playback new = Http.playback room
                          ∧ Http.source new = Http.source room).
Proof.
  intros [o n|room src pb Hh|room m] r h; intros [= ->] Hhost Hh1; simpl.
  - subst room. simpl. rewrite Hhost. by rewrite (proj2 (str_truthy_Some h) Hh1).
  - split; [done|]. intros Hne. congruence.
  - done.
Qed.

Section RegistryFacts.
Variable StringToNumber : string → number.
Variable trim : string → string.
Abbreviation handle := (Push.handle StringToNumber trim).
Abbreviation run := (Push.run StringToNumber trim).

(** X1.  One handler invocation of the socket server, and one request of
    the polling server, changes at most one room: of two different keys of
    the registry at least one holds after it what it held before. *)
Theorem handlers_change_one_room :
  (∀ now random ev st k1 k2,
      k1 ≠ k2 →
      Push.rooms (handle now random ev st).1 !! k1 = Push.rooms st !! k1
      ∨ Push.rooms (handle now random ev st).1 !! k2 = Push.rooms st !! k2)
  ∧ (∀ now random req rs k1 k2,
      k1 ≠ k2 →
      (Http.handle now random req rs).1 !! k1 = rs !! k1
      ∨ (Http.handle now random req rs).1 !! k2 = rs !! k2).
Proof.
  split.
  - intros now random ev st k1 k2 Hne.
    destruct (handle_change StringToNumber trim now random ev st)
      as [-> | (rid & new & -> & _)]; [by left|].
    destruct (decide (k1 = rid)) as [->|H1].
    + right. by rewrite lookup_insert_ne.
    + left. by rewrite lookup_insert_ne.
  - intros now random req rs k1 k2 Hne.
    destruct (http_handle_change now random req rs)
      as [-> | (rid & new & -> & _)]; [by left|].
    destruct (decide (k1 = rid)) as [->|H1].
    + right. by rewrite lookup_insert_ne.
    + left. by rewrite lookup_insert_ne.
Qed.

(** X2.  Rooms are never removed and keep their id: a room of the registry
    is still registered under the same key, with the same id, after any
    event of the socket server and any request of the polling server. *)
Theorem rooms_are_never_removed :
  (∀ now random ev st k room,
      Push.rooms st !! k = Some room →
      ∃ room', Push.rooms (handle now random ev st).1 !! k = Some room'
               ∧ Push.id room' = Push.id room)
  ∧ (∀ now random req rs k room,
      rs !! k = Some room →
      ∃ room', (Http.handle now random req rs).1 !! k = Some room'
               ∧ Http.id room' = Http.id room).
Proof.
  split.
  - intros now random ev st k room Hr.
    destruct (handle_change StringToNumber trim now random ev st)
      as [-> | (rid & new & -> & Hch)]; [by exists room|].
    destruct (decide (rid = k)) as [->|Hne].
    + exists new. rewrite lookup_insert_eq. split; [done|].
      by apply (push_change_id _ _ _ _ _ Hch).
    + exists room. by rewrite lookup_insert_ne.
  - intros now random req rs k room Hr.
    destruct (http_handle_change now random req rs)
      as [-> | (rid & new & -> & Hch)]; [by exists room|].
    destruct (decide (rid = k)) as [->|Hne].
    + exists new. rewrite lookup_insert_eq. split; [done|].
      by apply (http_change_id _ _ _ _ _ Hch).
    + exists room. by rewrite lookup_insert_ne.
Qed.

(** X3.  In every reachable state of either server a room is registered
    under its own id: the key of the registry and the field [id] agree. *)
Theorem registry_keys_are_room_ids :
  (∀ tr k room, Push.rooms (run tr) !! k = Some room → Push.id room = k)
  ∧ (∀ tr k room, Http.run tr !! k = Some room → Http.id room = k).
Proof.
  split.
  - intros tr k room Hr. destruct (sys_inv_run StringToNumber trim tr) as (Hk & _ & _).
    by apply Hk.
  - intros tr k room Hr.
    refine (http_invariant (λ rid r, Http.id r = rid) _ tr k room Hr).
    intros uid now rid old new Hch Hold.
    destruct old as [r|].
    + rewrite (http_change_id _ _ _ _ _ Hch r eq_refl). by apply Hold.
    + by inversion Hch.
Qed.

(** X4.  In every reachable state of either server the participants of a
    room are well formed: no participant id is entered twice, and every
    entry carries the key it is stored under as its id. *)
Theorem participant_entries_are_well_formed :
  (∀ tr k room,
      Push.rooms (run tr) !! k = Some room →
      entries_ok Push.pid (Push.participants room))
  ∧ (∀ tr k room,
      Http.run tr !! k = Some room →
      entries_ok Http.pid (Http.participants room)).
Proof.
  assert (∀ P (pid : P → string), entries_ok pid []) as Hnil.
  { intros P pid. split; [apply NoDup_nil_2|]. intros k p Hin.
    by apply elem_of_nil in Hin. }
  split.
  - intros tr k room Hr.
    refine (push_invariant StringToNumber trim (λ _, True)
              (λ _ r, entries_ok Push.pid (Push.participants r)) _ tr
              (Forall_True_sids tr) k room Hr).
    intros sid now rid old new _ Hch Hold.
    destruct Hch as [o n|r|r Hh|r src pb Hh]; simpl.
    + apply entries_ok_set; [done|]. destruct o as [r|]; [by apply Hold|apply Hnil].
    + apply entries_ok_delete. by apply Hold.
    + by apply Hold.
    + by apply Hold.
  - intros tr k room Hr.
    refine (http_invariant (λ _ r, entries_ok Http.pid (Http.participants r)) _
              tr k room Hr).
    intros uid now rid old new Hch Hold.
    destruct Hch as [o n|r src pb Hh|r m]; simpl.
    + apply entries_ok_set; [done|]. destruct o as [r|]; [by apply Hold|apply Hnil].
    + by apply Hold.
    + by apply Hold.
Qed.

(** X5.  An event of the socket server removes nobody but its sender: every
    other participant of every room is still a participant after it.  The
    polling server removes nobody at all. *)
Theorem only_the_sender_is_removed :
  (∀ now random ev st k room p,
      Push.rooms st !! k = Some room →
      p ∈ JsMap.keys (Push.participants room) → p ≠ event_sid ev →
      ∃ room', Push.rooms (handle now random ev st).1 !! k = Some room'
               ∧ p ∈ JsMap.keys (Push.participants room'))
  ∧ (∀ now random req rs k room p,
      rs !! k = Some room → p ∈ JsMap.keys (Http.participants room) →
      ∃ room', (Http.handle now random req rs).1 !! k = Some room'
               ∧ p ∈ JsMap.keys (Http.participants room')).
Proof.
  split.
  - intros now random ev st k room p Hr Hin Hne.
    destruct (handle_change StringToNumber trim now random ev st)
      as [-> | (rid & new & -> & Hch)]; [by exists room|].
    destruct (decide (rid = k)) as [->|Hk].
    + exists new. rewrite lookup_insert_eq. split; [done|].
      by apply (push_change_keys _ _ _ _ _ Hch room).
    + exists room. by rewrite lookup_insert_ne.
  - intros now random req rs k room p Hr Hin.
    destruct (http_handle_change now random req rs)
      as [-> | (rid & new & -> & Hch)]; [by exists room|].
    destruct (decide (rid = k)) as [->|Hk].
    + exists new. rewrite lookup_insert_eq. split; [done|].
      by apply (http_change_keys _ _ _ _ _ Hch room).
    + exists room. by rewrite lookup_insert_ne.
Qed.

(** X6.  Only the host's own events and requests change the playback or the
    source of a room: after an event of a socket that is not the host of a
    room, and after a request of a user that is not its host, the room has
    the playback and the source it had. *)
Theorem only_the_host_changes_playback :
  (∀ now random ev st k room,
      Push.rooms st !! k = Some room → Push.hostId room ≠ Some (event_sid ev) →
      ∃ room', Push.rooms (handle now random ev st).1 !! k = Some room'
               ∧ Push.playback room' = Push.playback room
               ∧ Push.source room' = Push.source room)
  ∧ (∀ now random req rs k room h,
      rs !! k = Some room → Http.hostId room = Some h → h ≠ "" →
      h ≠ request_uid req →
      ∃ room', (Http.handle now random req rs).1 !! k = Some room'
               ∧ Http.playback room' = Http.playback room
               ∧ Http.source room' = Http.source room).
Proof.
  split.
  - intros now random ev st k room Hr Hne.
    destruct (handle_change StringToNumber trim now random ev st)
      as [-> | (rid & new & -> & Hch)]; [by exists room|].
    destruct (decide (rid = k)) as [->|Hk].
    + exists new. rewrite lookup_insert_eq. split; [done|].
      by apply (push_change_playback _ _ _ _ _ Hch room).
    + exists room. by rewrite lookup_insert_ne.
  - intros now random req rs k room h Hr Hhost Hh Hne.
    destruct (http_handle_change now random req rs)
      as [-> | (rid & new & -> & Hch)]; [by exists room|].
    destruct (decide (rid = k)) as [->|Hk].
    + exists new. rewrite lookup_insert_eq. split; [done|].
      by apply (http_change_host _ _ _ _ _ Hch room h).
    + exists room. by rewrite lookup_insert_ne.
Qed.

(** X7.  A host with a non-empty id is displaced by nobody else: in the
    socket server it is still host after any event of another socket, and
    in the polling server, which has no way to leave, after any request. *)
Theorem host_is_displaced_by_nobody_else :
  (∀ now random ev st k room h,
      Push.rooms st !! k = Some room → Push.hostId room = Some h →
      h ≠ "" → h ≠ event_sid ev →
      ∃ room', Push.rooms (handle now random ev st).1 !! k = Some room'
               ∧ Push.hostId room' = Some h)
  ∧ (∀ now random req rs k room h,
      rs !! k = Some room → Http.hostId room = Some h → h ≠ "" →
      ∃ room', (Http.handle now random req rs).1 !! k = Some room'
               ∧ Http.hostId room' = Some h).
Proof.
  split.
  - intros now random ev st k room h Hr Hhost Hh Hne.
    destruct (handle_change StringToNumber trim now random ev st)
      as [-> | (rid & new & -> & Hch)]; [by exists room|].
    destruct (decide (rid = k)) as [->|Hk].
    + exists new. rewrite lookup_insert_eq. split; [done|].
      by apply (push_change_host _ _ _ _ _ Hch room).
    + exists room. by rewrite lookup_insert_ne.
  - intros now random req rs k room h Hr Hhost Hh.
    destruct (http_handle_change now random req rs)
      as [-> | (rid & new & -> & Hch)]; [by exists room|].
    destruct (decide (rid = k)) as [->|Hk].
    + exists new. rewrite lookup_insert_eq. split; [done|].
      by apply (http_change_host _ _ _ _ _ Hch room h).
    + exists room. by rewrite lookup_insert_ne.
Qed.

End RegistryFacts.

(** ** Hosts and sockets of the socket server *)

Lemma host_present_change sid now rid old new :
  sid ≠ "" → push_change sid now rid old new →
  (∀ room, old = Some room → host_present room) → host_present new.
Proof.
  intros Hsid Hch Hold.
  destruct Hch as [o n|r|r Hh|r src pb Hh]; simpl.
  - assert (host_present room) as [Hkeys Hhost].
    { subst room. destruct o as [r|]; simpl; [by apply Hold|].
      split; [by intros ?%elem_of_nil|done]. }
    split; simpl.
    + rewrite keys_set_elem. intros [?|?]; [by apply Hsid|done].
    + intros _. destruct (str_truthy (Push.hostId room)) eqn:E; [done|].
      by apply str_truthy_Some.
  - destruct (Hold r eq_refl) as [Hkeys Hhost]. split; simpl.
    + rewrite keys_delete_elem. by intros [_ ?].
    + intros Hne. case_bool_decide as Hs.
      * destruct (first_key_Some _ Hne) as (k & -> & Hk).
        apply str_truthy_Some. intros ->.
        apply keys_delete_elem in Hk as [_ Hk]. done.
      * apply Hhost. intros Hnil. apply Hne. by rewrite Hnil.
  - destruct (Hold r eq_refl) as [Hkeys Hhost]. split; simpl; [done|].
    intros _. by apply str_truthy_Some.
  - exact (Hold r eq_refl).
Qed.

Lemma not_in_room_joined sid st : not_in_room sid st → Push.joined_room sid st = None.
Proof.
  unfold not_in_room, Push.joined_room.
  destruct (Push.sockets st !! sid) as [[j|]|]; try done.
  simpl. rewrite negb_false_iff, bool_decide_eq_true. by intros ->.
Qed.

Section SocketFacts.
Variable StringToNumber : string → number.
Variable trim : string → string.
Abbreviation handle := (Push.handle StringToNumber trim).
Abbreviation run := (Push.run StringToNumber trim).

Lemma not_in_room_dropped now random ev st :
  not_in_room (event_sid ev) st → room_event ev = true →
  handle now random ev st = (st, []).
Proof.
  intros Hnot Hev. pose proof (not_in_room_joined _ _ Hnot) as J.
  assert (Push.hosted_room (event_sid ev) st = None) as Hh.
  { unfold Push.hosted_room. by rewrite J. }
  destruct ev as [sid|sid roomId name0|sid|sid|sid payload|sid a r t|sid a t
                 |sid a t|sid r t|sid|sid text name0|sid];
    try done; simpl in *; rewrite ?J, ?Hh; try done.
  unfold not_in_room in Hnot. destruct (Push.sockets st !! sid) as [j|]; [|done].
  by rewrite Hnot.
Qed.

(** X8.  In every state reached by events of sockets with non-empty ids, no
    participant has the empty id, and a room that has a participant has a
    host: [hostId] is neither [null] nor empty. *)
Theorem occupied_rooms_have_a_host :
  ∀ tr k room,
    Forall (λ i, event_sid (Push.i_event i) ≠ "") tr →
    Push.rooms (run tr) !! k = Some room →
    Push.participants room ≠ [] →
    ∃ h, Push.hostId room = Some h ∧ h ≠ "".
Proof.
  intros tr k room Hall Hr Hne.
  assert (host_present room) as [_ Hhost].
  { refine (push_invariant StringToNumber trim (λ sid, sid ≠ "") (λ _ r, host_present r)
              _ tr Hall k room Hr).
    intros sid now rid old new Hsid Hch Hold. by eapply host_present_change. }
  specialize (Hhost Hne). destruct (Push.hostId room) as [h|]; [|done].
  exists h. split; [done|]. by apply str_truthy_Some.
Qed.

(** X9.  [role:become-host] never takes effect: in every state reached by
    events of sockets with non-empty ids the handler changes nothing and
    sends nothing, because the room of a socket always has a host. *)
Theorem become_host_never_takes_effect :
  ∀ tr now random sid,
    Forall (λ i, event_sid (Push.i_event i) ≠ "") tr →
    handle now random (Push.role_become_host sid) (run tr) = (run tr, []).
Proof.
  intros tr now random sid Hall. simpl.
  destruct (Push.joined_room sid (run tr)) as [[rid room]|] eqn:J; [|done].
  apply joined_room_Some in J as [Hs Hr].
  destruct (sys_inv_run StringToNumber trim tr) as (_ & _ & Hj).
  destruct (Hj sid rid Hs) as (room0 & Hr0 & Hin).
  assert (room0 = room) as -> by congruence.
  assert (host_present room) as [_ Hhost].
  { refine (push_invariant StringToNumber trim (λ sid, sid ≠ "") (λ _ r, host_present r)
              _ tr Hall rid room Hr).
    intros s now' rid' old new Hsid Hch Hold. by eapply host_present_change. }
  rewrite Hhost; [done|]. intros Hnil. rewrite Hnil in Hin. by apply elem_of_nil in Hin.
Qed.

(** X10.  An event of a socket that has no room (an unknown socket, or one
    whose [joinedRoomId] is [null]) is dropped unless it is a connection, a
    join or a disconnect: the state is unchanged and nothing is sent.  The
    disconnect of such a socket changes no room and sends nothing. *)
Theorem events_outside_a_room_are_dropped :
  ∀ now random ev st,
    not_in_room (event_sid ev) st →
    (room_event ev = true → handle now random ev st = (st, []))
    ∧ (∀ sid, ev = Push.disconnect sid →
              Push.rooms (handle now random ev st).1 = Push.rooms st
              ∧ (handle now random ev st).2 = []).
Proof.
  intros now random ev st Hnot. split; [by apply not_in_room_dropped|].
  intros sid ->. simpl in *. pose proof (not_in_room_joined _ _ Hnot) as J.
  rewrite J. by destruct (Push.sockets st !! sid).
Qed.

(** X11.  After [room:leave] the socket has no room: whatever it sends next,
    other than a new join or its disconnect, is dropped. *)
Theorem commands_after_leave_are_dropped :
  ∀ now random now' random' st sid rid room ev,
    Push.joined_room sid st = Some (rid, room) →
    event_sid ev = sid → room_event ev = true →
    let st' := (handle now random (Push.room_leave sid) st).1 in
    handle now' random' ev st' = (st', []).
Proof.
  intros now random now' random' st sid rid room ev J Hev Hroom st'.
  apply not_in_room_dropped; [|done]. rewrite Hev.
  subst st'. simpl. rewrite J. unfold not_in_room. simpl.
  by rewrite lookup_insert_eq.
Qed.

End SocketFacts.

(** ** Playback in the socket server *)

Lemma nor_not_NaN (x d : number) : d ≠ NaN → nor x d ≠ NaN.
Proof.
  intros Hd. unfold nor. destruct (num_truthy x) eqn:E; [|done].
  by apply num_truthy_spec in E as [? _].
Qed.

Lemma effectiveTime_Fin (now : Z) (a r t : Qc) :
  effectiveTime now (mkPlayback playing (Fin a) (Fin r) (Fin t))
  = Fin (a + (ms now - t) / ms 1000 * (if bool_decide (r = 0%Qc) then 1 else r))%Qc.
Proof.
  unfold effectiveTime. cbn [status at_ rate ts].
  unfold nsub, of_Z. fold (ms now). cbn [nneg nadd]. rewrite ndiv_thousand.
  unfold nor. simpl num_truthy.
  destruct (decide (r = 0%Qc)) as [->|Hr].
  - reflexivity.
  - rewrite (bool_decide_eq_false_2 (r = 0%Qc)) by done.
    rewrite (bool_decide_eq_true_2 (r ≠ 0%Qc)) by done. reflexivity.
Qed.

Section PlaybackFacts.
Variable StringToNumber : string → number.
Variable trim : string → string.
Abbreviation handle := (Push.handle StringToNumber trim).
Abbreviation run := (Push.run StringToNumber trim).
Abbreviation Num_or := (Number_or StringToNumber).

Lemma Number_or_not_NaN v d : d ≠ NaN → Num_or v d ≠ NaN.
Proof. apply nor_not_NaN. Qed.

Lemma playback_ok_handle now random ev st :
  map_Forall (λ _ room, playback_ok room) (Push.rooms st) →
  map_Forall (λ _ room, playback_ok room) (Push.rooms (handle now random ev st).1).
Proof.
  intros Hinv.
  assert (∀ sid rid room, Push.hosted_room sid st = Some (rid, room) → playback_ok room)
    as Hhosted.
  { intros sid rid room J. apply hosted_room_Some in J as [J _].
    apply joined_room_Some in J as [_ Hr]. by apply (Hinv rid room). }
  assert (∀ sid rid room, Push.joined_room sid st = Some (rid, room) → playback_ok room)
    as Hjoined.
  { intros sid rid room J. apply joined_room_Some in J as [_ Hr].
    by apply (Hinv rid room). }
  assert (∀ v, Num_or v (Fin 0%Qc) ≠ NaN) as Hat by (intros v; by apply nor_not_NaN).
  assert (∀ v, Num_or v (of_Z now) ≠ NaN) as Hts by (intros v; by apply nor_not_NaN).
  destruct ev as [sid|sid roomId name0|sid|sid|sid payload|sid a r t|sid a t
                 |sid a t|sid r t|sid|sid text name0|sid]; simpl.
  - by destruct (Push.sockets st !! sid).
  - destruct (Push.sockets st !! sid) eqn:E; [|done].
    set (given := trim <$> _).
    set (rid := or_makeRoomId given random).
    set (random' := if str_truthy given then _ else _).
    destruct (Push.getOrCreateRoom now random' rid (Push.rooms st))
      as [[room key] rs] eqn:G.
    apply getOrCreateRoom_cases in G as [-> Hcase];
      [|apply or_makeRoomId_nonempty].
    simpl. destruct Hcase as [[Hr ->]|(Hr & -> & ->)].
    + apply map_Forall_insert_2; [|done]. exact (Hinv rid room Hr).
    + rewrite insert_insert_eq. apply map_Forall_insert_2; [|done]. by split.
  - destruct (Push.joined_room sid st) as [[rid room]|] eqn:J; [|done]. simpl.
    apply map_Forall_insert_2; [|done]. exact (Hjoined sid rid room J).
  - destruct (Push.joined_room sid st) as [[rid room]|] eqn:J; [|done].
    destruct (str_truthy (Push.hostId room)); [done|]. simpl.
    apply map_Forall_insert_2; [|done]. exact (Hjoined sid rid room J).
  - destruct (Push.hosted_room sid st) as [[rid room]|] eqn:J; [|done].
    destruct payload as [p|]; [|done].
    destruct (str_truthy (Push.p_type p) && str_truthy (Push.p_url p)); [|done].
    simpl. apply map_Forall_insert_2; [|done]. by split.
  - destruct (Push.hosted_room sid st) as [[rid room]|] eqn:J; [|done]. simpl.
    apply map_Forall_insert_2; [|done]. split; simpl; [apply Hat|apply Hts].
  - destruct (Push.hosted_room sid st) as [[rid room]|] eqn:J; [|done]. simpl.
    apply map_Forall_insert_2; [|done]. split; simpl; [apply Hat|apply Hts].
  - destruct (Push.hosted_room sid st) as [[rid room]|] eqn:J; [|done]. simpl.
    apply map_Forall_insert_2; [|done]. split; simpl; [apply Hat|apply Hts].
  - destruct (Push.hosted_room sid st) as [[rid room]|] eqn:J; [|done]. simpl.
    apply map_Forall_insert_2; [|done]. split; simpl; [|apply Hts].
    by destruct (Hhosted sid rid room J).
  - by destruct (Push.joined_room sid st) as [[rid room]|].
  - destruct (Push.sockets st !! sid) as [j|]; [|done].
    by destruct (str_truthy j && str_truthy text).
  - destruct (Push.sockets st !! sid) as [j|] eqn:E; [|done].
    destruct (Push.joined_room sid st) as [[rid room]|] eqn:J; simpl; [|done].
    apply map_Forall_insert_2; [|done]. exact (Hjoined sid rid room J).
Qed.

(** X12.  In every reachable state of the socket server the stored position
    and time stamp are numbers: neither [at] nor [ts] is [NaN], whatever the
    commands carried. *)
Theorem stored_position_and_stamp_are_numbers :
  ∀ tr k room,
    Push.rooms (run tr) !! k = Some room →
    at_ (Push.playback room) ≠ NaN ∧ ts (Push.playback room) ≠ NaN.
Proof.
  intros tr k room Hr. revert k room Hr. unfold Push.run.
  assert (∀ st, map_Forall (λ _ room, playback_ok room) (Push.rooms st) →
                map_Forall (λ _ room, playback_ok room)
                  (Push.rooms (fold_left (Push.step StringToNumber trim) tr st))) as H.
  { induction tr as [|i tr IH]; intros st Hst; simpl; [done|].
    apply IH. by apply playback_ok_handle. }
  apply H. apply map_Forall_empty.
Qed.

(** X13.  [sync:request] changes nothing and answers the asking socket alone
    with the snapshot re-based to the present: the position is
    [effectiveTime], the stamp is the clock.  Extrapolating what is sent
    gives, at every instant, the position that extrapolating the stored
    snapshot gives. *)
Theorem sync_request_rebases_the_snapshot :
  ∀ now random st sid rid room,
    Push.joined_room sid st = Some (rid, room) →
    let pb := Push.playback room in
    let sent := mkPlayback (status pb) (effectiveTime now pb) (rate pb) (of_Z now) in
    handle now random (Push.sync_request sid) st
    = (st, [Push.to_socket sid
              (Push.sync_state (status sent) (at_ sent) (rate sent) (ts sent)
                 (Push.source room) (Push.hostId room))])
    ∧ (∀ (now' : Z) (a r t : Qc),
          at_ pb = Fin a → rate pb = Fin r → ts pb = Fin t →
          effectiveTime now' sent = effectiveTime now' pb).
Proof.
  intros now random st sid rid room J pb sent. split.
  - simpl. by rewrite J.
  - intros now' a r t Ha Hr Ht. subst sent.
    destruct pb as [s a0 r0 t0]. simpl in Ha, Hr, Ht. subst a0 r0 t0.
    destruct s; [reflexivity|].
    cbn [status rate]. rewrite (effectiveTime_Fin now a r t).
    unfold of_Z. fold (ms now). rewrite !effectiveTime_Fin.
    f_equal. field. apply ms_1000_nonzero.
Qed.

(** X14.  Server and client agree at the normal rate: when a non-host client
    receives, at any later instant, the [sync:state] the server sent for a
    playing snapshot of rate 1, the position it seeks to is the server's
    [effectiveTime] of the stored snapshot at that instant. *)
Theorem sync_state_target_matches_server_at_unit_rate :
  ∀ (now now' : Z) (cur : number) (a t : Qc) (src : option Source),
    let pb := mkPlayback playing (Fin a) (Fin 1%Qc) (Fin t) in
    let sent := mkPlayback playing (effectiveTime now pb) (Fin 1%Qc) (of_Z now) in
    let target := effectiveTime now' pb in
    Client.on_sync_state now' cur false true src src sent
    = Client.Calls ((if ngt (nabs (nsub cur target)) Client.threshold_sync
                     then [Client.seek target; Client.play] else [Client.play])
                    ++ [Client.setRate (Fin 1%Qc)]).
Proof.
  intros now now' cur a t src pb sent target.
  assert (Client.compensated now' (effectiveTime now pb) (of_Z now) = target) as Hc.
  { subst target pb. rewrite !effectiveTime_Fin. unfold of_Z. fold (ms now).
    rewrite compensated_Fin. f_equal.
    rewrite bool_decide_eq_false_2 by by_eval. field. apply ms_1000_nonzero. }
  unfold Client.on_sync_state, sent. cbn [status at_ rate ts orb negb].
  rewrite Hc.
  destruct src as [s|]; [rewrite bool_decide_eq_true_2 by reflexivity|]; reflexivity.
Qed.

End PlaybackFacts.

Lemma joined_room_store sid st rid room room' :
  Push.joined_room sid st = Some (rid, room) →
  Push.joined_room sid (Push.store rid room' st) = Some (rid, room').
Proof.
  unfold Push.joined_room, Push.store. simpl.
  destruct (Push.sockets st !! sid) as [[j|]|]; try done.
  case_bool_decide; [done|].
  destruct (Push.rooms st !! j) eqn:E; simpl; [|done].
  intros [= -> ->]. by rewrite lookup_insert_eq.
Qed.

Section Compositions.
Variable StringToNumber : string → number.
Variable trim : string → string.
Abbreviation handle := (Push.handle StringToNumber trim).
Abbreviation run := (Push.run StringToNumber trim).

(** X15.  A play of the host followed by a [sync:request] of any socket of
    the room: for a play at position [a] with a rate [r] and a stamp [t]
    that are not zero, the answer at the instant [now'] reports the position
    [a + (now' - t) / 1000 * r], playing, at rate [r]. *)
Theorem play_then_sync_reports_the_extrapolation :
  ∀ now now' random random' st sid sid2 rid room (a r t : Qc),
    Push.hosted_room sid st = Some (rid, room) →
    Push.joined_room sid2 st = Some (rid, room) →
    r ≠ 0%Qc → t ≠ 0%Qc →
    let st' := (handle now random
                  (Push.ev_play sid (JNum (Fin a)) (JNum (Fin r)) (JNum (Fin t))) st).1 in
    handle now' random' (Push.sync_request sid2) st'
    = (st', [Push.to_socket sid2
               (Push.sync_state playing
                  (Fin (a + (ms now' - t) / ms 1000 * r)%Qc) (Fin r) (of_Z now')
                  (Push.source room) (Push.hostId room))]).
Proof.
  intros now now' random random' st sid sid2 rid room a r t H J Hr Ht st'.
  subst st'. simpl. rewrite H. simpl.
  rewrite (joined_room_store sid2 st rid room _ J). simpl.
  assert (Number_or StringToNumber (JNum (Fin a)) (Fin 0%Qc) = Fin a) as ->.
  { unfold Number_or, nor. simpl.
    destruct (decide (a = 0%Qc)) as [->|Ha]; [done|].
    by rewrite bool_decide_eq_true_2. }
  rewrite !Number_or_truthy by (simpl; congruence). simpl.
  rewrite effectiveTime_Fin. by rewrite bool_decide_eq_false_2.
Qed.

(** X16.  Setting the source restarts playback: after an accepted
    [player:set-source] of the host, whatever the playback was, a
    [sync:request] of any socket of the room reports, at every later
    instant, paused at position 0 with rate 1, and the new source.  A
    payload without a type or without a url is dropped. *)
Theorem set_source_restarts_playback :
  ∀ now now' random random' st sid sid2 rid room p,
    Push.hosted_room sid st = Some (rid, room) →
    Push.joined_room sid2 st = Some (rid, room) →
    let st' := (handle now random (Push.set_source sid (Some p)) st).1 in
    (str_truthy (Push.p_type p) && str_truthy (Push.p_url p) = true →
     ∃ src,
       Some (type src) = Push.p_type p ∧ Some (url src) = Push.p_url p
       ∧ handle now' random' (Push.sync_request sid2) st'
         = (st', [Push.to_socket sid2
                    (Push.sync_state paused (Fin 0%Qc) (Fin 1%Qc) (of_Z now')
                       (Some src) (Push.hostId room))]))
    ∧ (str_truthy (Push.p_type p) && str_truthy (Push.p_url p) = false →
       handle now random (Push.set_source sid (Some p)) st = (st, [])).
Proof.
  intros now now' random random' st sid sid2 rid room p H J st'. split.
  - intros Hvalid. subst st'. simpl. rewrite H, Hvalid. simpl.
    eexists. split; [|split]; [| |rewrite (joined_room_store sid2 st rid room _ J); done].
    + simpl. apply andb_prop in Hvalid as [Ht _]. by destruct (Push.p_type p).
    + simpl. apply andb_prop in Hvalid as [_ Hu]. by destruct (Push.p_url p).
  - intros Hinvalid. simpl. by rewrite H, Hinvalid.
Qed.

End Compositions.

(** ** The polling server: routes *)

Lemma slice_last_suffix {A} (n : nat) (l : list A) :
  ∃ older, l = older ++ Http.slice_last n l.
Proof. exists (take (length l - n) l). unfold Http.slice_last. by rewrite take_drop. Qed.

Lemma slice_last_all {A} (n : nat) (l : list A) :
  (length l ≤ n)%nat → Http.slice_last n l = l.
Proof. intros H. unfold Http.slice_last. by replace (length l - n)%nat with 0%nat by lia. Qed.

Lemma slice_last_last {A} (n : nat) (l : list A) :
  last (Http.slice_last (S n) l) = last l.
Proof.
  destruct l as [|x l _] using rev_ind; [done|].
  rewrite slice_last_snoc. by rewrite !last_snoc.
Qed.

(** X17.  The routes that name a room answer 404 exactly when the registry
    has no room of that id, and then leave the registry as it is; a join
    never answers 404. *)
Theorem unknown_room_is_404 :
  (∀ now random req rs rid,
      request_room req = Some rid →
      (∀ roomId name0 uid, req ≠ Http.post_join roomId name0 uid) →
      ((Http.handle now random req rs).2 = Http.status_404 ↔ rs !! rid = None)
      ∧ (rs !! rid = None → (Http.handle now random req rs).1 = rs))
  ∧ (∀ now random roomId name0 uid rs,
      (Http.handle now random (Http.post_join roomId name0 uid) rs).2
      ≠ Http.status_404).
Proof.
  split.
  - intros now random req rs rid Hroom Hnj.
    destruct req as [roomId name0 uid|roomId|roomId uid src
                    |roomId uid action a to r|roomId uid text0 name0];
      [by destruct (Hnj roomId name0 uid)|..];
      simpl in Hroom; injection Hroom as ->; simpl;
      destruct (rs !! rid) as [room|] eqn:E; simpl; try done;
      try case_bool_decide; simpl; split; try done; by split.
  - intros now random roomId name0 uid rs. simpl.
    by destruct (Http.getOrCreateRoom now random roomId rs) as [[room key] rs1].
Qed.

(** X18.  A poll reads and does not write: the registry is unchanged, and
    the answer carries the summary, the participants and the most recent
    messages of the room, at most 20 of them and all of them when the
    history has no more. *)
Theorem poll_is_read_only_and_bounded :
  ∀ now random rs rid room,
    rs !! rid = Some room →
    ∃ msgs older,
      Http.handle now random (Http.get_room rid) rs
      = (rs, Http.room_view (Http.summary room) (JsMap.values (Http.participants room))
               msgs)
      ∧ Http.messages room = older ++ msgs
      ∧ (length msgs ≤ 20)%nat
      ∧ ((length (Http.messages room) ≤ 20)%nat → msgs = Http.messages room).
Proof.
  intros now random rs rid room Hr.
  destruct (slice_last_suffix 20 (Http.messages room)) as [older Holder].
  exists (Http.slice_last 20 (Http.messages room)), older.
  split; [simpl; by rewrite Hr|]. split; [done|]. split.
  - rewrite slice_last_length. lia.
  - apply slice_last_all.
Qed.

(** X19.  A posted message is seen by the next poll: after a chat post to a
    room, a poll of that room lists the new message last, with the text cut
    to 1000 characters, the name (or Anon), the user id and the time of the
    post. *)
Theorem posted_message_is_polled :
  ∀ now now' random random' rs rid room uid text0 name0,
    rs !! rid = Some room →
    let rs' := (Http.handle now random (Http.post_chat rid uid text0 name0) rs).1 in
    ∃ view ps msgs,
      Http.handle now' random' (Http.get_room rid) rs' = (rs', Http.room_view view ps msgs)
      ∧ last msgs
        = Some (Http.mkMessage (pretty now) (slice0 1000 text0) (sor name0 "Anon") uid now)
      ∧ view = Http.summary room
      ∧ ps = JsMap.values (Http.participants room).
Proof.
  intros now now' random random' rs rid room uid text0 name0 Hr rs'.
  subst rs'. simpl. rewrite Hr. simpl. rewrite lookup_insert_eq.
  do 3 eexists. split; [done|]. split; [|done].
  change 20%nat with (S 19). rewrite slice_last_last. apply push_message_last.
Qed.

(** X20.  A join is seen by the next poll, and the first to join a new room
    becomes its host: the poll answers with the summary and the participants
    the join answered with, the joining user among them under the given
    name (or Guest). *)
Theorem joined_user_is_polled :
  ∀ now now' random random' rs rid name0 uid,
    rid ≠ "" →
    let rs' := (Http.handle now random (Http.post_join (Some rid) name0 uid) rs).1 in
    ∃ room',
      rs' !! rid = Some room'
      ∧ (Http.handle now random (Http.post_join (Some rid) name0 uid) rs).2
        = Http.joined (Http.summary room') (JsMap.values (Http.participants room'))
      ∧ Http.handle now' random' (Http.get_room rid) rs'
        = (rs', Http.room_view (Http.summary room')
                  (JsMap.values (Http.participants room'))
                  (Http.slice_last 20 (Http.messages room')))
      ∧ JsMap.get uid (Http.participants room')
        = Some (Http.mkParticipant uid (sor name0 "Guest") now)
      ∧ (rs !! rid = None → uid ≠ "" → Http.hostId room' = Some uid).
Proof.
  intros now now' random random' rs rid name0 uid Hrid rs'. subst rs'. simpl.
  destruct (Http.getOrCreateRoom now random (Some rid) rs) as [[room key] rs1] eqn:G.
  apply http_getOrCreateRoom_cases in G as [-> Hcase].
  rewrite or_makeRoomId_given in * by done. simpl.
  eexists. rewrite lookup_insert_eq. split; [done|]. split; [done|].
  split; [done|]. simpl. split; [apply get_set|].
  intros Hnone Huid. destruct Hcase as [[Hr _]|(_ & _ & ->)]; [congruence|]. done.
Qed.

(** X21.  The playback route writes the playback and nothing else: after a
    request of the host the room has the id, host, participants, source and
    messages it had, whatever the action; an action other than play, pause,
    seek and rate leaves the whole registry as it is and still answers
    success. *)
Theorem playback_route_writes_playback_only :
  ∀ now random rs rid room uid action a to r,
    rs !! rid = Some room → Http.hostId room = Some uid →
    (∃ pb,
       Http.handle now random (Http.post_playback rid uid action a to r) rs
       = (<[rid := Http.with_playback pb room]> rs, Http.success))
    ∧ (action ≠ "play" → action ≠ "pause" → action ≠ "seek" → action ≠ "rate" →
       Http.handle now random (Http.post_playback rid uid action a to r) rs
       = (rs, Http.success)).
Proof.
  intros now random rs rid room uid action a to r Hr Hhost. simpl. rewrite Hr.
  rewrite bool_decide_eq_false_2 by (intros H; by apply H).
  unfold Http.apply_action. split.
  - repeat case_bool_decide; try by eexists.
    exists (Http.playback room). by destruct room.
  - intros H1 H2 H3 H4. rewrite !bool_decide_eq_false_2 by done.
    by rewrite insert_id.
Qed.

(** ** Text utilities *)

Lemma append_cons (c : ascii) (s t : string) :
  String.append (String c s) t = String c (String.append s t).
Proof. reflexivity. Qed.

Lemma append_nil_l (t : string) : String.append EmptyString t = t.
Proof. reflexivity. Qed.

Lemma append_assoc (s t u : string) :
  String.append (String.append s t) u = String.append s (String.append t u).
Proof. induction s as [|c s IH]; [done|]. rewrite !append_cons. by f_equal. Qed.

Lemma chars_append (s t : string) :
  list_ascii_of_string (String.append s t)
  = list_ascii_of_string s ++ list_ascii_of_string t.
Proof. induction s as [|c s IH]; [done|]. rewrite append_cons. simpl. by f_equal. Qed.

Lemma length_append (s t : string) :
  String.length (String.append s t) = (String.length s + String.length t)%nat.
Proof. induction s as [|c s IH]; [done|]. rewrite append_cons. simpl. by f_equal. Qed.

Lemma entity_plain (c : ascii) :
  Ui.is_special c = false → Ui.entity c = String c EmptyString.
Proof.
  unfold Ui.is_special, Ui.entity. rewrite bool_decide_eq_false. intros H.
  repeat (case_bool_decide; [exfalso; apply H; tauto|]). done.
Qed.

Lemma entity_special (c : ascii) :
  Ui.is_special c = true →
  (c = Ui.amp ∧ Ui.entity c = "&amp;") ∨ (c = Ui.lt ∧ Ui.entity c = "&lt;")
  ∨ (c = Ui.gt ∧ Ui.entity c = "&gt;") ∨ (c = Ui.quot ∧ Ui.entity c = "&quot;")
  ∨ (c = Ui.apos ∧ Ui.entity c = "&#039;").
Proof.
  unfold Ui.is_special. rewrite bool_decide_eq_true.
  intros [-> | [-> | [-> | [-> | ->]]]]; vm_compute; tauto.
Qed.

Lemma entity_chars (c x : ascii) :
  x ∈ list_ascii_of_string (Ui.entity c) →
  x ≠ Ui.lt ∧ x ≠ Ui.gt ∧ x ≠ Ui.quot ∧ x ≠ Ui.apos.
Proof.
  destruct (Ui.is_special c) eqn:E.
  - destruct (entity_special c E) as [[_ ->]|[[_ ->]|[[_ ->]|[[_ ->]|[_ ->]]]]];
      simpl; rewrite ?elem_of_cons, elem_of_nil;
      intros H; repeat (destruct H as [->|H]; [by vm_compute|]); done.
  - rewrite (entity_plain c E). simpl. rewrite list_elem_of_singleton. intros ->.
    unfold Ui.is_special in E. apply bool_decide_eq_false in E.
    repeat split; intros ->; apply E; tauto.
Qed.

Lemma entity_length (c : ascii) : (1 ≤ String.length (Ui.entity c))%nat.
Proof.
  destruct (Ui.is_special c) eqn:E.
  - destruct (entity_special c E) as [[_ ->]|[[_ ->]|[[_ ->]|[[_ ->]|[_ ->]]]]];
      simpl; lia.
  - rewrite (entity_plain c E). simpl. lia.
Qed.

Lemma escapeHtml_append (s t : string) :
  Ui.escapeHtml (String.append s t)
  = String.append (Ui.escapeHtml s) (Ui.escapeHtml t).
Proof.
  induction s as [|c s IH]; [done|]. rewrite append_cons. simpl.
  by rewrite IH, append_assoc.
Qed.

(** Two escaped texts that agree come from the same text. *)
Lemma escapeHtml_inj (s t : string) : Ui.escapeHtml s = Ui.escapeHtml t → s = t.
Proof.
  revert t. induction s as [|c s IH]; intros [|d t]; simpl.
  - done.
  - intros H. apply (f_equal String.length) in H. rewrite length_append in H.
    pose proof (entity_length d). simpl in H. lia.
  - intros H. apply (f_equal String.length) in H. rewrite length_append in H.
    pose proof (entity_length c). simpl in H. lia.
  - intros H.
    assert (c = d ∧ Ui.escapeHtml s = Ui.escapeHtml t) as [-> Heq];
      [|by rewrite (IH t Heq)].
    destruct (Ui.is_special c) eqn:Ec; destruct (Ui.is_special d) eqn:Ed.
    + destruct (entity_special c Ec) as [[-> Hc]|[[-> Hc]|[[-> Hc]|[[-> Hc]|[-> Hc]]]]];
      destruct (entity_special d Ed) as [[-> Hd]|[[-> Hd]|[[-> Hd]|[[-> Hd]|[-> Hd]]]]];
      rewrite ?Hc, ?Hd in H; rewrite ?append_cons, ?append_nil_l in H;
      try discriminate H; (split; [done|]); by simplify_eq.
    + rewrite (entity_plain d Ed) in H.
      assert (d = Ui.amp) as ->.
      { destruct (entity_special c Ec)
          as [[-> Hc]|[[-> Hc]|[[-> Hc]|[[-> Hc]|[-> Hc]]]]];
          rewrite Hc in H; rewrite ?append_cons, ?append_nil_l in H; by simplify_eq. }
      by vm_compute in Ed.
    + rewrite (entity_plain c Ec) in H.
      assert (c = Ui.amp) as ->.
      { destruct (entity_special d Ed)
          as [[-> Hd]|[[-> Hd]|[[-> Hd]|[[-> Hd]|[-> Hd]]]]];
          rewrite Hd in H; rewrite ?append_cons, ?append_nil_l in H; by simplify_eq. }
      by vm_compute in Ec.
    + rewrite (entity_plain c Ec), (entity_plain d Ed) in H.
      rewrite !append_cons, !append_nil_l in H. by simplify_eq.
Qed.

(** X22.  The text [escapeHtml] returns has no [<], no [>] and no quote of
    either kind: whatever the input, none of these four characters occurs in
    the output.  A text without any of the five special characters is
    returned as it is. *)
Theorem escapeHtml_output_is_inert :
  (∀ (str : string) (c : ascii),
      c ∈ list_ascii_of_string (Ui.escapeHtml str) →
      c ≠ Ui.lt ∧ c ≠ Ui.gt ∧ c ≠ Ui.quot ∧ c ≠ Ui.apos)
  ∧ (∀ str : string,
      forallb (λ c, negb (Ui.is_special c)) (list_ascii_of_string str) = true →
      Ui.escapeHtml str = str).
Proof.
  split.
  - intros str c. induction str as [|d str IH]; simpl.
    + by intros ?%elem_of_nil.
    + rewrite chars_append, elem_of_app. intros [H|H]; [by apply (entity_chars d)|auto].
  - intros str. induction str as [|d str IH]; simpl; [done|].
    rewrite andb_true_iff, negb_true_iff. intros [Hd Hrest].
    rewrite (entity_plain d Hd), append_cons, append_nil_l. by rewrite IH.
Qed.

(** X23.  [escapeHtml] loses nothing and works piece by piece: two texts
    with the same escaped form are the same text, and the escaped form of a
    concatenation is the concatenation of the escaped forms. *)
Theorem escapeHtml_is_injective :
  (∀ s t : string, Ui.escapeHtml s = Ui.escapeHtml t → s = t)
  ∧ (∀ s t : string,
      Ui.escapeHtml (String.append s t)
      = String.append (Ui.escapeHtml s) (Ui.escapeHtml t)).
Proof. split; [apply escapeHtml_inj|apply escapeHtml_append]. Qed.

(** ** Integers as numbers *)

Lemma Qfloor_ms (z : Z) : Qfloor (ms z) = z.
Proof.
  unfold ms. simpl. rewrite (Qfloor_comp _ (inject_Z z)); [apply Qfloor_Z|].
  apply Qred_correct.
Qed.

Lemma toString_of_Z (z : Z) : JSMath.toString (of_Z z) = pretty z.
Proof. unfold JSMath.toString, of_Z. fold (ms z). by rewrite Qfloor_ms. Qed.

Lemma ms_lt (a b : Z) : (ms a < ms b)%Qc ↔ (a < b)%Z.
Proof.
  unfold Qclt, ms. simpl. rewrite !Qred_correct. by rewrite Zlt_Qlt.
Qed.

Lemma ms_inj (a b : Z) : ms a = ms b → a = b.
Proof. intros H. by rewrite <- (Qfloor_ms a), <- (Qfloor_ms b), H. Qed.

Lemma ngt_of_Z (a b : Z) : ngt (of_Z a) (of_Z b) = bool_decide (b < a)%Z.
Proof.
  unfold ngt, of_Z. fold (ms a) (ms b). apply bool_decide_ext, ms_lt.
Qed.

Lemma max_of_Z (a b : Z) : JSMath.max (of_Z a) (of_Z b) = of_Z (Z.max a b).
Proof.
  unfold JSMath.max. change (match of_Z a with NaN => NaN | _ => _ end)
    with (if ngt (of_Z b) (of_Z a) then of_Z b else of_Z a).
  rewrite ngt_of_Z. case_bool_decide; f_equal; lia.
Qed.

Lemma min_of_Z (a b : Z) : JSMath.min (of_Z a) (of_Z b) = of_Z (Z.min a b).
Proof.
  unfold JSMath.min. change (match of_Z a with NaN => NaN | _ => _ end)
    with (if ngt (of_Z a) (of_Z b) then of_Z b else of_Z a).
  rewrite ngt_of_Z. case_bool_decide; f_equal; lia.
Qed.

Lemma ms_mul (a b : Z) : (ms a * ms b)%Qc = ms (a * b).
Proof.
  apply Qc_is_canon. unfold ms. simpl. rewrite !Qred_correct.
  by rewrite inject_Z_mult.
Qed.

Lemma ms_sub (a b : Z) : (ms a - ms b)%Qc = ms (a - b).
Proof.
  apply Qc_is_canon. unfold ms, Qcminus, Qcplus, Qcopp. simpl.
  rewrite !Qred_correct. unfold Z.sub. rewrite inject_Z_plus, inject_Z_opp. reflexivity.
Qed.

Lemma ms_nonzero (b : Z) : b ≠ 0%Z → ms b ≠ 0%Qc.
Proof. intros Hb H. apply Hb. by apply ms_inj. Qed.

(** The floor of a quotient of integers is the quotient of the integers. *)
Lemma Qfloor_ms_div (a b : Z) :
  (0 < b)%Z → Qfloor (ms a / ms b)%Qc = (a / b)%Z.
Proof.
  intros Hb.
  assert ((ms a / ms b)%Qc == a # Z.to_pos b)%Q as E.
  { unfold Qcdiv, Qcmult, Qcinv, ms. simpl. rewrite !Qred_correct.
    destruct b as [|p|p]; [lia| |lia]. simpl.
    unfold Qeq, Qmult, Qinv, inject_Z. simpl. lia. }
  rewrite E. unfold Qfloor. by rewrite Z2Pos.id.
Qed.

Lemma floor_div_of_Z (a b : Z) :
  (0 < b)%Z → JSMath.floor (ndiv (of_Z a) (of_Z b)) = of_Z (a / b).
Proof.
  intros Hb. unfold ndiv, of_Z. fold (ms a) (ms b).
  rewrite bool_decide_eq_false_2 by (apply ms_nonzero; lia).
  unfold JSMath.floor, of_Z. by rewrite Qfloor_ms_div.
Qed.

Lemma rem_of_Z (a b : Z) :
  (0 ≤ a)%Z → (0 < b)%Z → JSMath.rem (of_Z a) (of_Z b) = of_Z (a mod b).
Proof.
  intros Ha Hb. unfold JSMath.rem, of_Z. fold (ms a) (ms b).
  rewrite bool_decide_eq_false_2 by (apply ms_nonzero; lia).
  f_equal.
  assert (JSMath.truncate (ms a / ms b)%Qc = (a / b)%Z) as ->.
  { unfold JSMath.truncate. rewrite bool_decide_eq_false_2; [by apply Qfloor_ms_div|].
    intros Hneg.
    assert (Qfloor (ms a / ms b)%Qc < 0)%Z as Hfl.
    { rewrite <- (Qfloor_ms 0). apply Z.le_lt_trans with (Qfloor (ms a / ms b)%Qc); [lia|].
      rewrite Qfloor_ms. rewrite Zlt_Qlt.
      eapply Qle_lt_trans; [apply Qfloor_le|]. exact Hneg. }
    rewrite Qfloor_ms_div in Hfl by done.
    pose proof (Z.div_pos a b Ha Hb). lia. }
  fold (ms (a / b)). rewrite ms_mul, ms_sub. f_equal.
  rewrite Z.mod_eq by lia. reflexivity.
Qed.

(** ** The time label and the seek slider *)

Lemma two_digits_length (k : Z) :
  (0 ≤ k < 100)%Z → String.length (two_digits k) = 2%nat.
Proof.
  intros Hk. replace k with (Z.of_nat (Z.to_nat k)) by lia.
  assert (Z.to_nat k < 100)%nat as Hn by lia.
  generalize dependent (Z.to_nat k). intros n Hn.
  do 100 (destruct n as [|n]; [by vm_compute|]). lia.
Qed.

Lemma fmtTime_Fin (q : Qc) : Ui.fmtTime (Fin q) = clock_label (Z.max 0 (Qfloor q)).
Proof.
  unfold Ui.fmtTime.
  assert (JSMath.floor (nor (Fin q) (Fin 0%Qc)) = of_Z (Qfloor q)) as ->.
  { unfold nor. simpl num_truthy. destruct (decide (q = 0%Qc)) as [->|Hq].
    - reflexivity.
    - by rewrite bool_decide_eq_true_2. }
  change (Fin 0%Qc) with (of_Z 0). rewrite max_of_Z.
  set (n := Z.max 0 (Qfloor q)). assert (0 ≤ n)%Z as Hn by lia.
  cbv zeta.
  rewrite (rem_of_Z n 3600), (rem_of_Z n 60) by lia.
  rewrite !floor_div_of_Z by lia.
  rewrite ngt_of_Z, !toString_of_Z. reflexivity.
Qed.

(** X24.  [fmtTime] works on whole seconds and never shows a negative
    time: a finite [s] gives the label of [max(0, floor(s))], which is
    [h:mm:ss] from one hour on and [m:ss] below, the minutes and seconds of
    which are below 60 and take exactly two digits; a negative, missing or
    non-numeric [s] gives [0:00]; an infinite one gives [Infinity:NaN:NaN]. *)
Theorem fmtTime_formats_whole_seconds :
  (∀ q : Qc, Ui.fmtTime (Fin q) = clock_label (Z.max 0 (Qfloor q)))
  ∧ (∀ n : Z, (0 ≤ n)%Z →
       String.length (two_digits ((n mod 3600) / 60)) = 2%nat
       ∧ String.length (two_digits (n mod 60)) = 2%nat)
  ∧ (∀ q : Qc, (q < 0)%Qc → Ui.fmtTime (Fin q) = "0:00")
  ∧ Ui.fmtTime NaN = "0:00"
  ∧ Ui.fmtTime NInf = "0:00"
  ∧ Ui.fmtTime PInf = "Infinity:NaN:NaN".
Proof.
  split; [apply fmtTime_Fin|]. split; [|split; [|by vm_compute]].
  - intros n Hn. split; apply two_digits_length.
    + pose proof (Z.mod_pos_bound n 3600 ltac:(lia)).
      split; [apply Z.div_pos; lia|apply Z.div_lt_upper_bound; lia].
    + pose proof (Z.mod_pos_bound n 60 ltac:(lia)). lia.
  - intros q Hq. rewrite fmtTime_Fin.
    assert (Qfloor q < 0)%Z as Hfl.
    { rewrite Zlt_Qlt. eapply Qle_lt_trans; [apply Qfloor_le|]. exact Hq. }
    by replace (Z.max 0 (Qfloor q)) with 0%Z by lia.
Qed.

(** The instance of the label for one hour, one minute and one second. *)
Lemma fmtTime_formats_whole_seconds_witness :
  String.length (two_digits ((3661 mod 3600) / 60)) = 2%nat
  ∧ String.length (two_digits (3661 mod 60)) = 2%nat.
Proof.
  apply (proj1 (proj2 fmtTime_formats_whole_seconds) 3661%Z). lia.
Defined.

Lemma nor_zero_finite (x : number) :
  x ≠ PInf → x ≠ NInf → ∃ c : Qc, nor x (Fin 0%Qc) = Fin c.
Proof.
  intros H1 H2. destruct x as [| | |q]; try done.
  - by exists 0%Qc.
  - unfold nor. destruct (num_truthy (Fin q)); [by exists q|by exists 0%Qc].
Qed.

Lemma seek_position_bounds (d v : Qc) :
  (0 ≤ d)%Qc → (0 ≤ v)%Qc → (v ≤ ms 1000)%Qc →
  ∃ p : Qc, Ui.seek_position (Fin d) (Fin v) = Fin p ∧ (0 ≤ p)%Qc ∧ (p ≤ d)%Qc.
Proof.
  intros Hd Hv0 Hv1. unfold Ui.seek_position.
  assert (nor (Fin d) (Fin 0%Qc) = Fin d) as ->.
  { unfold nor. simpl. destruct (decide (d = 0%Qc)) as [->|Hne]; [done|].
    by rewrite bool_decide_eq_true_2. }
  unfold ndiv, of_Z. fold (ms 1000).
  rewrite bool_decide_eq_false_2 by apply ms_1000_nonzero.
  cbn [nmul]. eexists. split; [done|].
  assert (0 ≤ / ms 1000)%Qc as Hinv by by_eval.
  assert (0 ≤ v / ms 1000)%Qc as Hw0.
  { replace 0%Qc with (0 * / ms 1000)%Qc by ring. by apply Qcmult_le_compat_r. }
  assert (v / ms 1000 ≤ 1)%Qc as Hw1.
  { replace 1%Qc with (ms 1000 * / ms 1000)%Qc by by_eval.
    by apply Qcmult_le_compat_r. }
  split.
  - replace 0%Qc with (0 * (v / ms 1000))%Qc by ring. by apply Qcmult_le_compat_r.
  - rewrite Qcmult_comm. replace d with (1 * d)%Qc at 2 by ring.
    by apply Qcmult_le_compat_r.
Qed.

(** X25.  The seek slider stays on its scale: for a time that is not
    infinite, whatever the duration, the value the progress timer writes is
    a whole number between 0 and 1000 (an infinite time over an infinite
    duration gives [NaN]).  In the other direction, the position the host's
    slider sends with [player:seek] for a value on the scale lies between 0
    and the duration. *)
Theorem slider_value_is_on_the_scale :
  (∀ time duration : number,
      time ≠ PInf → time ≠ NInf →
      ∃ z : Z, Ui.slider_value time duration = of_Z z ∧ (0 ≤ z ≤ 1000)%Z)
  ∧ Ui.slider_value PInf PInf = NaN
  ∧ (∀ d v : Qc,
      (0 ≤ d)%Qc → (0 ≤ v)%Qc → (v ≤ ms 1000)%Qc →
      ∃ p : Qc, Ui.seek_position (Fin d) (Fin v) = Fin p ∧ (0 ≤ p)%Qc ∧ (p ≤ d)%Qc).
Proof.
  split; [|split; [by vm_compute|apply seek_position_bounds]].
  intros time duration H1 H2. unfold Ui.slider_value.
  destruct (nor_zero_finite time H1 H2) as [c ->].
  destruct (ngt (nor duration (Fin 0%Qc)) (Fin 0%Qc)) eqn:Hd.
  - assert (∃ z, JSMath.floor (nmul (ndiv (Fin c) (nor duration (Fin 0%Qc))) (of_Z 1000))
                 = of_Z z) as [z ->].
    { destruct (nor duration (Fin 0%Qc)) as [| | |d] eqn:E; try done.
      - exists 0%Z. by vm_compute.
      - simpl in Hd. apply bool_decide_eq_true in Hd.
        unfold ndiv. rewrite bool_decide_eq_false_2.
        + simpl. by eexists.
        + intros ->. by apply Qclt_not_eq in Hd. }
    rewrite min_of_Z. change (Fin 0%Qc) with (of_Z 0). rewrite max_of_Z.
    eexists. split; [done|]. lia.
  - exists 0%Z. split; [done|lia].
Qed.

Lemma slider_value_is_on_the_scale_witness :
  ∃ z : Z, Ui.slider_value (of_Z 30) (of_Z 120) = of_Z z ∧ (0 ≤ z ≤ 1000)%Z.
Proof.
  apply (proj1 slider_value_is_on_the_scale (of_Z 30) (of_Z 120)); by vm_compute.
Defined.

(** ** Upload file names *)

Lemma pretty_N_go_chars (x : N) (s : string) :
  forallb digit_or_dash (list_ascii_of_string s) = true →
  forallb digit_or_dash (list_ascii_of_string (pretty_N_go x s)) = true.
Proof.
  revert s. induction (N.lt_wf_0 x) as [x _ IH]; intros s Hs.
  assert (x = 0 ∨ 0 < x)%N as [->|Hx] by lia.
  - by rewrite pretty_N_go_0.
  - rewrite pretty_N_go_step by done. apply IH; [by apply N.div_lt|].
    simpl. rewrite Hs, andb_true_r.
    unfold pretty_N_char. by repeat case_match.
Qed.

Lemma pretty_Z_chars (z : Z) :
  forallb digit_or_dash (list_ascii_of_string (pretty z)) = true.
Proof.
  assert (∀ p : positive,
             forallb digit_or_dash (list_ascii_of_string (pretty p)) = true) as Hp.
  { intros p. unfold pretty, pretty_positive, pretty, pretty_N.
    case_decide; [done|]. by apply pretty_N_go_chars. }
  destruct z as [|p|p]; [done|apply Hp|].
  change (pretty (Z.neg p)) with (String.append "-" (pretty p)).
  rewrite chars_append, forallb_app, Hp. done.
Qed.

Lemma digit_or_dash_kept (c : ascii) : digit_or_dash c = true → Uploads.kept c = true.
Proof.
  unfold digit_or_dash, Uploads.kept. rewrite !bool_decide_eq_true. lia.
Qed.

Lemma safeName_kept (s : string) :
  forallb Uploads.kept (list_ascii_of_string (Uploads.safeName s)) = true.
Proof.
  induction s as [|c s IH]; [done|]. simpl. rewrite IH, andb_true_r.
  destruct (Uploads.kept c) eqn:E; [done|by vm_compute].
Qed.

Lemma safeName_clean (s : string) :
  forallb Uploads.kept (list_ascii_of_string s) = true → Uploads.safeName s = s.
Proof.
  induction s as [|c s IH]; [done|]. simpl. rewrite andb_true_iff.
  intros [-> Hs]. by rewrite IH.
Qed.

(** X26.  The name an upload is stored under is made of letters, digits,
    [_], [.] and [-] only, whatever the original name, the clock and the
    random value: it holds no path separator.  The sanitiser keeps the
    length of the original name, leaves a clean name as it is, and applied
    twice does what it does once. *)
Theorem upload_filename_is_clean :
  (∀ (now : Z) (r : Qc) (originalname : string),
      forallb Uploads.kept (list_ascii_of_string (Uploads.filename now r originalname))
      = true)
  ∧ (∀ (now : Z) (r : Qc) (originalname : string) (c : ascii),
      c ∈ list_ascii_of_string (Uploads.filename now r originalname) →
      c ≠ "/"%char ∧ c ≠ "092"%char)
  ∧ (∀ s : string, String.length (Uploads.safeName s) = String.length s)
  ∧ (∀ s : string,
      forallb Uploads.kept (list_ascii_of_string s) = true → Uploads.safeName s = s)
  ∧ (∀ s : string, Uploads.safeName (Uploads.safeName s) = Uploads.safeName s).
Proof.
  assert (∀ now r originalname,
             forallb Uploads.kept
               (list_ascii_of_string (Uploads.filename now r originalname)) = true)
    as Hall.
  { intros now r originalname. unfold Uploads.filename.
    assert (∀ z : Z, forallb Uploads.kept (list_ascii_of_string (pretty z)) = true) as Hz.
    { intros z. apply forallb_forall. intros c Hc. apply digit_or_dash_kept.
      by apply (proj1 (forallb_forall _ _) (pretty_Z_chars z)). }
    rewrite !chars_append, !forallb_app, Hz, safeName_kept.
    unfold JSMath.round, JSMath.floor. cbn [nmul nadd of_Z].
    fold (of_Z (Qfloor (r * Q2Qc (inject_Z 1000000000) + Q2Qc (1 # 2))%Qc)).
    by rewrite toString_of_Z, Hz. }
  split; [exact Hall|]. split; [|split; [|split]].
  - intros now r originalname c Hc.
    pose proof (proj1 (forallb_forall _ _) (Hall now r originalname) c) as Hk.
    rewrite <- list_elem_of_In in Hk. specialize (Hk Hc).
    split; intros ->; by vm_compute in Hk.
  - intros s. induction s as [|c s IH]; [done|]. simpl. by rewrite IH.
  - apply safeName_clean.
  - intros s. apply safeName_clean, safeName_kept.
Qed.

(** A clean name is kept. *)
Lemma upload_filename_is_clean_witness :
  Uploads.safeName "clip-01.mp4" = "clip-01.mp4".
Proof.
  apply (proj1 (proj2 (proj2 (proj2 upload_filename_is_clean))) "clip-01.mp4").
  by vm_compute.
Defined.

(** ** The polling client *)

(** X27.  Polling is idempotent: a poll that brings the room the client
    already holds makes no call on the player and leaves the client state as
    it is, so two polls of an unchanged room act as one.  A poll whose
    source is the current one never reloads the player: at most it applies
    the playback. *)
Theorem polling_is_idempotent :
  (∀ now now' cur cur' hp hp' st room,
      let st1 := (Poll.updateRoomState now cur hp st room).1 in
      Poll.updateRoomState now' cur' hp' st1 room = (st1, Poll.Nothing))
  ∧ (∀ now cur hp st room,
      Poll.current_source st = Poll.source room →
      (Poll.updateRoomState now cur hp st room).2 = Poll.Nothing
      ∨ (Poll.updateRoomState now cur hp st room).2
        = Poll.Applied (Client.applyPlayback now cur hp (Some (Poll.playback room))))
  ∧ (∀ now cur hp st room,
      Poll.isHost (Poll.updateRoomState now cur hp st room).1 = true
      ↔ Poll.hostId room = Some (Poll.me_id st)).
Proof.
  split; [|split].
  - intros now now' cur cur' hp hp' st room st1. subst st1.
    unfold Poll.updateRoomState. simpl.
    rewrite (bool_decide_eq_true_2 (Poll.source room = Poll.source room)) by done.
    rewrite (bool_decide_eq_true_2
               (Poll.json_playback (Some (Poll.playback room))
                = Poll.json_playback (Some (Poll.playback room)))) by done.
    reflexivity.
  - intros now cur hp st room Hsrc. unfold Poll.updateRoomState. simpl.
    rewrite bool_decide_eq_true_2 by done. simpl.
    case_bool_decide; simpl; [by left|by right].
  - intros now cur hp st room. simpl. apply bool_decide_eq_true.
Qed.

Lemma polling_is_idempotent_witness :
  (Poll.updateRoomState 6000 (Fin 0%Qc) true
     (Poll.updateRoomState 5000 (Fin 0%Qc) false sample_poll_state sample_view).1
     sample_view).2
  = Poll.Nothing
  ∨ (Poll.updateRoomState 6000 (Fin 0%Qc) true
       (Poll.updateRoomState 5000 (Fin 0%Qc) false sample_poll_state sample_view).1
       sample_view).2
    = Poll.Applied (Client.applyPlayback 6000 (Fin 0%Qc) true
                      (Some (Poll.playback sample_view))).
Proof.
  apply (proj1 (proj2 polling_is_idempotent) 6000%Z (Fin 0%Qc) true
           (Poll.updateRoomState 5000 (Fin 0%Qc) false sample_poll_state sample_view).1
           sample_view).
  reflexivity.
Defined.

(* ===================================================================== *)
(** * The further properties on concrete inputs                           *)
(* ===================================================================== *)

Lemma sample_sids : Forall (λ i, event_sid (Push.i_event i) ≠ "") sample_trace.
Proof. by_eval. Qed.

Lemma sample_hosted : Push.hosted_room "s1" sample_push = Some ("X", sample_push_room).
Proof. by vm_compute. Qed.

(** The pause of the host in the sample state leaves what is under another
    key alone. *)
Lemma handlers_change_one_room_witness :
  Push.rooms (Push.handle digits_to_number trim 6000 sample_random
                (Push.ev_pause "s1" JUndefined JUndefined) sample_push).1 !! "X"
  = Push.rooms sample_push !! "X"
  ∨ Push.rooms (Push.handle digits_to_number trim 6000 sample_random
                  (Push.ev_pause "s1" JUndefined JUndefined) sample_push).1 !! "Y"
    = Push.rooms sample_push !! "Y".
Proof.
  apply (proj1 (handlers_change_one_room digits_to_number trim) 6000%Z sample_random
           (Push.ev_pause "s1" JUndefined JUndefined) sample_push "X" "Y").
  by vm_compute.
Defined.

Lemma rooms_are_never_removed_witness :
  ∃ room', Push.rooms (Push.handle digits_to_number trim 6000 sample_random
                         (Push.disconnect "s2") sample_push).1 !! "X" = Some room'
           ∧ Push.id room' = Push.id sample_push_room.
Proof.
  apply (proj1 (rooms_are_never_removed digits_to_number trim) 6000%Z sample_random
           (Push.disconnect "s2") sample_push "X" sample_push_room).
  by vm_compute.
Defined.

Lemma registry_keys_are_room_ids_witness : Push.id sample_push_room = "X".
Proof.
  apply (proj1 (registry_keys_are_room_ids digits_to_number trim) sample_trace "X"
           sample_push_room).
  by vm_compute.
Defined.

Lemma participant_entries_are_well_formed_witness :
  entries_ok Push.pid (Push.participants sample_push_room).
Proof.
  apply (proj1 (participant_entries_are_well_formed digits_to_number trim) sample_trace "X"
           sample_push_room).
  by vm_compute.
Defined.

Lemma only_the_sender_is_removed_witness :
  ∃ room', Push.rooms (Push.handle digits_to_number trim 6000 sample_random
                         (Push.disconnect "s1") sample_push).1 !! "X" = Some room'
           ∧ "s2" ∈ JsMap.keys (Push.participants room').
Proof.
  apply (proj1 (only_the_sender_is_removed digits_to_number trim) 6000%Z sample_random
           (Push.disconnect "s1") sample_push "X" sample_push_room "s2").
  - by vm_compute.
  - by_eval.
  - by vm_compute.
Defined.

Lemma only_the_host_changes_playback_witness :
  ∃ room', Push.rooms (Push.handle digits_to_number trim 6000 sample_random
                         (Push.ev_seek "s2" (JNum (of_Z 90)) JUndefined)
                         sample_push).1 !! "X" = Some room'
           ∧ Push.playback room' = Push.playback sample_push_room
           ∧ Push.source room' = Push.source sample_push_room.
Proof.
  apply (proj1 (only_the_host_changes_playback digits_to_number trim) 6000%Z sample_random
           (Push.ev_seek "s2" (JNum (of_Z 90)) JUndefined) sample_push "X"
           sample_push_room).
  - by vm_compute.
  - by vm_compute.
Defined.

Lemma host_is_displaced_by_nobody_else_witness :
  ∃ room', Push.rooms (Push.handle digits_to_number trim 6000 sample_random
                         (Push.role_become_host "s2") sample_push).1 !! "X" = Some room'
           ∧ Push.hostId room' = Some "s1".
Proof.
  apply (proj1 (host_is_displaced_by_nobody_else digits_to_number trim) 6000%Z sample_random
           (Push.role_become_host "s2") sample_push "X" sample_push_room "s1").
  - by vm_compute.
  - by vm_compute.
  - by vm_compute.
  - by vm_compute.
Defined.

Lemma occupied_rooms_have_a_host_witness :
  ∃ h, Push.hostId sample_push_room = Some h ∧ h ≠ "".
Proof.
  apply (occupied_rooms_have_a_host digits_to_number trim sample_trace "X" sample_push_room).
  - exact sample_sids.
  - by vm_compute.
  - by vm_compute.
Defined.

Lemma become_host_never_takes_effect_witness :
  Push.handle digits_to_number trim 6000 sample_random (Push.role_become_host "s2")
    (Push.run digits_to_number trim sample_trace)
  = (Push.run digits_to_number trim sample_trace, []).
Proof.
  apply (become_host_never_takes_effect digits_to_number trim sample_trace 6000%Z
           sample_random "s2").
  exact sample_sids.
Defined.

(** A socket that never connected asks for a sync. *)
Lemma events_outside_a_room_are_dropped_witness :
  Push.handle digits_to_number trim 6000 sample_random (Push.sync_request "s9") sample_push
  = (sample_push, []).
Proof.
  apply (proj1 (events_outside_a_room_are_dropped digits_to_number trim 6000%Z sample_random
                  (Push.sync_request "s9") sample_push ltac:(by vm_compute))).
  reflexivity.
Defined.

Lemma commands_after_leave_are_dropped_witness :
  let st' := (Push.handle digits_to_number trim 6000 sample_random
                (Push.room_leave "s1") sample_push).1 in
  Push.handle digits_to_number trim 7000 sample_random
    (Push.ev_play "s1" JUndefined JUndefined JUndefined) st' = (st', []).
Proof.
  apply (commands_after_leave_are_dropped digits_to_number trim 6000%Z sample_random 7000%Z
           sample_random sample_push "s1" "X" sample_push_room
           (Push.ev_play "s1" JUndefined JUndefined JUndefined)).
  - by vm_compute.
  - reflexivity.
  - reflexivity.
Defined.

Lemma stored_position_and_stamp_are_numbers_witness :
  at_ (Push.playback sample_push_room) ≠ NaN ∧ ts (Push.playback sample_push_room) ≠ NaN.
Proof.
  apply (stored_position_and_stamp_are_numbers digits_to_number trim sample_trace "X"
           sample_push_room).
  by vm_compute.
Defined.

Lemma sync_request_rebases_the_snapshot_witness :
  Push.handle digits_to_number trim 9000 sample_random (Push.sync_request "s2") sample_push
  = (sample_push,
     [Push.to_socket "s2"
        (Push.sync_state paused (Fin 0%Qc) (Fin 1%Qc) (of_Z 9000) None (Some "s1"))]).
Proof.
  apply (proj1 (sync_request_rebases_the_snapshot digits_to_number trim 9000%Z sample_random
                  sample_push "s2" "X" sample_push_room ltac:(by vm_compute))).
Defined.

(** The host plays at position 10 and rate 2 with the stamp 5000; four
    seconds later the position is 18. *)
Lemma play_then_sync_reports_the_extrapolation_witness :
  let st' := (Push.handle digits_to_number trim 5000 sample_random
                (Push.ev_play "s1" (JNum (Fin (ms 10))) (JNum (Fin (ms 2)))
                   (JNum (Fin (ms 5000)))) sample_push).1 in
  Push.handle digits_to_number trim 9000 sample_random (Push.sync_request "s2") st'
  = (st', [Push.to_socket "s2"
             (Push.sync_state playing
                (Fin (ms 10 + (ms 9000 - ms 5000) / ms 1000 * ms 2)%Qc) (Fin (ms 2))
                (of_Z 9000) None (Some "s1"))]).
Proof.
  apply (play_then_sync_reports_the_extrapolation digits_to_number trim 5000%Z 9000%Z
           sample_random sample_random sample_push "s1" "s2" "X" sample_push_room
           (ms 10) (ms 2) (ms 5000)).
  - exact sample_hosted.
  - by vm_compute.
  - by_eval.
  - by_eval.
Defined.

Lemma set_source_restarts_playback_witness :
  Push.handle digits_to_number trim 6000 sample_random
    (Push.set_source "s1" (Some (Push.mkSourcePayload (Some "youtube") None None)))
    sample_push
  = (sample_push, []).
Proof.
  apply (proj2 (set_source_restarts_playback digits_to_number trim 6000%Z 7000%Z sample_random
                  sample_random sample_push "s1" "s2" "X" sample_push_room
                  (Push.mkSourcePayload (Some "youtube") None None)
                  sample_hosted ltac:(by vm_compute))).
  reflexivity.
Defined.

Lemma unknown_room_is_404_witness :
  (Http.handle 6000 sample_random (Http.get_room "Q") sample_http).1 = sample_http.
Proof.
  apply (proj2 (proj1 unknown_room_is_404 6000%Z sample_random (Http.get_room "Q")
                  sample_http "Q" eq_refl ltac:(done))).
  by vm_compute.
Defined.

Lemma poll_is_read_only_and_bounded_witness :
  ∃ msgs older,
    Http.handle 6000 sample_random (Http.get_room "X") sample_http
    = (sample_http,
       Http.room_view (Http.summary sample_http_room)
         (JsMap.values (Http.participants sample_http_room)) msgs)
    ∧ Http.messages sample_http_room = older ++ msgs
    ∧ (length msgs ≤ 20)%nat
    ∧ ((length (Http.messages sample_http_room) ≤ 20)%nat
       → msgs = Http.messages sample_http_room).
Proof.
  apply (poll_is_read_only_and_bounded 6000%Z sample_random sample_http "X"
           sample_http_room).
  by vm_compute.
Defined.

Lemma posted_message_is_polled_witness :
  let rs' := (Http.handle 6000 sample_random
                (Http.post_chat "X" "u2" "hello" None) sample_http).1 in
  ∃ view ps msgs,
    Http.handle 7000 sample_random (Http.get_room "X") rs'
    = (rs', Http.room_view view ps msgs)
    ∧ last msgs = Some (Http.mkMessage (pretty 6000%Z) (slice0 1000 "hello")
                          (sor None "Anon") "u2" 6000)
    ∧ view = Http.summary sample_http_room
    ∧ ps = JsMap.values (Http.participants sample_http_room).
Proof.
  apply (posted_message_is_polled 6000%Z 7000%Z sample_random sample_random sample_http
           "X" sample_http_room "u2" "hello" None).
  by vm_compute.
Defined.

Lemma joined_user_is_polled_witness :
  ∃ room',
    (Http.handle 6000 sample_random (Http.post_join (Some "Z") None "u7") sample_http).1
      !! "Z" = Some room'
    ∧ Http.hostId room' = Some "u7".
Proof.
  destruct (joined_user_is_polled 6000%Z 7000%Z sample_random sample_random sample_http
              "Z" None "u7" ltac:(done)) as (room' & Hr & _ & _ & _ & Hhost).
  exists room'. split; [exact Hr|]. apply Hhost; by vm_compute.
Defined.

Lemma playback_route_writes_playback_only_witness :
  Http.handle 6000 sample_random
    (Http.post_playback "X" "u1" "stop" JUndefined JUndefined JUndefined) sample_http
  = (sample_http, Http.success).
Proof.
  apply (proj2 (playback_route_writes_playback_only 6000%Z sample_random sample_http
                  "X" sample_http_room "u1" "stop" JUndefined JUndefined JUndefined
                  ltac:(by vm_compute) ltac:(by vm_compute))); done.
Defined.

Lemma escapeHtml_output_is_inert_witness : Ui.escapeHtml "plain text" = "plain text".
Proof.
  apply (proj2 escapeHtml_output_is_inert "plain text"). by vm_compute.
Defined.

Lemma escapeHtml_is_injective_witness : "a<b" = "a<b".
Proof.
  apply (proj1 escapeHtml_is_injective "a<b" "a<b"). reflexivity.
Defined.
